(** * Dice.com job scraper: text normalizers, record mapper, detail extractor
      and route handlers, embedded from [src/utils.ts] and [src/routes.ts]. *)

From Stdlib Require Import List Bool Arith NArith ZArith QArith Qround Lia.
From Stdlib Require Import Ascii String DecimalString.
From Stdlib Require DecimalZ.
Import ListNotations.
Close Scope Q_scope.
Open Scope list_scope.

(** ** JavaScript strings

    A JavaScript string is a sequence of UTF-16 code units; a code unit is
    modelled by its number.  Literals of the source are ASCII (apart from the
    en dash of one character class, written by its code). *)

Module Str.

Definition jsstring := list N.

Definition js (s : String.string) : jsstring :=
  List.map N_of_ascii (list_ascii_of_string s).

Definition eqb (a b : jsstring) : bool :=
  if list_eq_dec N.eq_dec a b then true else false.

(** Truthiness of a string value: the empty string is falsy. *)
Definition nonEmpty (s : jsstring) : bool :=
  match s with [] => false | _ :: _ => true end.

(** [s.startsWith(p)] *)
Fixpoint startsWith (p s : jsstring) : bool :=
  match p, s with
  | [], _ => true
  | a :: p', b :: s' => (a =? b)%N && startsWith p' s'
  | _ :: _, [] => false
  end.

(** [s.includes(p)] *)
Fixpoint includes (p s : jsstring) : bool :=
  startsWith p s ||
  match s with
  | [] => false
  | _ :: r => includes p r
  end.

(** [s.replace(/pat/g, rep)] for a literal, non-empty pattern: matches are
    taken left to right and do not overlap.  [skip] counts the code units of
    the current match that are still to be dropped. *)
Fixpoint replaceAllFrom (pat rep : jsstring) (skip : nat) (s : jsstring) : jsstring :=
  match s with
  | [] => []
  | c :: r =>
      match skip with
      | S k => replaceAllFrom pat rep k r
      | O => if startsWith pat s
             then rep ++ replaceAllFrom pat rep (Nat.pred (List.length pat)) r
             else c :: replaceAllFrom pat rep 0 r
      end
  end.

Definition replaceAll (pat rep s : jsstring) : jsstring :=
  replaceAllFrom pat rep 0 s.

(** [s.replace(pat, rep)] for a literal string pattern: the first occurrence
    only. *)
Fixpoint replaceFirst (pat rep s : jsstring) : jsstring :=
  if startsWith pat s then rep ++ skipn (List.length pat) s
  else match s with
       | [] => []
       | c :: r => c :: replaceFirst pat rep r
       end.

(** The code units matched by [\s], which are also those removed by
    [trim()]: WhiteSpace and LineTerminator of ECMAScript. *)
Definition isSpace (c : N) : bool :=
  ((9 <=? c) && (c <=? 13) || (c =? 32) || (c =? 160) || (c =? 5760)
   || (8192 <=? c) && (c <=? 8202) || (c =? 8232) || (c =? 8233)
   || (c =? 8239) || (c =? 8287) || (c =? 12288) || (c =? 65279))%N.

Fixpoint trimStart (s : jsstring) : jsstring :=
  match s with
  | [] => []
  | c :: r => if isSpace c then trimStart r else s
  end.

Definition trimEnd (s : jsstring) : jsstring := rev (trimStart (rev s)).

Definition trim (s : jsstring) : jsstring := trimEnd (trimStart s).

(** [toLowerCase()] on strings that hold no letter outside ASCII, which is
    what it is applied to here: the captures of patterns whose classes are
    ASCII.  Where the source lowers a string of any content, the case tables
    are the host's. *)
Definition lowerUnit (c : N) : N :=
  if ((65 <=? c) && (c <=? 90))%N then (c + 32)%N else c.

Definition toLowerCase (s : jsstring) : jsstring := List.map lowerUnit s.

(** Decimal rendering of an integer, as [String(n)] gives it. *)
Definition ofZ (z : Z) : jsstring := js (NilEmpty.string_of_int (Z.to_int z)).

End Str.

Import Str.

Arguments js s%_string.

(** ** utils.ts: cleanText *)

Module Clean.

Definition LT : N := 60.
Definition GT : N := 62.
Definition SP : N := 32.

(** [.replace(/<[^>]*>/g, '')].  A match starts at a ['<'] that has a ['>']
    somewhere after it and ends at the first such ['>'], since [[^>]*] cannot
    step over one.  [inTag] says that a match is being dropped. *)
Fixpoint stripTagsFrom (inTag : bool) (s : jsstring) : jsstring :=
  match s with
  | [] => []
  | c :: r =>
      if inTag then
        (if (c =? GT)%N then stripTagsFrom false r else stripTagsFrom true r)
      else if (c =? LT)%N && existsb (N.eqb GT) r then stripTagsFrom true r
      else c :: stripTagsFrom false r
  end.

Definition stripTags (s : jsstring) : jsstring := stripTagsFrom false s.

(** [.replace(/\s+/g, ' ')]: every maximal run of white space becomes one
    space.  [inRun] says that the run's space has been written already. *)
Fixpoint collapseFrom (inRun : bool) (s : jsstring) : jsstring :=
  match s with
  | [] => []
  | c :: r =>
      if isSpace c then
        (if inRun then collapseFrom true r else SP :: collapseFrom true r)
      else c :: collapseFrom false r
  end.

Definition collapseSpaces (s : jsstring) : jsstring := collapseFrom false s.

(** The six entities, in the order the source decodes them. *)
Definition entities : list (jsstring * jsstring) :=
  [ (js "&nbsp;", js " "); (js "&amp;", js "&"); (js "&lt;", js "<");
    (js "&gt;", js ">"); (js "&quot;", [34%N]); (js "&#39;", js "'") ].

Definition decodeEntities (s : jsstring) : jsstring :=
  fold_left (fun acc e => replaceAll (fst e) (snd e) acc) entities s.

Definition cleanText (text : jsstring) : jsstring :=
  if negb (nonEmpty text) then []
  else trim (collapseSpaces (stripTags (decodeEntities text))).

(** No entity of the fixed set occurs in [s]. *)
Definition entityFree (s : jsstring) : bool :=
  forallb (fun e => negb (includes (fst e) s)) entities.

(** The replacement of a pattern is shorter than the pattern. *)
Definition shorterRep (e : jsstring * jsstring) : Prop :=
  List.length (snd e) < List.length (fst e).

(** Some ['<'] of [s] has a ['>'] after it: the tag pattern matches. *)
Fixpoint hasTag (s : jsstring) : bool :=
  match s with
  | [] => false
  | c :: r => (c =? LT)%N && existsb (N.eqb GT) r || hasTag r
  end.

(** Every white space of [s] is a single space that does not follow another
    one ([afterSpace] tells what precedes [s]). *)
Fixpoint collapsed (afterSpace : bool) (s : jsstring) : bool :=
  match s with
  | [] => true
  | c :: r =>
      if isSpace c then (c =? SP)%N && negb afterSpace && collapsed true r
      else collapsed false r
  end.

(** [s] does not begin with white space. *)
Definition startOk (s : jsstring) : bool :=
  match s with
  | [] => true
  | c :: _ => negb (isSpace c)
  end.

End Clean.

Import Clean.


(** ** Regular expressions

    The patterns of the source are kept as syntax and run by a backtracking
    matcher that follows ECMAScript: quantifiers are greedy, the left
    alternative is tried first, an iteration of a star that consumes nothing
    is refused, and a search tries the start positions from left to right. *)

Module Regex.

Inductive regex : Type :=
| Eps
| Class (p : N -> bool)
| Cat (a b : regex)
| Alt (a b : regex)
| Opt (a : regex)
| Star (a : regex)
| Group (i : nat) (a : regex)
| WordB.

Definition Plus (a : regex) : regex := Cat a (Star a).

(** The matcher's position: the code unit just before it, for [\b], and the
    input that is left. *)
Record pos : Type := mkPos { prev : option N; rest : jsstring }.

Definition caps := list (nat * jsstring).

(** [\w] *)
Definition isWordUnit (c : N) : bool :=
  ((48 <=? c) && (c <=? 57) || (65 <=? c) && (c <=? 90)
   || (97 <=? c) && (c <=? 122) || (c =? 95))%N.

Definition isWord (o : option N) : bool :=
  match o with
  | Some c => isWordUnit c
  | None => false
  end.

Definition consumed (before after : jsstring) : jsstring :=
  firstn (List.length before - List.length after) before.

Fixpoint run {A : Type} (r : regex) (p : pos) (c : caps)
    (k : pos -> caps -> option A) {struct r} : option A :=
  match r with
  | Eps => k p c
  | Class f =>
      match rest p with
      | x :: t => if f x then k (mkPos (Some x) t) c else None
      | [] => None
      end
  | Cat a b => run a p c (fun p' c' => run b p' c' k)
  | Alt a b =>
      match run a p c k with
      | Some x => Some x
      | None => run b p c k
      end
  | Opt a =>
      match run a p c k with
      | Some x => Some x
      | None => k p c
      end
  | Star a =>
      (fix iter (fuel : nat) (p : pos) (c : caps) {struct fuel} : option A :=
         match fuel with
         | O => k p c
         | S fuel' =>
             match run a p c (fun p' c' =>
                     if List.length (rest p') <? List.length (rest p)
                     then iter fuel' p' c' else None) with
             | Some x => Some x
             | None => k p c
             end
         end) (List.length (rest p)) p c
  | Group i a =>
      run a p c (fun p' c' => k p' ((i, consumed (rest p) (rest p')) :: c'))
  | WordB =>
      if xorb (isWord (prev p)) (isWord (hd_error (rest p))) then k p c else None
  end.

(** The result of a successful match: [m[0]] and the captures. *)
Record found : Type := mkFound { whole : jsstring; groups : caps }.

Definition matchAt (r : regex) (p : pos) : option found :=
  run r p [] (fun p' c' => Some (mkFound (consumed (rest p) (rest p')) c')).

(** [s.match(r)] for a pattern without the [g] flag. *)
Fixpoint searchFrom (r : regex) (before : option N) (s : jsstring) : option found :=
  match matchAt r (mkPos before s) with
  | Some m => Some m
  | None =>
      match s with
      | [] => None
      | x :: t => searchFrom r (Some x) t
      end
  end.

Definition search (r : regex) (s : jsstring) : option found := searchFrom r None s.

(** [m[i]] of a group that took part in the match. *)
Fixpoint group (i : nat) (c : caps) : jsstring :=
  match c with
  | [] => []
  | (j, v) :: c' => if Nat.eqb i j then v else group i c'
  end.

(** [s.match(r)] for a pattern with the [g] flag: the texts of all matches,
    left to right, none overlapping.  [skip] counts the code units of the
    last match still to be passed. *)
Fixpoint matchAllFrom (r : regex) (skip : nat) (before : option N) (s : jsstring)
    : list jsstring :=
  match s with
  | [] =>
      match skip, matchAt r (mkPos before []) with
      | O, Some m => [whole m]
      | _, _ => []
      end
  | x :: t =>
      match skip with
      | S k => matchAllFrom r k (Some x) t
      | O =>
          match matchAt r (mkPos before s) with
          | Some m => whole m :: matchAllFrom r (Nat.pred (List.length (whole m))) (Some x) t
          | None => matchAllFrom r 0 (Some x) t
          end
      end
  end.

Definition matchAll (r : regex) (s : jsstring) : list jsstring :=
  matchAllFrom r 0 None s.

(** Building blocks. *)
Definition chr (c : N) : regex := Class (N.eqb c).

(** A code unit under the [i] flag: both cases of an ASCII letter. *)
Definition unitCI (c : N) : regex := Class (fun x => (lowerUnit x =? lowerUnit c)%N).

Fixpoint seq (l : list regex) : regex :=
  match l with
  | [] => Eps
  | [a] => a
  | a :: l' => Cat a (seq l')
  end.

Fixpoint alts (l : list regex) : regex :=
  match l with
  | [] => Class (fun _ => false)
  | [a] => a
  | a :: l' => Alt a (alts l')
  end.

Definition lit (s : jsstring) : regex := seq (List.map chr s).
Definition litCI (s : jsstring) : regex := seq (List.map unitCI s).

Definition digit : regex := Class (fun c => (48 <=? c) && (c <=? 57))%N.
Definition space : regex := Class isSpace.

(** [a{0,2}] *)
Definition upTo2 (a : regex) : regex := Opt (Cat a (Opt a)).

End Regex.

Import Regex.

(** ** Numbers

    A JavaScript number is [NaN], an infinity, or a finite value, kept as a
    rational in lowest terms.  The results of [parseFloat] and of the
    multiplication are rounded as binary64 rounds them: to 53 significant
    bits, a tie going to the even neighbour, with a least exponent of -1022
    and infinity from 2^1024 on.  The zero carries no sign. *)

Module Num.

Inductive number : Type :=
| NaN
| Fin (q : Q)
| Inf (negative : bool).

Definition ofZ (z : Z) : number := Fin (inject_Z z).

(** Truthiness: [0] and [NaN] are falsy. *)
Definition truthy (n : number) : bool :=
  match n with
  | NaN => false
  | Fin q => negb (Qnum q =? 0)%Z
  | Inf _ => true
  end.

(** [a < b]; a comparison with [NaN] is false. *)
Definition lt (a b : number) : bool :=
  match a, b with
  | Fin x, Fin y => match Qcompare x y with Lt => true | _ => false end
  | Fin _, Inf negative => negb negative
  | Inf negative, Fin _ => negative
  | Inf negative, Inf negative' => negative && negb negative'
  | _, _ => false
  end.

(** The integer nearest to [n / d], for [n >= 0] and [d > 0]; a tie goes to
    the even one. *)
Definition nearestEven (n d : Z) : Z :=
  let q := (n / d)%Z in
  match (2 * (n mod d) ?= d)%Z with
  | Lt => q
  | Gt => (q + 1)%Z
  | Eq => if Z.even q then q else (q + 1)%Z
  end.

(** [floor (log2 (n / d))], for [n > 0] and [d > 0]. *)
Definition binade (n d : Z) : Z :=
  let e := (Z.log2 n - Z.log2 d)%Z in
  if (d * 2 ^ Z.max 0 e <=? n * 2 ^ Z.max 0 (- e))%Z then e else (e - 1)%Z.

(** The binary64 value nearest to [n / d], for [n > 0] and [d > 0]; [None]
    stands for an overflow. *)
Definition round64pos (n d : Z) : option Q :=
  let e := Z.max (binade n d) (-1022) in
  let shift := (e - 52)%Z in
  let m := nearestEven (n * 2 ^ Z.max 0 (- shift)) (d * 2 ^ Z.max 0 shift) in
  if (2 ^ 1024 <=? m * 2 ^ Z.max 0 shift)%Z then None
  else Some (Qred (Qmake (m * 2 ^ Z.max 0 shift) (Z.to_pos (2 ^ Z.max 0 (- shift))))).

Definition round64 (q : Q) : number :=
  match Qnum q with
  | Z0 => Fin 0
  | Zpos n =>
      match round64pos (Zpos n) (Zpos (Qden q)) with
      | Some v => Fin v
      | None => Inf false
      end
  | Zneg n =>
      match round64pos (Zpos n) (Zpos (Qden q)) with
      | Some v => Fin (Qred (- v))
      | None => Inf true
      end
  end.

Definition mul (a b : number) : number :=
  match a, b with
  | Fin x, Fin y => round64 (x * y)%Q
  | Fin x, Inf negative | Inf negative, Fin x =>
      match Qnum x with
      | Z0 => NaN
      | Zpos _ => Inf negative
      | Zneg _ => Inf (negb negative)
      end
  | Inf negative, Inf negative' => Inf (xorb negative negative')
  | _, _ => NaN
  end.

Definition isDigit (c : N) : bool := ((48 <=? c) && (c <=? 57))%N.

Fixpoint takeDigits (s : jsstring) : jsstring * jsstring :=
  match s with
  | c :: r => if isDigit c
              then let (d, r') := takeDigits r in (c :: d, r')
              else ([], s)
  | [] => ([], [])
  end.

Definition digitsValue (d : jsstring) : Z :=
  fold_left (fun acc c => (10 * acc + Z.of_N (c - 48))%Z) d 0%Z.

(** [parseFloat] on an unsigned decimal without exponent, which is all the
    salary patterns can hand to it: the longest prefix of the shape
    digits, [.], digits is read, [NaN] is returned when it holds no digit,
    and the number read is rounded to the nearest binary64 value. *)
Definition parseFloat (s : jsstring) : number :=
  let (ip, r) := takeDigits s in
  let fp := match r with
            | 46%N :: r' => fst (takeDigits r')
            | _ => []
            end in
  match ip, fp with
  | [], [] => NaN
  | _, _ =>
      round64 (inject_Z (digitsValue ip)
               + inject_Z (digitsValue fp)
                 / inject_Z (10 ^ Z.of_nat (List.length fp)))%Q
  end.

End Num.

Import Num.

(** ** Values that may be absent, and exceptions *)

Module Js.

(** [a || b] on strings that may be [undefined]: [a] when it is a non-empty
    string, [b] otherwise. *)
Definition orStr (a b : option jsstring) : option jsstring :=
  match a with
  | Some (_ :: _) => a
  | _ => b
  end.

(** [a || d] with a string literal as the last operand. *)
Definition orLit (a : option jsstring) (d : jsstring) : jsstring :=
  match a with
  | Some ((_ :: _) as s) => s
  | _ => d
  end.

(** [a || b] on numbers that may be [undefined]. *)
Definition orNum (a b : option number) : option number :=
  match a with
  | Some n => if truthy n then a else b
  | None => b
  end.

Definition truthyStr (a : option jsstring) : bool :=
  match a with
  | Some s => nonEmpty s
  | None => false
  end.

Definition truthyNum (a : option number) : bool :=
  match a with
  | Some n => truthy n
  | None => false
  end.

Definition truthyBool (a : option bool) : bool :=
  match a with
  | Some b => b
  | None => false
  end.

(** A value inside a template literal. *)
Definition render (a : option jsstring) : jsstring :=
  match a with
  | Some s => s
  | None => js "undefined"
  end.

(** The outcome of code that may throw. *)
Inductive result (A : Type) : Type :=
| Ok (a : A)
| Throw (e : jsstring).

Arguments Ok {A} a.
Arguments Throw {A} e.

Definition bind {A B : Type} (m : result A) (f : A -> result B) : result B :=
  match m with
  | Ok a => f a
  | Throw e => Throw e
  end.

End Js.

Import Js.

Notation "x <- m ;; f" := (bind m (fun x => f))
  (at level 61, m at next level, right associativity).

(** ** The host: what the source takes from the JavaScript runtime

    Date parsing, the locale-dependent renderings, the Unicode case tables
    and the properties every object inherits are library services.
    [dateParse s] is the time value of [new Date(s)], [None] for an invalid
    date; [localeDate] is [toLocaleDateString('en-US', ...)] of a valid date;
    [currencyFormat c] is the [format] of
    [new Intl.NumberFormat('en-US', {style: 'currency', currency: c,
    maximumFractionDigits: 0})]; [lowerCase] is [String.prototype.toLowerCase]
    on any string; [inherited key] is [String(Object.prototype[key])] when
    [key] names a property that an object literal inherits ([toString],
    [constructor], [__proto__], ...), all of which are truthy, and [None]
    otherwise. *)

Record Host : Type := mkHost {
  dateParse : jsstring -> option Z;
  localeDate : Z -> jsstring;
  currencyFormat : jsstring -> number -> jsstring;
  lowerCase : jsstring -> jsstring;
  inherited : jsstring -> option jsstring
}.

(** ** constants.ts *)

Module Constants.

Definition DICE_BASE_URL : jsstring := js "https://www.dice.com".
Definition DICE_API_URL : jsstring :=
  js "https://job-search-api.svc.dhigroupinc.com/v1/dice/jobs/search".

End Constants.

Import Constants.

(** ** types.ts *)

Module Estimate.
Record t : Type := mk {
  minValue : option number;
  maxValue : option number;
  currency : option jsstring;
  unitText : option jsstring
}.
End Estimate.

Module DiceSearchJob.
Record t : Type := mk {
  id : option jsstring;
  title : option jsstring;
  companyName : option jsstring;
  companyId : option jsstring;
  summary : option jsstring;
  (** [jobLocation?.displayName] *)
  jobLocationDisplayName : option jsstring;
  salary : option jsstring;
  salaryEstimate : option Estimate.t;
  employmentType : option jsstring;
  workFromHomeAvailability : option jsstring;
  postedDate : option jsstring;
  detailsPageUrl : option jsstring;
  easyApply : option bool;
  isRemote : option bool;
  guid : option jsstring
}.
End DiceSearchJob.

Module Basic.
Record t : Type := mk {
  id : jsstring;
  title : jsstring;
  company : jsstring;
  companyId : option jsstring;
  location : jsstring;
  salary : option jsstring;
  salaryMin : option number;
  salaryMax : option number;
  salaryCurrency : option jsstring;
  salaryPeriod : option jsstring;
  jobType : option jsstring;
  employmentType : option jsstring;
  workplaceType : option jsstring;
  postedDate : jsstring;
  postedDateTimestamp : option number;
  url : jsstring;
  easyApply : option bool;
  summary : option jsstring
}.
End Basic.

Module Full.
Record t : Type := mk {
  id : jsstring;
  title : jsstring;
  company : jsstring;
  companyId : option jsstring;
  location : jsstring;
  salary : option jsstring;
  salaryMin : option number;
  salaryMax : option number;
  salaryCurrency : option jsstring;
  salaryPeriod : option jsstring;
  jobType : option jsstring;
  employmentType : option jsstring;
  workplaceType : option jsstring;
  postedDate : jsstring;
  postedDateTimestamp : option number;
  url : jsstring;
  easyApply : option bool;
  summary : option jsstring;
  description : option jsstring;
  descriptionHtml : option jsstring;
  skills : option (list jsstring);
  experienceLevel : option jsstring;
  educationLevel : option jsstring;
  benefits : option (list jsstring);
  companyDescription : option jsstring;
  companyLogo : option jsstring;
  applicationUrl : option jsstring;
  scrapedAt : jsstring
}.
End Full.

Module SearchParams.
Record t : Type := mk {
  query : jsstring;
  location : jsstring;
  radius : Z;
  employmentTypes : list jsstring;
  postedDate : jsstring;
  workplaceTypes : list jsstring;
  easyApply : bool;
  page : Z;
  pageSize : Z
}.
End SearchParams.

(** ** utils.ts *)

Module Utils.

(** *** formatSalary *)

(** The constructor of [Intl.NumberFormat] throws a [RangeError] unless the
    currency code is three ASCII letters. *)
Definition isLetter (c : N) : bool :=
  ((65 <=? c) && (c <=? 90) || (97 <=? c) && (c <=? 122))%N.

Definition wellFormedCurrency (c : jsstring) : bool :=
  (List.length c =? 3) && forallb isLetter c.

(** [estimate.currency || 'USD'] *)
Definition currencyOf (e : Estimate.t) : jsstring :=
  orLit (Estimate.currency e) (js "USD").

(** [estimate.unitText ? `/${estimate.unitText.toLowerCase()}` : ''] *)
Definition periodOf (host : Host) (e : Estimate.t) : jsstring :=
  match Estimate.unitText e with
  | Some ((_ :: _) as u) => js "/" ++ lowerCase host u
  | _ => []
  end.

Definition formatSalary (host : Host) (estimate : option Estimate.t)
    : result (option jsstring) :=
  match estimate with
  | None => Ok None
  | Some e =>
      if negb (truthyNum (Estimate.minValue e)) && negb (truthyNum (Estimate.maxValue e))
      then Ok None
      else
        let currency := currencyOf e in
        if negb (wellFormedCurrency currency) then Throw (js "RangeError")
        else
          let formatted (v : option number) : option jsstring :=
            match v with
            | Some n => if truthy n then Some (currencyFormat host currency n) else None
            | None => None
            end in
          let min := formatted (Estimate.minValue e) in
          let max := formatted (Estimate.maxValue e) in
          let period := periodOf host e in
          if truthyStr min && truthyStr max
          then Ok (Some (render min ++ js " - " ++ render max ++ period))
          else
            let one := match orStr min max with
                       | Some s => s
                       | None => js "null"
                       end in
            Ok (Some (one ++ period))
  end.

(** A bound that is [0], or missing. *)
Definition isZero (n : number) : Prop :=
  exists q, n = Fin q /\ (q == 0)%Q.

Definition zeroOrAbsent (v : option number) : Prop :=
  match v with
  | Some n => isZero n
  | None => True
  end.

Definition positive (n : number) : Prop :=
  exists q, n = Fin q /\ (0 < q)%Q.

(** *** formatPostedDate *)

Definition MS_PER_DAY : Z := 1000 * 60 * 60 * 24.

(** [date.toLocaleDateString(...)], which is ["Invalid Date"] for an invalid
    date. *)
Definition toLocaleDateString (host : Host) (date : option Z) : jsstring :=
  match date with
  | Some t => localeDate host t
  | None => js "Invalid Date"
  end.

(** Nothing inside the [try] block throws on a string argument, so its
    [catch] branch, [return dateString], is never taken. *)
Definition formatPostedDate (host : Host) (now : Z) (dateString : option jsstring)
    : jsstring :=
  match dateString with
  | Some ((_ :: _) as s) =>
      let date := dateParse host s in
      match date with
      | None => toLocaleDateString host date
      | Some t =>
          let diffMs := (now - t)%Z in
          let diffDays := (diffMs / MS_PER_DAY)%Z in
          if (diffDays =? 0)%Z then js "Today"
          else if (diffDays =? 1)%Z then js "Yesterday"
          else if (diffDays <? 7)%Z then Str.ofZ diffDays ++ js " days ago"
          else if (diffDays <? 30)%Z then
            let weeks := (diffDays / 7)%Z in
            Str.ofZ weeks ++ js " week" ++ (if (1 <? weeks)%Z then js "s" else []) ++ js " ago"
          else toLocaleDateString host date
      end
  | _ => js "Unknown"
  end.

(** *** parseSalaryFromText *)

Module Salary.
Record t : Type := mk {
  min : number;
  max : number;
  currency : jsstring;
  period : jsstring
}.
End Salary.

(** [[\d,]+(?:\.?\d{0,2})?] *)
Definition amountRe : regex :=
  Cat (Plus (Class (fun c => isDigit c || (c =? 44))%N))
      (Opt (Cat (Opt (chr 46)) (upTo2 digit))).

(** [[kK]] *)
Definition kRe : regex := Class (fun c => (c =? 107) || (c =? 75))%N.

(** [[-–to]]: hyphen, en dash (U+2013), [t], [o] *)
Definition dashRe : regex :=
  Class (fun c => (c =? 45) || (c =? 8211) || (c =? 116) || (c =? 111))%N.

(** [/\$?([\d,]+(?:\.?\d{0,2})?)\s*[kK]?\s*[-–to]+\s*\$?([\d,]+(?:\.?\d{0,2})?)\s*[kK]?/] *)
Definition rangeRe : regex :=
  seq [ Opt (chr 36); Group 1 amountRe; Star space; Opt kRe; Star space;
        Plus dashRe; Star space; Opt (chr 36); Group 2 amountRe; Star space;
        Opt kRe ].

(** [/\$?([\d,]+(?:\.?\d{0,2})?)\s*[kK]?/] *)
Definition singleRe : regex :=
  seq [ Opt (chr 36); Group 1 amountRe; Star space; Opt kRe ].

(** [/\/(hour|hr|year|yr|month|mo|week|wk|day)/i] *)
Definition periodRe : regex :=
  Cat (chr 47)
      (Group 1 (alts (List.map litCI
         [ js "hour"; js "hr"; js "year"; js "yr"; js "month"; js "mo";
           js "week"; js "wk"; js "day" ]))).

(** [parseValue] is local to [parseSalaryFromText] and is only given captures
    of [amountRe], which hold digits, commas and dots. *)
Definition parseValue (periodMatch : option found) (val : jsstring) : number :=
  let cleaned := replaceAll (js ",") [] val in
  let num := parseFloat cleaned in
  if includes (js "k") (toLowerCase val)
     || (lt num (Num.ofZ 1000) && match periodMatch with None => true | Some _ => false end)
  then mul num (Num.ofZ 1000)
  else num.

Definition parseSalaryFromText (text : jsstring) : option Salary.t :=
  if negb (nonEmpty text) then None
  else
    let rangeMatch := search rangeRe text in
    let singleMatch := search singleRe text in
    let periodMatch := search periodRe text in
    let period := match periodMatch with
                  | Some m => toLowerCase (group 1 (groups m))
                  | None => js "year"
                  end in
    match rangeMatch with
    | Some m =>
        Some (Salary.mk (parseValue periodMatch (group 1 (groups m)))
                        (parseValue periodMatch (group 2 (groups m)))
                        (js "USD") period)
    | None =>
        match singleMatch with
        | Some m =>
            let value := parseValue periodMatch (group 1 (groups m)) in
            Some (Salary.mk value value (js "USD") period)
        | None => None
        end
    end.

(** *** extractSkills *)

Definition wordsRe (ws : list jsstring) : regex :=
  seq [ WordB; alts (List.map litCI ws); WordB ].

Definition skillPatterns : list regex :=
  [ wordsRe [ js "JavaScript"; js "TypeScript"; js "Python"; js "Java"; js "C++";
              js "C#"; js "Ruby"; js "Go"; js "Rust"; js "Swift"; js "Kotlin";
              js "PHP"; js "Scala"; js "R" ];
    wordsRe [ js "React"; js "Angular"; js "Vue"; js "Node.js"; js "Express";
              js "Django"; js "Flask"; js "Spring"; js "Rails"; js "Laravel" ];
    wordsRe [ js "AWS"; js "Azure"; js "GCP"; js "Docker"; js "Kubernetes";
              js "Jenkins"; js "Git"; js "CI/CD"; js "DevOps" ];
    wordsRe [ js "SQL"; js "MySQL"; js "PostgreSQL"; js "MongoDB"; js "Redis";
              js "Elasticsearch"; js "GraphQL"; js "REST"; js "API" ];
    wordsRe [ js "Machine Learning"; js "ML"; js "AI"; js "Data Science";
              js "Deep Learning"; js "NLP"; js "TensorFlow"; js "PyTorch" ];
    wordsRe [ js "Agile"; js "Scrum"; js "Jira"; js "Confluence"; js "Slack";
              js "Teams" ] ].

(** [arr.includes(x)] on an array of strings. *)
Definition member (x : jsstring) (l : list jsstring) : bool :=
  existsb (Str.eqb x) l.

(** Adding to a [Set], kept in insertion order. *)
Definition setAdd (acc : list jsstring) (x : jsstring) : list jsstring :=
  if member x acc then acc else acc ++ [x].

Definition extractSkills (text : jsstring) : list jsstring :=
  fold_left (fun skills pattern => fold_left setAdd (matchAll pattern text) skills)
            skillPatterns [].

(** *** extractJobIdFromUrl *)

(** [/\/job-detail\/([a-f0-9-]+)/i] *)
Definition jobIdRe : regex :=
  Cat (litCI (js "/job-detail/"))
      (Group 1 (Plus (Class (fun c =>
         let l := lowerUnit c in
         (97 <=? l) && (l <=? 102) || isDigit c || (c =? 45))%N))).

Definition extractJobIdFromUrl (url : jsstring) : option jsstring :=
  match search jobIdRe url with
  | Some m => Some (group 1 (groups m))
  | None => None
  end.

(** *** parseJobFromApi *)

Definition parseJobFromApi (host : Host) (now : Z) (job : DiceSearchJob.t)
    : result Basic.t :=
  let jobUrl :=
    match DiceSearchJob.detailsPageUrl job with
    | Some u => if startsWith (js "http") u then u else DICE_BASE_URL ++ u
    | None => DICE_BASE_URL ++ render None
    end in
  salary <- match orStr (DiceSearchJob.salary job) None with
            | Some s => Ok (Some s)
            | None => formatSalary host (DiceSearchJob.salaryEstimate job)
            end ;;
  let estimate (A : Type) (f : Estimate.t -> option A) : option A :=
    match DiceSearchJob.salaryEstimate job with
    | Some e => f e
    | None => None
    end in
  Ok (Basic.mk
        (orLit (orStr (DiceSearchJob.id job) (DiceSearchJob.guid job)) [])
        (cleanText (orLit (DiceSearchJob.title job) []))
        (cleanText (orLit (DiceSearchJob.companyName job) []))
        (DiceSearchJob.companyId job)
        (cleanText (orLit (DiceSearchJob.jobLocationDisplayName job) []))
        salary
        (estimate _ Estimate.minValue)
        (estimate _ Estimate.maxValue)
        (estimate _ Estimate.currency)
        (estimate _ Estimate.unitText)
        None
        (DiceSearchJob.employmentType job)
        (orStr (DiceSearchJob.workFromHomeAvailability job)
               (if truthyBool (DiceSearchJob.isRemote job) then Some (js "Remote") else None))
        (formatPostedDate host now (DiceSearchJob.postedDate job))
        (match DiceSearchJob.postedDate job with
         | Some ((_ :: _) as s) =>
             Some (match dateParse host s with
                   | Some t => Num.ofZ t
                   | None => NaN
                   end)
         | _ => None
         end)
        jobUrl
        (DiceSearchJob.easyApply job)
        (Some (cleanText (orLit (DiceSearchJob.summary job) [])))).

End Utils.

Import Utils.

(** ** routes.ts *)

Module Routes.

Inductive RequestLabel : Type := SEARCH | SEARCH_API | JOB_DETAIL.

Module UserData.
Record t : Type := mk {
  label : RequestLabel;
  page : option Z;
  searchParams : option SearchParams.t;
  jobBasic : option Basic.t
}.
End UserData.

Module Request.
Record t : Type := mk {
  url : jsstring;
  label : RequestLabel;
  userData : UserData.t;
  uniqueKey : option jsstring
}.
End Request.

(** What [Dataset.pushData] receives: [{...job, scrapedAt}], the same with
    the [error] marker, or a full listing. *)
Inductive Item : Type :=
| BasicItem (job : Basic.t) (scrapedAt : jsstring)
| FailedItem (job : Basic.t) (scrapedAt : jsstring) (error : jsstring)
| FullItem (job : Full.t).

Definition itemId (i : Item) : jsstring :=
  match i with
  | BasicItem b _ | FailedItem b _ _ => Basic.id b
  | FullItem f => Full.id f
  end.

Definition itemUrl (i : Item) : jsstring :=
  match i with
  | BasicItem b _ | FailedItem b _ _ => Basic.url b
  | FullItem f => Full.url f
  end.

(** The module-level variables of routes.ts. *)
Record Router : Type := mkRouter {
  jobsScraped : Z;
  maxJobs : Z;
  scrapeJobDetails : bool
}.

(** The router's variables together with the two stores the handlers write
    to: the crawler's request queue (every request it has accepted, in
    order) and the dataset. *)
Record World : Type := mkWorld {
  router : Router;
  queue : list Request.t;
  dataset : list Item
}.

Definition initial : Router := mkRouter 0 100 true.

(** [initRouter]: [input.maxJobs || 100], [input.scrapeJobDetails ?? true]. *)
Definition initRouter (inputMaxJobs : Z) (inputScrapeJobDetails : option bool) : Router :=
  mkRouter 0
    (if (inputMaxJobs =? 0)%Z then 100%Z else inputMaxJobs)
    (match inputScrapeJobDetails with Some b => b | None => true end).

Definition shouldContinue (r : Router) : bool :=
  (maxJobs r =? 0)%Z || (jobsScraped r <? maxJobs r)%Z.

Definition countJob (r : Router) : Router :=
  mkRouter (jobsScraped r + 1) (maxJobs r) (scrapeJobDetails r).

(** What a page loop does to the counter when it starts from [r] and ends
    in [r'] with [added] more records: the counter has moved by [added], and
    under a cap it has not passed the cap. *)
Definition counted (r r' : Router) (added : nat) : Prop :=
  maxJobs r' = maxJobs r
  /\ scrapeJobDetails r' = scrapeJobDetails r
  /\ jobsScraped r' = (jobsScraped r + Z.of_nat added)%Z
  /\ ((0 < maxJobs r)%Z -> (jobsScraped r <= maxJobs r)%Z ->
      (jobsScraped r' <= maxJobs r)%Z).

(** *** The crawler and the dataset

    [crawler.addRequests] takes a request unless one with the same unique key
    was taken before.  A request built without [uniqueKey] gets its key from
    its URL: the crawler's library normalises the URL for that (it drops the
    fragment and a trailing slash, sorts the query parameters, ...), which
    is [urlKey] here. *)
Definition keyOf (urlKey : jsstring -> jsstring) (r : Request.t) : jsstring :=
  match Request.uniqueKey r with
  | Some k => k
  | None => urlKey (Request.url r)
  end.

Definition known (urlKey : jsstring -> jsstring) (q : list Request.t) (r : Request.t)
    : bool :=
  existsb (fun r' => Str.eqb (keyOf urlKey r') (keyOf urlKey r)) q.

Definition addRequest (urlKey : jsstring -> jsstring) (q : list Request.t)
    (r : Request.t) : list Request.t :=
  if known urlKey q r then q else q ++ [r].

Definition addRequests (urlKey : jsstring -> jsstring) (rs : list Request.t) (w : World)
    : World :=
  mkWorld (router w) (fold_left (addRequest urlKey) rs (queue w)) (dataset w).

Definition isDetail (r : Request.t) : bool :=
  match Request.label r with
  | JOB_DETAIL => true
  | _ => false
  end.

(** The number of JOB_DETAIL requests the queue has taken. *)
Definition detailCount (q : list Request.t) : nat :=
  List.length (List.filter isDetail q).

Definition pushData (i : Item) (w : World) : World :=
  mkWorld (router w) (queue w) (dataset w ++ [i]).

Definition setRouter (r : Router) (w : World) : World :=
  mkWorld r (queue w) (dataset w).

(** [new Date().toISOString()], with the clock read as [now]. *)
Definition isoNow (iso : Z -> jsstring) (now : Z) : jsstring := iso now.

Definition detailRequest (job : Basic.t) : Request.t :=
  Request.mk (Basic.url job) JOB_DETAIL
    (UserData.mk JOB_DETAIL None None (Some job)) None.

(** Both search handlers end the same way: detail requests for the jobs of
    the page, or the jobs themselves into the dataset. *)
Definition emitJobs (urlKey : jsstring -> jsstring) (scrapedAt : jsstring)
    (jobsToProcess : list Basic.t) (w : World) : World :=
  if scrapeJobDetails (router w) && (0 <? List.length jobsToProcess)
  then addRequests urlKey (List.map detailRequest jobsToProcess) w
  else fold_left (fun w' job => pushData (BasicItem job scrapedAt) w') jobsToProcess w.

(** *** SEARCH_API *)

Module Meta.
Record t : Type := mk {
  totalJobs : option Z;
  totalPages : option Z
}.
End Meta.

Module DiceSearchResponse.
Record t : Type := mk {
  data : option (list DiceSearchJob.t);
  meta : option Meta.t
}.
End DiceSearchResponse.

(** The [for] loop over the jobs of the page.  A throw of [parseJobFromApi]
    leaves the loop with the counter as it stands. *)
Fixpoint processJobs (host : Host) (now : Z) (jobs : list DiceSearchJob.t)
    (r : Router) (jobsToProcess : list Basic.t) : Router * result (list Basic.t) :=
  match jobs with
  | [] => (r, Ok jobsToProcess)
  | job :: jobs' =>
      if negb (shouldContinue r) then (r, Ok jobsToProcess)
      else match parseJobFromApi host now job with
           | Throw e => (r, Throw e)
           | Ok parsedJob =>
               processJobs host now jobs' (countJob r) (jobsToProcess ++ [parsedJob])
           end
  end.

Definition nextPageRequest (searchParams : SearchParams.t) : Request.t :=
  let nextPage := (SearchParams.page searchParams + 1)%Z in
  let nextPageParams :=
    SearchParams.mk (SearchParams.query searchParams)
      (SearchParams.location searchParams) (SearchParams.radius searchParams)
      (SearchParams.employmentTypes searchParams)
      (SearchParams.postedDate searchParams)
      (SearchParams.workplaceTypes searchParams)
      (SearchParams.easyApply searchParams) nextPage
      (SearchParams.pageSize searchParams) in
  Request.mk (DICE_API_URL ++ js "?page=" ++ Str.ofZ nextPage) SEARCH_API
    (UserData.mk SEARCH_API (Some nextPage) (Some nextPageParams) None)
    (Some (js "search-page-" ++ Str.ofZ nextPage)).

(** [data.meta?.totalPages]: the total the response reports, if any. *)
Definition reportedTotalPages (d : DiceSearchResponse.t) : option Z :=
  match DiceSearchResponse.meta d with
  | Some m => Meta.totalPages m
  | None => None
  end.

(** [data.meta?.totalPages || 1] *)
Definition totalPagesOf (d : DiceSearchResponse.t) : Z :=
  match reportedTotalPages d with
  | Some n => if (n =? 0)%Z then 1%Z else n
  | None => 1%Z
  end.

(** The handler, given the outcome of [sendRequest]: a throw, or the body,
    which may be missing.  The [catch] block logs and throws again. *)
Definition searchApiHandler (urlKey : jsstring -> jsstring) (host : Host)
    (iso : Z -> jsstring) (now : Z)
    (request : Request.t) (response : result (option DiceSearchResponse.t))
    (w : World) : World * result unit :=
  match UserData.searchParams (Request.userData request) with
  | None => (w, Throw (js "TypeError"))
  | Some searchParams =>
      if negb (shouldContinue (router w)) then (w, Ok tt)
      else
        match response with
        | Throw e => (w, Throw e)
        | Ok None => (w, Ok tt)
        | Ok (Some data) =>
            match DiceSearchResponse.data data with
            | None => (w, Ok tt)
            | Some jobs =>
                let totalPages := totalPagesOf data in
                match processJobs host now jobs (router w) [] with
                | (r, Throw e) => (setRouter r w, Throw e)
                | (r, Ok jobsToProcess) =>
                    let w1 := emitJobs urlKey (isoNow iso now) jobsToProcess
                                (setRouter r w) in
                    if shouldContinue (router w1)
                       && (SearchParams.page searchParams <? totalPages)%Z
                    then (addRequests urlKey [nextPageRequest searchParams] w1, Ok tt)
                    else (w1, Ok tt)
                end
            end
        end
  end.

(** *** SEARCH (HTML) *)

(** What the handler reads from one job card. *)
Module Card.
Record t : Type := mk {
  titleText : jsstring;
  companyText : jsstring;
  locationText : jsstring;
  salaryText : jsstring;
  postedDateText : jsstring;
  href : option jsstring;
  easyApplyBadges : nat
}.
End Card.

(** What the handler reads from the search page: the job cards and the
    number of enabled "next" buttons. *)
Module SearchPage.
Record t : Type := mk {
  jobCards : list Card.t;
  nextButtons : nat
}.
End SearchPage.

Definition cardJob (now : Z) (index : Z) (card : Card.t) : Basic.t :=
  let title := cleanText (Card.titleText card) in
  let company := cleanText (Card.companyText card) in
  let location := cleanText (Card.locationText card) in
  let salary := cleanText (Card.salaryText card) in
  let postedDate := cleanText (Card.postedDateText card) in
  let jobUrl := orLit (Card.href card) [] in
  let fullUrl := if startsWith (js "http") jobUrl then jobUrl
                 else js "https://www.dice.com" ++ jobUrl in
  let jobId := orLit (extractJobIdFromUrl fullUrl)
                     (js "job-" ++ Str.ofZ now ++ js "-" ++ Str.ofZ index) in
  Basic.mk jobId title company None location
    (if nonEmpty salary then Some salary else None)
    None None None None None None None postedDate None fullUrl
    (Some (0 <? Card.easyApplyBadges card)) None.

(** [jobCards.each(...)]: returning [false] ends the iteration. *)
Fixpoint processCards (now : Z) (index : Z) (cards : list Card.t)
    (r : Router) (jobsToProcess : list Basic.t) : Router * list Basic.t :=
  match cards with
  | [] => (r, jobsToProcess)
  | card :: cards' =>
      if negb (shouldContinue r) then (r, jobsToProcess)
      else processCards now (index + 1) cards' (countJob r)
             (jobsToProcess ++ [cardJob now index card])
  end.

(** [urlWithPage u n] is [u] with its [page] query parameter set to [n], as
    [URL.searchParams.set] leaves it. *)
Definition searchHandler (urlKey : jsstring -> jsstring)
    (urlWithPage : jsstring -> Z -> jsstring) (iso : Z -> jsstring) (now : Z)
    (request : Request.t) (doc : SearchPage.t) (w : World) : World * result unit :=
  let page := match UserData.page (Request.userData request) with
              | Some p => if (p =? 0)%Z then 1%Z else p
              | None => 1%Z
              end in
  if negb (shouldContinue (router w)) then (w, Ok tt)
  else
    match SearchPage.jobCards doc with
    | [] => (w, Ok tt)
    | jobCards =>
        let (r, jobsToProcess) := processCards now 0 jobCards (router w) [] in
        let w1 := emitJobs urlKey (isoNow iso now) jobsToProcess (setRouter r w) in
        if shouldContinue (router w1) && (0 <? SearchPage.nextButtons doc)
        then
          let nextPage := (page + 1)%Z in
          (addRequests urlKey
             [ Request.mk (urlWithPage (Request.url request) nextPage) SEARCH
                 (UserData.mk SEARCH (Some nextPage) None None) None ] w1,
           Ok tt)
        else (w1, Ok tt)
    end.

(** *** JOB_DETAIL *)

(** [extractExperienceLevel]: the first capture of the first pattern that
    matches. *)
Definition experiencePatterns : list regex :=
  [ Group 1 (seq [ Plus digit; Opt (chr 43); Star space;
                   Alt (Cat (litCI (js "year")) (Opt (unitCI 115)))
                       (Cat (litCI (js "yr")) (Opt (unitCI 115)));
                   Opt (Cat (Plus space) (litCI (js "of")));
                   Plus space; litCI (js "experience") ]);
    Group 1 (alts [ seq [ litCI (js "entry");
                          Opt (Class (fun c => isSpace c || (c =? 45))%N);
                          litCI (js "level") ];
                    litCI (js "junior");
                    seq [ litCI (js "mid");
                          Opt (Class (fun c => isSpace c || (c =? 45))%N);
                          litCI (js "level") ];
                    litCI (js "senior"); litCI (js "lead");
                    litCI (js "principal"); litCI (js "staff") ]);
    Group 1 (alts (List.map litCI
               [ js "associate"; js "intern"; js "executive"; js "director";
                 js "manager" ])) ].

Fixpoint firstMatch (pick : found -> jsstring) (patterns : list regex)
    (text : jsstring) : option jsstring :=
  match patterns with
  | [] => None
  | pattern :: patterns' =>
      match search pattern text with
      | Some m => Some (pick m)
      | None => firstMatch pick patterns' text
      end
  end.

Definition extractExperienceLevel (text : jsstring) : option jsstring :=
  firstMatch (fun m => group 1 (groups m)) experiencePatterns text.

(** [extractEducationLevel]: the whole match of the first pattern that
    matches. *)
Definition educationPatterns : list regex :=
  let apos_s := Cat (Opt (chr 39)) (Opt (unitCI 115)) in
  [ seq [ Group 1 (alts [ Cat (litCI (js "bachelor")) apos_s;
                          Cat (litCI (js "master")) apos_s;
                          seq [ litCI (js "ph"); Opt (chr 46); unitCI 100;
                                Opt (chr 46) ];
                          litCI (js "doctorate");
                          Cat (litCI (js "associate")) apos_s ]);
          Star space; Opt (Group 2 (litCI (js "degree"))) ];
    Group 1 (alts (List.map litCI [ js "high school"; js "ged"; js "diploma" ]));
    seq [ Group 1 (alts (List.map litCI
                     [ js "bs"; js "ba"; js "ms"; js "ma"; js "mba"; js "phd" ]));
          Plus space; Alt (litCI (js "in")) (litCI (js "degree")) ] ].

Definition extractEducationLevel (text : jsstring) : option jsstring :=
  firstMatch whole educationPatterns text.

(** What [extractJobDetails] reads from the detail page, selector by
    selector: the [text()] of a selection (empty when nothing is selected),
    the [html()] or an attribute of its first element (absent when there is
    none), the texts of its elements, or their number. *)
Module DetailPage.
Record t : Type := mk {
  jobTitle : jsstring;
  firstH1 : jsstring;
  companyName : jsstring;
  location : jsstring;
  locationItems : jsstring;
  salary : jsstring;
  jobType : jsstring;
  workplaceType : jsstring;
  postedDate : jsstring;
  descriptionHtml : option jsstring;
  description : jsstring;
  skills : list jsstring;
  experienceLevel : jsstring;
  educationLevel : jsstring;
  benefits : list jsstring;
  companyDescription : jsstring;
  companyLogoSrc : option jsstring;
  easyApplyBadges : nat;
  applyHref : option jsstring
}.
End DetailPage.

(** A field of the basic record that may be missing: [jobBasic?.f]. *)
Definition ofBasic {A : Type} (jobBasic : option Basic.t) (f : Basic.t -> option A)
    : option A :=
  match jobBasic with
  | Some b => f b
  | None => None
  end.

(** [x || undefined] *)
Definition orUndefined (a : option jsstring) : option jsstring := orStr a None.

Definition pushNew (skills : list jsstring) (skill : jsstring) : list jsstring :=
  if member skill skills then skills else skills ++ [skill].

Definition nonEmptyList {A : Type} (l : list A) : option (list A) :=
  match l with
  | [] => None
  | _ :: _ => Some l
  end.

(** The body of [extractJobDetails], for a page whose queries all return. *)
Definition buildJobDetail (iso : Z -> jsstring) (now : Z) (page : DetailPage.t)
    (jobBasic : option Basic.t) (url : jsstring) : Full.t :=
  let basicStr (f : Basic.t -> jsstring) := ofBasic jobBasic (fun b => Some (f b)) in
  let title :=
    orLit (orStr (orStr (Some (cleanText (DetailPage.jobTitle page)))
                        (Some (cleanText (DetailPage.firstH1 page))))
                 (basicStr Basic.title))
          (js "Unknown Title") in
  let company :=
    orLit (orStr (Some (cleanText (DetailPage.companyName page)))
                 (basicStr Basic.company))
          (js "Unknown Company") in
  let location :=
    orLit (orStr (orStr (Some (cleanText (DetailPage.location page)))
                        (Some (cleanText
                           (replaceFirst (js "Location") [] (DetailPage.locationItems page)))))
                 (basicStr Basic.location))
          (js "Unknown Location") in
  let salary :=
    orStr (Some (cleanText (DetailPage.salary page))) (ofBasic jobBasic Basic.salary) in
  let salaryData := parseSalaryFromText (orLit salary []) in
  let jobType :=
    orStr (Some (cleanText (DetailPage.jobType page))) (ofBasic jobBasic Basic.jobType) in
  let workplaceType :=
    orStr (Some (cleanText (DetailPage.workplaceType page)))
          (ofBasic jobBasic Basic.workplaceType) in
  let postedDate :=
    orLit (orStr (Some (cleanText
                    (trim (replaceFirst (js "Posted") [] (DetailPage.postedDate page)))))
                 (basicStr Basic.postedDate))
          (js "Unknown") in
  let descriptionHtml := orLit (DetailPage.descriptionHtml page) [] in
  let description := cleanText (DetailPage.description page) in
  let skills :=
    fold_left (fun skills el =>
                 let skill := cleanText el in
                 if nonEmpty skill then pushNew skills skill else skills)
              (DetailPage.skills page) [] in
  let skills := fold_left pushNew (extractSkills description) skills in
  let experienceLevel :=
    orStr (Some (cleanText (DetailPage.experienceLevel page)))
          (extractExperienceLevel description) in
  let educationLevel :=
    orStr (Some (cleanText (DetailPage.educationLevel page)))
          (extractEducationLevel description) in
  let benefits :=
    List.filter nonEmpty (List.map cleanText (DetailPage.benefits page)) in
  let companyDescription := cleanText (DetailPage.companyDescription page) in
  let companyLogo := orUndefined (DetailPage.companyLogoSrc page) in
  let easyApply :=
    if 0 <? DetailPage.easyApplyBadges page then Some true
    else ofBasic jobBasic Basic.easyApply in
  let applicationUrl := orUndefined (DetailPage.applyHref page) in
  let parsed {A : Type} (f : Salary.t -> A) : option A :=
    match salaryData with
    | Some d => Some (f d)
    | None => None
    end in
  Full.mk
    (orLit (orStr (basicStr Basic.id) (extractJobIdFromUrl url))
           (js "job-" ++ Str.ofZ now))
    title company (ofBasic jobBasic Basic.companyId) location salary
    (orNum (parsed Salary.min) (ofBasic jobBasic Basic.salaryMin))
    (orNum (parsed Salary.max) (ofBasic jobBasic Basic.salaryMax))
    (Some (orLit (orStr (parsed Salary.currency) (ofBasic jobBasic Basic.salaryCurrency))
                 (js "USD")))
    (orStr (parsed Salary.period) (ofBasic jobBasic Basic.salaryPeriod))
    jobType (ofBasic jobBasic Basic.employmentType) workplaceType postedDate
    (ofBasic jobBasic Basic.postedDateTimestamp) url easyApply
    (ofBasic jobBasic Basic.summary)
    (Some description)
    (if (Z.of_nat (List.length descriptionHtml) <? 50000)%Z then Some descriptionHtml
     else None)
    (nonEmptyList skills)
    (orUndefined experienceLevel)
    (orUndefined educationLevel)
    (nonEmptyList benefits)
    (orUndefined (Some companyDescription))
    companyLogo applicationUrl (isoNow iso now).

(** [extractJobDetails].  The document is the crawler's: [Throw e] stands
    for a page on which one of the queries raises [e]. *)
Definition extractJobDetails (iso : Z -> jsstring) (now : Z)
    (doc : result DetailPage.t) (jobBasic : option Basic.t) (url : jsstring)
    : result Full.t :=
  page <- doc ;; Ok (buildJobDetail iso now page jobBasic url).

(** The handler: the [catch] block stores the basic record, when the request
    carries one, and swallows the exception. *)
Definition jobDetailHandler (iso : Z -> jsstring) (now : Z)
    (request : Request.t) (doc : result DetailPage.t) (w : World)
    : World * result unit :=
  let jobBasic := UserData.jobBasic (Request.userData request) in
  match extractJobDetails iso now doc jobBasic (Request.url request) with
  | Ok jobDetail => (pushData (FullItem jobDetail) w, Ok tt)
  | Throw _ =>
      match jobBasic with
      | Some b =>
          (pushData (FailedItem b (isoNow iso now) (js "Failed to extract full details")) w,
           Ok tt)
      | None => (w, Ok tt)
      end
  end.

(** The merge law of the specification, for one optional field: the value
    from the detail page wins when it is non-empty, otherwise the value of
    the basic record is kept, and the field is absent when that is. *)
Definition mergeLaw {A : Type} (filled : A -> bool) (detail basic full : option A)
    : Prop :=
  match detail with
  | Some v => if filled v then full = Some v else full = basic
  | None => full = basic
  end.

End Routes.

Import Routes.

(** ** Sample inputs

    A host for running the definitions on concrete inputs: it knows one
    date, its currency format writes non-negative whole dollar amounts the
    way the [en-US] locale does, it lowers the ASCII letters and [U+00C9],
    and it knows two of the properties an object inherits. *)

Module Sample.

(** Thousands separators, on the digits written from the last to the first;
    [k] counts the digits of the group being written. *)
Fixpoint commas (k : nat) (digits : jsstring) : jsstring :=
  match digits with
  | [] => []
  | d :: r =>
      match k, r with
      | 2, _ :: _ => d :: 44%N :: commas 0 r
      | _, _ => d :: commas (S k) r
      end
  end.

Definition dollars (n : number) : jsstring :=
  match n with
  | Fin q => js "$" ++ rev (commas 0 (rev (Str.ofZ (Qfloor q))))
  | NaN => js "$NaN"
  | Inf negative => if negative then js "-$" ++ [8734%N] else js "$" ++ [8734%N]
  end.

Definition lower (s : jsstring) : jsstring :=
  List.map (fun c => if (c =? 201)%N then 233%N else lowerUnit c) s.

Definition inheritedText (key : jsstring) : option jsstring :=
  if Str.eqb key (js "toString") then Some (js "function toString() { [native code] }")
  else if Str.eqb key (js "__proto__") then Some (js "[object Object]")
  else None.

Definition host : Host :=
  mkHost
    (fun s => if Str.eqb s (js "2024-01-15T00:00:00.000Z")
              then Some 1705276800000%Z else None)
    (fun _ => js "Jan 15, 2024")
    (fun _ => dollars)
    lower
    inheritedText.

Definition iso (t : Z) : jsstring := js "T" ++ Str.ofZ t.

(** A URL without its trailing slash, for the key of a request. *)
Definition urlKey (u : jsstring) : jsstring :=
  match rev u with
  | 47%N :: r => rev r
  | _ => u
  end.

Definition urlWithPage (u : jsstring) (n : Z) : jsstring :=
  u ++ js "?page=" ++ Str.ofZ n.

(** An API job as the declared type allows it, with an empty [id], no
    [guid], and a posted date that is not a date. *)
Definition job : DiceSearchJob.t :=
  DiceSearchJob.mk (Some []) (Some (js "Engineer")) (Some (js "Acme")) None None
    (Some (js "Remote")) None None None None (Some (js "last week"))
    (Some (js "/job-detail/abc-123")) None None None.

(** An estimate with a minimum of [0]. *)
Definition zeroMin : Estimate.t :=
  Estimate.mk (Some (Num.ofZ 0)) (Some (Num.ofZ 120000)) None (Some (js "YEAR")).

(** What the mapper makes of [job]. *)
Definition parsed : Basic.t :=
  Eval vm_compute in
    match parseJobFromApi host 0 job with
    | Ok b => b
    | Throw _ => Basic.mk [] [] [] None [] None None None None None None None None []
                   None [] None None
    end.

Definition params : SearchParams.t :=
  SearchParams.mk (js "rocq") [] 30 [] (js "ANY") [] false 1 100.

Definition apiRequest : Request.t :=
  Request.mk (DICE_API_URL ++ js "?page=1") SEARCH_API
    (UserData.mk SEARCH_API (Some 1%Z) (Some params) None)
    (Some (js "search-page-1")).

Definition response (jobs : list DiceSearchJob.t) (totalPages : Z)
    : result (option DiceSearchResponse.t) :=
  Ok (Some (DiceSearchResponse.mk (Some jobs)
              (Some (Meta.mk (Some (Z.of_nat (List.length jobs))) (Some totalPages))))).

Definition world (maxJobs : Z) (scrapeJobDetails : bool) : World :=
  mkWorld (mkRouter 0 maxJobs scrapeJobDetails) [] [].

(** A detail page on which no selector finds anything. *)
Definition emptyPage : DetailPage.t :=
  DetailPage.mk [] [] [] [] [] [] [] [] [] None [] [] [] [] [] [] None 0 None.

Definition basic : Basic.t :=
  Basic.mk (js "abc-123") (js "Engineer") (js "Acme") None (js "Remote")
    (Some (js "$80K - $120K")) (Some (Num.ofZ 85000)) (Some (Num.ofZ 120000))
    (Some (js "USD")) (Some (js "YEAR")) None None None (js "Today") None
    (js "https://www.dice.com/job-detail/abc-123") None None.

Definition detailRequestFor (b : option Basic.t) : Request.t :=
  Request.mk (js "https://www.dice.com/job-detail/abc-123") JOB_DETAIL
    (UserData.mk JOB_DETAIL None None b) None.

End Sample.

(** ** What a pattern matches

    The declarative reading of the patterns, against which the matcher is
    checked: [Matches r p c p' c'] says that [r] can take the matcher from
    position [p] with captures [c] to position [p'] with captures [c']. *)

Module RegexSem.

Inductive Matches : regex -> pos -> caps -> pos -> caps -> Prop :=
| M_Eps p c : Matches Eps p c p c
| M_Class f p c x t :
    rest p = x :: t -> f x = true ->
    Matches (Class f) p c (mkPos (Some x) t) c
| M_Cat a b p c p1 c1 p2 c2 :
    Matches a p c p1 c1 -> Matches b p1 c1 p2 c2 -> Matches (Cat a b) p c p2 c2
| M_AltL a b p c p' c' : Matches a p c p' c' -> Matches (Alt a b) p c p' c'
| M_AltR a b p c p' c' : Matches b p c p' c' -> Matches (Alt a b) p c p' c'
| M_OptSome a p c p' c' : Matches a p c p' c' -> Matches (Opt a) p c p' c'
| M_OptNone a p c : Matches (Opt a) p c p c
| M_StarNil a p c : Matches (Star a) p c p c
| M_StarCons a p c p1 c1 p2 c2 :
    Matches a p c p1 c1 -> Matches (Star a) p1 c1 p2 c2 ->
    Matches (Star a) p c p2 c2
| M_Group i a p c p' c' :
    Matches a p c p' c' ->
    Matches (Group i a) p c p' ((i, consumed (rest p) (rest p')) :: c')
| M_WordB p c :
    xorb (isWord (prev p)) (isWord (hd_error (rest p))) = true ->
    Matches WordB p c p c.

(** A pattern without capture groups. *)
Fixpoint groupFree (r : regex) : bool :=
  match r with
  | Eps | Class _ | WordB => true
  | Cat a b | Alt a b => groupFree a && groupFree b
  | Opt a | Star a => groupFree a
  | Group _ _ => false
  end.

(** [t] occurs in [s]. *)
Definition occursIn (t s : jsstring) : Prop :=
  exists before after, s = before ++ t ++ after.

(** A pattern that can always go on: whatever follows it succeeds, it
    succeeds. *)
Definition unfailing (r : regex) : Prop :=
  forall (A : Type) (k : pos -> caps -> option A),
    (forall p c, k p c <> None) -> forall p c, run r p c k <> None.

(** Every character class of [r] lies within [Q]. *)
Fixpoint classesWithin (Q : N -> bool) (r : regex) : Prop :=
  match r with
  | Eps | WordB => True
  | Class f => forall x, f x = true -> Q x = true
  | Cat a b | Alt a b => classesWithin Q a /\ classesWithin Q b
  | Opt a | Star a | Group _ a => classesWithin Q a
  end.

(** Every character class inside a capture group of [r] lies within [Q]. *)
Fixpoint groupsWithin (Q : N -> bool) (r : regex) : Prop :=
  match r with
  | Eps | WordB | Class _ => True
  | Cat a b | Alt a b => groupsWithin Q a /\ groupsWithin Q b
  | Opt a | Star a => groupsWithin Q a
  | Group _ a => classesWithin Q a /\ groupsWithin Q a
  end.

(** The position after a literal read under the [i] flag, if it is there. *)
Fixpoint takeCI (w : jsstring) (p : pos) : option pos :=
  match w with
  | [] => Some p
  | a :: w' =>
      match rest p with
      | x :: t =>
          if (lowerUnit x =? lowerUnit a)%N then takeCI w' (mkPos (Some x) t) else None
      | [] => None
      end
  end.

(** The position after the longest run of code units in [f]. *)
Fixpoint spanFrom (f : N -> bool) (before : option N) (s : jsstring) : pos :=
  match s with
  | x :: t => if f x then spanFrom f (Some x) t else mkPos before s
  | [] => mkPos before []
  end.

End RegexSem.

Import RegexSem.

(** ** Vocabulary of the statements on utils.ts *)

Module Shapes.

(** A code unit of a job token: a hexadecimal digit of either case, or a
    hyphen. *)
Definition tokenUnit (c : N) : bool :=
  (let l := lowerUnit c in (97 <=? l) && (l <=? 102) || isDigit c || (c =? 45))%N.

(** A code unit of a captured amount: a digit, a comma or a dot. *)
Definition amountUnit (c : N) : bool :=
  (isDigit c || (c =? 44) || (c =? 46))%N.

(** A code unit that can start an amount: a digit or a comma. *)
Definition amountStart (c : N) : bool := (isDigit c || (c =? 44))%N.

(** The period markers, as they are returned. *)
Definition periods : list jsstring :=
  [ js "hour"; js "hr"; js "year"; js "yr"; js "month"; js "mo"; js "week";
    js "wk"; js "day" ].

(** A cleaned text: no tag is left in it, its white space is made of single
    spaces, and it neither starts nor ends with one. *)
Definition normalText (t : jsstring) : Prop :=
  hasTag t = false /\ collapsed false t = true
  /\ startOk t = true /\ startOk (rev t) = true.

(** The source's test for a period marker. *)
Definition hasPeriodMarker (text : jsstring) : bool :=
  match search periodRe text with
  | Some _ => true
  | None => false
  end.

(** What [parseValue] makes of a captured amount, the [k] test left out:
    [parseFloat] and the product round as binary64 does. *)
Definition amountValue (withPeriod : bool) (amount : jsstring) : number :=
  let num := parseFloat (replaceAll (js ",") [] amount) in
  if lt num (Num.ofZ 1000) && negb withPeriod then mul num (Num.ofZ 1000) else num.

End Shapes.

Import Shapes.

(** ** URLSearchParams

    The serializer of [application/x-www-form-urlencoded]: the string is
    read as code points (a lone surrogate becoming U+FFFD), written in UTF-8,
    and every byte that is not an ASCII letter, a digit or one of [*-._] is
    escaped, the space as [+]. *)

Module Url.

Definition isHigh (c : N) : bool := ((55296 <=? c) && (c <=? 56319))%N.
Definition isLow (c : N) : bool := ((56320 <=? c) && (c <=? 57343))%N.

Fixpoint codePoints (s : jsstring) : list N :=
  match s with
  | [] => []
  | a :: r =>
      match r with
      | b :: r' =>
          if isHigh a && isLow b
          then (65536 + (a - 55296) * 1024 + (b - 56320))%N :: codePoints r'
          else (if isHigh a || isLow a then 65533%N else a) :: codePoints r
      | [] => [if isHigh a || isLow a then 65533%N else a]
      end
  end.

Definition utf8 (cp : N) : list N :=
  (if cp <? 128 then [cp]
   else if cp <? 2048 then [192 + cp / 64; 128 + cp mod 64]
   else if cp <? 65536 then [224 + cp / 4096; 128 + (cp / 64) mod 64; 128 + cp mod 64]
   else [240 + cp / 262144; 128 + (cp / 4096) mod 64; 128 + (cp / 64) mod 64;
         128 + cp mod 64])%N.

Definition hexDigit (n : N) : N := (if n <? 10 then 48 + n else 55 + n)%N.

(** The bytes written as they are. *)
Definition plain (b : N) : bool :=
  ((48 <=? b) && (b <=? 57) || (65 <=? b) && (b <=? 90) || (97 <=? b) && (b <=? 122)
   || (b =? 42) || (b =? 45) || (b =? 46) || (b =? 95))%N.

Definition formByte (b : N) : jsstring :=
  if plain b then [b]
  else if (b =? 32)%N then [43%N]
  else [37%N; hexDigit (b / 16); hexDigit (b mod 16)].

Definition encode (s : jsstring) : jsstring :=
  flat_map (fun cp => flat_map formByte (utf8 cp)) (codePoints s).

(** The list of name-value pairs behind a [URLSearchParams]. *)
Definition params := list (jsstring * jsstring).

(** [set]: the first pair of that name takes the value and the others of
    that name go; without one, the pair is added at the end. *)
Fixpoint dropName (name : jsstring) (l : params) : params :=
  match l with
  | [] => []
  | (n, v) :: l' => if Str.eqb n name then dropName name l' else (n, v) :: dropName name l'
  end.

Fixpoint set (name value : jsstring) (l : params) : params :=
  match l with
  | [] => [(name, value)]
  | (n, v) :: l' =>
      if Str.eqb n name then (n, value) :: dropName name l'
      else (n, v) :: set name value l'
  end.

(** [has] *)
Definition has (name : jsstring) (l : params) : bool :=
  existsb (fun nv => Str.eqb (fst nv) name) l.

Definition append (name value : jsstring) (l : params) : params :=
  l ++ [(name, value)].

(** [arr.join(sep)] *)
Fixpoint join (sep : jsstring) (l : list jsstring) : jsstring :=
  match l with
  | [] => []
  | [a] => a
  | a :: l' => a ++ sep ++ join sep l'
  end.

Definition pair (nv : jsstring * jsstring) : jsstring :=
  encode (fst nv) ++ js "=" ++ encode (snd nv).

(** [toString()] *)
Definition toString (l : params) : jsstring :=
  join (js "&") (List.map pair l).

(** What the encoder can write. *)
Definition safe (c : N) : bool :=
  (plain c || (c =? 43) || (c =? 37))%N.

End Url.

(** ** utils.ts: the URL builders *)

Module Builders.

(** A property read from one of the constant tables, which are object
    literals: the table's own value, or what every object inherits under
    that key (a function, or the prototype itself under [__proto__]: truthy
    values, kept here as the text [String] makes of them), or nothing. *)
Inductive property (A : Type) : Type :=
| Own (v : A)
| Inherited (text : jsstring)
| Missing.

Arguments Own {A} v.
Arguments Inherited {A} text.
Arguments Missing {A}.

Definition lookup {A : Type} (host : Host) (own : jsstring -> option A) (key : jsstring)
    : property A :=
  match own key with
  | Some v => Own v
  | None =>
      match inherited host key with
      | Some text => Inherited text
      | None => Missing
      end
  end.

Definition POSTED_DATE_MAP (key : jsstring) : option Z :=
  if Str.eqb key (js "ONE") then Some 1%Z
  else if Str.eqb key (js "THREE") then Some 3%Z
  else if Str.eqb key (js "SEVEN") then Some 7%Z
  else if Str.eqb key (js "THIRTY") then Some 30%Z
  else if Str.eqb key (js "ANY") then Some 0%Z
  else None.

Definition WORKPLACE_TYPE_MAP (key : jsstring) : option jsstring :=
  if Str.eqb key (js "Remote") then Some (js "REMOTE")
  else if Str.eqb key (js "On-Site") then Some (js "ON_SITE")
  else if Str.eqb key (js "Hybrid") then Some (js "HYBRID")
  else None.

(** [POSTED_DATE_MAP[key] || 0], as [days > 0] and [days.toString()] read
    it: an inherited property is a function or an object, which is [NaN] as
    a number and so not above 0; it counts as 0 here. *)
Definition postedDays (host : Host) (key : jsstring) : Z :=
  match lookup host POSTED_DATE_MAP key with
  | Own days => days
  | Inherited _ => 0
  | Missing => 0
  end.

(** [WORKPLACE_TYPE_MAP[key]], when it is truthy, as [join] writes it. *)
Definition workplaceCode (host : Host) (key : jsstring) : option jsstring :=
  match lookup host WORKPLACE_TYPE_MAP key with
  | Own code => Some code
  | Inherited text => Some text
  | Missing => None
  end.

(** [.map(t => WORKPLACE_TYPE_MAP[t]).filter(Boolean)] *)
Fixpoint mappedTypes (host : Host) (types : list jsstring) : list jsstring :=
  match types with
  | [] => []
  | t :: types' =>
      match workplaceCode host t with
      | Some c => c :: mappedTypes host types'
      | None => mappedTypes host types'
      end
  end.

Definition when (b : bool) (f : Url.params -> Url.params) (l : Url.params) : Url.params :=
  if b then f l else l.

(** The pairs [buildSearchApiUrl] has set when it serializes them. *)
Definition searchApiPairs (host : Host) (p : SearchParams.t) : Url.params :=
  let step1 := when (nonEmpty (SearchParams.query p))
                 (Url.set (js "q") (SearchParams.query p)) [] in
  let step2 := when (nonEmpty (SearchParams.location p))
                 (fun l => Url.set (js "countryCode2") (js "US")
                             (Url.set (js "longitude") []
                                (Url.set (js "latitude") []
                                   (Url.set (js "location") (SearchParams.location p) l))))
                 step1 in
  let step3 := when (0 <? SearchParams.radius p)%Z
                 (Url.set (js "radius") (Str.ofZ (SearchParams.radius p))) step2 in
  let step4 := when (0 <? List.length (SearchParams.employmentTypes p))
                 (Url.set (js "employmentType")
                    (Url.join (js ",") (SearchParams.employmentTypes p))) step3 in
  let step5 := when (nonEmpty (SearchParams.postedDate p)
                     && negb (Str.eqb (SearchParams.postedDate p) (js "ANY"))
                     && (0 <? postedDays host (SearchParams.postedDate p))%Z)
                 (Url.set (js "postedDate")
                    (Str.ofZ (postedDays host (SearchParams.postedDate p)))) step4 in
  let step6 := when ((0 <? List.length (SearchParams.workplaceTypes p))
                     && (0 <? List.length (mappedTypes host (SearchParams.workplaceTypes p))))
                 (Url.set (js "workplaceTypes")
                    (Url.join (js ",") (mappedTypes host (SearchParams.workplaceTypes p))))
                 step5 in
  let step7 := when (SearchParams.easyApply p)
                 (Url.set (js "easyApply") (js "true")) step6 in
  Url.set (js "language") (js "en")
    (Url.set (js "filters.isRemote") (js "true")
       (Url.set (js "pageSize") (Str.ofZ (SearchParams.pageSize p))
          (Url.set (js "page") (Str.ofZ (SearchParams.page p)) step7))).

Definition buildSearchApiUrl (host : Host) (p : SearchParams.t) : jsstring :=
  Url.toString (searchApiPairs host p).

(** The filters of the API query as a list of pairs, in the order in which
    they are written. *)
Definition apiFilters (host : Host) (p : SearchParams.t) : Url.params :=
  (if nonEmpty (SearchParams.query p) then [(js "q", SearchParams.query p)] else [])
  ++ (if nonEmpty (SearchParams.location p)
      then [(js "location", SearchParams.location p); (js "latitude", []);
            (js "longitude", []); (js "countryCode2", js "US")]
      else [])
  ++ (if (0 <? SearchParams.radius p)%Z
      then [(js "radius", Str.ofZ (SearchParams.radius p))] else [])
  ++ match SearchParams.employmentTypes p with
     | [] => []
     | types => [(js "employmentType", Url.join (js ",") types)]
     end
  ++ (if (0 <? postedDays host (SearchParams.postedDate p))%Z
      then [(js "postedDate", Str.ofZ (postedDays host (SearchParams.postedDate p)))]
      else [])
  ++ match mappedTypes host (SearchParams.workplaceTypes p) with
     | [] => []
     | codes => [(js "workplaceTypes", Url.join (js ",") codes)]
     end
  ++ (if SearchParams.easyApply p then [(js "easyApply", js "true")] else []).

(** The validated input, as far as the builders and the run driver read
    it. *)
Module Input.
Record t : Type := mk {
  searchQuery : jsstring;
  location : jsstring;
  radius : Z;
  employmentTypes : list jsstring;
  postedDate : jsstring;
  workplaceTypes : list jsstring;
  easyApply : bool;
  maxJobs : Z;
  scrapeJobDetails : bool;
  startUrls : list jsstring
}.
End Input.

(** [types.forEach(type => params.append(name, type))] *)
Definition appendAll (name : jsstring) (values : list jsstring) (l : Url.params)
    : Url.params :=
  fold_left (fun acc v => Url.append name v acc) values l.

Definition searchPairs (input : Input.t) (page : Z) : Url.params :=
  let step1 := when (nonEmpty (Input.searchQuery input))
                 (Url.set (js "q") (Input.searchQuery input)) [] in
  let step2 := when (nonEmpty (Input.location input))
                 (Url.set (js "location") (Input.location input)) step1 in
  let step3 := when (0 <? Input.radius input)%Z
                 (Url.set (js "radius") (Str.ofZ (Input.radius input))) step2 in
  let step4 := when (0 <? List.length (Input.employmentTypes input))
                 (appendAll (js "filters.employmentType") (Input.employmentTypes input))
                 step3 in
  let step5 := when (nonEmpty (Input.postedDate input)
                     && negb (Str.eqb (Input.postedDate input) (js "ANY")))
                 (Url.set (js "filters.postedDate") (Input.postedDate input)) step4 in
  let step6 := when (0 <? List.length (Input.workplaceTypes input))
                 (appendAll (js "filters.workplaceTypes") (Input.workplaceTypes input))
                 step5 in
  let step7 := when (Input.easyApply input)
                 (Url.set (js "filters.easyApply") (js "true")) step6 in
  Url.set (js "pageSize") (js "100")
    (Url.set (js "page") (Str.ofZ page) step7).

Definition buildSearchUrl (input : Input.t) (page : Z) : jsstring :=
  DICE_BASE_URL ++ js "/jobs?" ++ Url.toString (searchPairs input page).

End Builders.

Import Builders.

(** ** utils.ts: retryWithBackoff

    [fn] is called anew at each attempt, so it is given as the outcome of
    each call, by the number of the attempt.  The run ends resolved, or
    rejected with the last error ([undefined] when there was no attempt);
    the delays it has slept are kept, in order. *)

Module Retry.

Inductive outcome (A : Type) : Type :=
| Resolved (a : A)
| Rejected (lastError : option jsstring).

Arguments Resolved {A} a.
Arguments Rejected {A} lastError.

(** The loop from [attempt] on, with [left] attempts to go. *)
Fixpoint attempts {A : Type} (fn : nat -> result A) (initialDelayMs : Z)
    (attempt left : nat) (lastError : option jsstring) (slept : list Z)
    : outcome A * list Z :=
  match left with
  | O => (Rejected lastError, slept)
  | S left' =>
      match fn attempt with
      | Ok v => (Resolved v, slept)
      | Throw e =>
          let slept' :=
            match left' with
            | O => slept
            | S _ => slept ++ [(initialDelayMs * 2 ^ Z.of_nat attempt)%Z]
            end in
          attempts fn initialDelayMs (S attempt) left' (Some e) slept'
      end
  end.

Definition retryWithBackoff {A : Type} (fn : nat -> result A) (maxRetries : nat)
    (initialDelayMs : Z) : outcome A * list Z :=
  attempts fn initialDelayMs 0 maxRetries None [].

(** The delays of [n] sleeps in a row, the first one after attempt
    [first], and what a list of delays adds up to. *)
Definition delays (initialDelayMs : Z) (first n : nat) : list Z :=
  List.map (fun i => (initialDelayMs * 2 ^ Z.of_nat i)%Z) (List.seq first n).

Definition total (l : list Z) : Z := fold_right Z.add 0%Z l.

(** The error the loop holds after [left] failed attempts from [a] on. *)
Definition lastOf {A : Type} (fn : nat -> result A) (a left : nat)
    (last : option jsstring) : option jsstring :=
  match left with
  | O => last
  | S m => match fn (a + m) with
           | Throw e => Some e
           | Ok _ => None
           end
  end.

End Retry.

(** ** The run driver: the start requests *)

Module Main.

Definition startRequest (url : jsstring) : Request.t :=
  if includes (js "/job-detail/") url
  then Request.mk url JOB_DETAIL (UserData.mk JOB_DETAIL None None None) None
  else Request.mk url SEARCH (UserData.mk SEARCH (Some 1%Z) None None) None.

Definition seedParams (input : Input.t) : SearchParams.t :=
  SearchParams.mk (Input.searchQuery input) (Input.location input)
    (if (Input.radius input =? 0)%Z then 30%Z else Input.radius input)
    (Input.employmentTypes input)
    (orLit (Some (Input.postedDate input)) (js "ANY"))
    (Input.workplaceTypes input) (Input.easyApply input) 1 100.

Definition startRequests (input : Input.t) : list Request.t :=
  match Input.startUrls input with
  | _ :: _ => List.map startRequest (Input.startUrls input)
  | [] =>
      [ Request.mk (DICE_API_URL ++ js "?page=1") SEARCH_API
          (UserData.mk SEARCH_API (Some 1%Z) (Some (seedParams input)) None)
          (Some (js "search-page-1"));
        Request.mk (buildSearchUrl input 1) SEARCH
          (UserData.mk SEARCH (Some 1%Z) None None)
          (Some (js "html-search-page-1")) ]
  end.

End Main.

(** ** What a page loop takes

    [room r n] is the number of records a page of [n] jobs can still add
    under the cap of [r]; [cardJobs] are the records of a list of cards,
    numbered from [index]. *)

Module Paging.


Definition advance (r : Router) (n : nat) : Router :=
  mkRouter (jobsScraped r + Z.of_nat n) (maxJobs r) (scrapeJobDetails r).


(** The requests of [rs] that a queue takes when it has seen the keys
    [seen]: those whose key is new, only the first of several with one key,
    in the order of [rs]. *)
Fixpoint accepted (urlKey : jsstring -> jsstring) (seen : list jsstring)
    (rs : list Request.t) : list Request.t :=
  match rs with
  | [] => []
  | r :: rs' =>
      if member (keyOf urlKey r) seen then accepted urlKey seen rs'
      else r :: accepted urlKey (keyOf urlKey r :: seen) rs'
  end.



(** A SEARCH_API request as the program builds them. *)
Definition apiRequestOk (r : Request.t) : Prop :=
  exists sp,
    UserData.searchParams (Request.userData r) = Some sp
    /\ (1 <= SearchParams.page sp)%Z
    /\ UserData.page (Request.userData r) = Some (SearchParams.page sp)
    /\ Request.url r = DICE_API_URL ++ js "?page=" ++ Str.ofZ (SearchParams.page sp)
    /\ Request.uniqueKey r = Some (js "search-page-" ++ Str.ofZ (SearchParams.page sp))
    /\ SearchParams.pageSize sp = 100%Z.

End Paging.

Import Paging.

(** ** More sample inputs *)

Module Cases.

(** An API job whose estimate names a currency that is no currency code. *)
Definition badJob : DiceSearchJob.t :=
  DiceSearchJob.mk (Some (js "j-9")) (Some (js "Analyst")) (Some (js "Acme")) None None
    None None
    (Some (Estimate.mk (Some (Num.ofZ 100)) None (Some (js "US")) None))
    None None None (Some (js "/job-detail/0f-9")) None None None.

(** An estimate with a minimum of [0], a positive maximum, and a currency
    that is no currency code. *)
Definition zeroMinBadCurrency : Estimate.t :=
  Estimate.mk (Some (Num.ofZ 0)) (Some (Num.ofZ 120000)) (Some (js "US"))
    (Some (js "YEAR")).

Definition card (title href : String.string) : Card.t :=
  Card.mk (js title) (js "Acme") (js "Remote") [] (js "Today") (Some (js href)) 0.


Definition htmlRequest : Request.t :=
  Request.mk (js "https://www.dice.com/jobs") SEARCH
    (UserData.mk SEARCH None None None) None.

Definition input : Input.t :=
  Input.mk (js "rocq") [] 0 [ js "FULLTIME"; js "CONTRACT" ] (js "ANY") [] false 0 true [].

(** The same job under the same URL with a slash at its end. *)
Definition slashed (b : Basic.t) : Basic.t :=
  Basic.mk (Basic.id b) (Basic.title b) (Basic.company b) (Basic.companyId b)
    (Basic.location b) (Basic.salary b) (Basic.salaryMin b) (Basic.salaryMax b)
    (Basic.salaryCurrency b) (Basic.salaryPeriod b) (Basic.jobType b)
    (Basic.employmentType b) (Basic.workplaceType b) (Basic.postedDate b)
    (Basic.postedDateTimestamp b) (Basic.url b ++ js "/") (Basic.easyApply b)
    (Basic.summary b).

Definition searchParams : SearchParams.t :=
  SearchParams.mk (js "java developer") (js "New York, NY") 30
    [ js "FULLTIME"; js "CONTRACT" ] (js "SEVEN") [ js "Remote"; js "Anywhere" ] true 2 100.

(** A detail page with three skill elements, two benefit elements and a
    description; no other selector finds anything. *)
Definition detailPage : DetailPage.t :=
  DetailPage.mk [] [] [] [] [] [] [] [] [] None (js "We use Python and python.")
    [ js "Rocq"; js " Rocq "; [] ] [] [] [ js " Health "; [] ] [] None 0 None.

End Cases.

(** ** A run of the crawler

    The crawler keeps the requests it has accepted and not yet finished.  It
    takes one of them, fetches its page and calls the handler of its label;
    the requests the handler has added join the pending ones.  A request
    whose handler has thrown may be tried again; a request may also be given
    up without its handler being called, when its page cannot be fetched.
    Handlers run one after the other here, as they do with a concurrency of
    1; what is fetched, and the clock, are the environment's. *)

Module Crawl.

Inductive Page : Type :=
| ApiPage (response : result (option DiceSearchResponse.t))
| HtmlPage (doc : SearchPage.t)
| DetailDoc (doc : result DetailPage.t).

Record Env : Type := mkEnv {
  host : Host;
  iso : Z -> jsstring;
  urlWithPage : jsstring -> Z -> jsstring;
  urlKey : jsstring -> jsstring
}.

(** The router: the handler registered for the label of the request. *)
Definition dispatch (env : Env) (now : Z) (request : Request.t) (page : Page)
    (w : World) : option (World * result unit) :=
  match Request.label request, page with
  | SEARCH_API, ApiPage response =>
      Some (searchApiHandler (urlKey env) (host env) (iso env) now request response w)
  | SEARCH, HtmlPage doc =>
      Some (searchHandler (urlKey env) (urlWithPage env) (iso env) now request doc w)
  | JOB_DETAIL, DetailDoc doc =>
      Some (jobDetailHandler (iso env) now request doc w)
  | _, _ => None
  end.

Record State : Type := mkState {
  world : World;
  pending : list Request.t
}.

(** The requests the queue has taken between [w] and [w']. *)
Definition newRequests (w w' : World) : list Request.t :=
  skipn (List.length (queue w)) (queue w').

Inductive step (env : Env) (s : State) : State -> Prop :=
| Handled (now : Z) (before after : list Request.t) (request : Request.t)
    (page : Page) (w' : World) (outcome : result unit) :
    pending s = before ++ request :: after ->
    dispatch env now request page (world s) = Some (w', outcome) ->
    step env s (mkState w' (before ++ after ++ newRequests (world s) w'))
| Retried (now : Z) (before after : list Request.t) (request : Request.t)
    (page : Page) (w' : World) (e : jsstring) :
    pending s = before ++ request :: after ->
    dispatch env now request page (world s) = Some (w', Throw e) ->
    step env s (mkState w' (before ++ request :: after ++ newRequests (world s) w'))
| GivenUp (before after : list Request.t) (request : Request.t) :
    pending s = before ++ request :: after ->
    step env s (mkState (world s) (before ++ after)).

Inductive run (env : Env) (s : State) : State -> Prop :=
| run_here : run env s s
| run_on (s' s'' : State) : run env s s' -> step env s' s'' -> run env s s''.

(** The state in which [crawler.run(startRequests)] starts, after
    [initRouter(input)]. *)
Definition start (env : Env) (input : Input.t) : State :=
  let w := addRequests (urlKey env) (Main.startRequests input)
             (mkWorld (initRouter (Input.maxJobs input)
                         (Some (Input.scrapeJobDetails input))) [] []) in
  mkState w (queue w).

(** What a handler may do to the world: the cap and the detail switch stay,
    the counter does not go down and stays within a cap it was within, the
    queue is extended by [added], and the records stored plus the detail
    requests added are no more than the jobs counted, [spare] aside. *)
Definition grows (spare : Z) (w w' : World) (added : list Request.t) : Prop :=
  maxJobs (router w') = maxJobs (router w)
  /\ (jobsScraped (router w) <= jobsScraped (router w'))%Z
  /\ ((0 < maxJobs (router w))%Z ->
      (jobsScraped (router w) <= maxJobs (router w))%Z ->
      (jobsScraped (router w') <= maxJobs (router w))%Z)
  /\ queue w' = queue w ++ added
  /\ (Z.of_nat (List.length (dataset w')) + Z.of_nat (detailCount added)
      + jobsScraped (router w)
      <= Z.of_nat (List.length (dataset w)) + jobsScraped (router w') + spare)%Z.

(** What a run keeps. *)
Definition kept (s0 s : State) : Prop :=
  maxJobs (router (world s)) = maxJobs (router (world s0))
  /\ (jobsScraped (router (world s0)) <= jobsScraped (router (world s))
      <= maxJobs (router (world s0)))%Z
  /\ (Z.of_nat (List.length (dataset (world s))) + Z.of_nat (detailCount (pending s))
      + jobsScraped (router (world s0))
      <= Z.of_nat (List.length (dataset (world s0)))
         + Z.of_nat (detailCount (pending s0)) + jobsScraped (router (world s)))%Z.

End Crawl.

Module Runs.

Definition env : Crawl.Env :=
  Crawl.mkEnv Sample.host Sample.iso Sample.urlWithPage Sample.urlKey.

(** The first request of a run being handled, on the page given. *)
Definition afterFirst (input : Input.t) (now : Z) (page : Crawl.Page) : Crawl.State :=
  let s := Crawl.start env input in
  match Crawl.pending s with
  | [] => s
  | request :: after =>
      match Crawl.dispatch env now request page (Crawl.world s) with
      | Some (w', _) =>
          Crawl.mkState w' ([] ++ after ++ Crawl.newRequests (Crawl.world s) w')
      | None => s
      end
  end.

End Runs.

(** * Properties *)

(** ** Strings *)

Section StringFacts.

Lemma jsstring_eqb_eq (a b : jsstring) : Str.eqb a b = true <-> a = b.
Proof.
  unfold Str.eqb. destruct (list_eq_dec N.eq_dec a b); split; congruence.
Qed.

Lemma jsstring_eqb_refl (a : jsstring) : Str.eqb a a = true.
Proof. now apply jsstring_eqb_eq. Qed.

Lemma replaceAll_absent (pat rep s : jsstring) :
  includes pat s = false -> replaceAll pat rep s = s.
Proof.
  unfold replaceAll. induction s as [|c r IH]; intros H; [reflexivity|].
  cbn [includes] in H. apply orb_false_iff in H as [H1 H2].
  cbn [replaceAllFrom]. rewrite H1. now rewrite IH.
Qed.

Lemma trimStart_suffix (s : jsstring) : exists p, s = p ++ trimStart s.
Proof.
  induction s as [|c r [p Hp]]; [now exists []|].
  cbn. destruct (isSpace c).
  - exists (c :: p). cbn. now rewrite <- Hp.
  - now exists [].
Qed.

Lemma trimEnd_prefix (s : jsstring) : exists q, s = trimEnd s ++ q.
Proof.
  unfold trimEnd. destruct (trimStart_suffix (rev s)) as [p Hp].
  exists (rev p). rewrite <- rev_app_distr, <- Hp. now rewrite rev_involutive.
Qed.

Lemma trimStart_startOk (s : jsstring) : startOk (trimStart s) = true.
Proof.
  induction s as [|c r IH]; [reflexivity|].
  cbn. destruct (isSpace c) eqn:E; [exact IH|]. cbn. now rewrite E.
Qed.

Lemma trimStart_id (s : jsstring) : startOk s = true -> trimStart s = s.
Proof.
  destruct s as [|c r]; [reflexivity|]. cbn. now destruct (isSpace c).
Qed.

Lemma trimEnd_startOk (s : jsstring) : startOk s = true -> startOk (trimEnd s) = true.
Proof.
  intros H. destruct (trimEnd_prefix s) as [q Hq].
  destruct (trimEnd s) as [|c t]; [reflexivity|].
  rewrite Hq in H. exact H.
Qed.

Lemma trimEnd_idem (s : jsstring) : trimEnd (trimEnd s) = trimEnd s.
Proof.
  unfold trimEnd. rewrite rev_involutive.
  now rewrite (trimStart_id _ (trimStart_startOk (rev s))).
Qed.

Lemma trim_idem (s : jsstring) : trim (trim s) = trim s.
Proof.
  unfold trim.
  rewrite (trimStart_id (trimEnd (trimStart s))).
  - apply trimEnd_idem.
  - apply trimEnd_startOk, trimStart_startOk.
Qed.

Lemma trim_parts (s : jsstring) : exists p q, s = p ++ trim s ++ q.
Proof.
  unfold trim. destruct (trimStart_suffix s) as [p Hp].
  destruct (trimEnd_prefix (trimStart s)) as [q Hq].
  exists p, q. now rewrite <- Hq.
Qed.

End StringFacts.

(** ** cleanText *)

Section CleanTextFacts.

Lemma stripTags_keeps (P : N -> bool) (b : bool) (s : jsstring) :
  existsb P s = false -> existsb P (stripTagsFrom b s) = false.
Proof.
  revert b. induction s as [|c r IH]; intros b H; [now destruct b|].
  cbn in H. apply orb_false_iff in H as [Hc Hr].
  cbn. destruct b.
  - destruct (c =? GT)%N; now apply IH.
  - destruct ((c =? LT)%N && existsb (N.eqb GT) r).
    + now apply IH.
    + cbn. rewrite Hc. now apply IH.
Qed.

Lemma stripTags_noTag (b : bool) (s : jsstring) : hasTag (stripTagsFrom b s) = false.
Proof.
  revert b. induction s as [|c r IH]; intros b; [now destruct b|].
  cbn. destruct b.
  - destruct (c =? GT)%N; apply IH.
  - destruct (c =? LT)%N eqn:Ec; cbn.
    + destruct (existsb (N.eqb GT) r) eqn:Er; [apply IH|].
      cbn. rewrite Ec, IH, (stripTags_keeps _ false _ Er). reflexivity.
    + rewrite Ec, IH. reflexivity.
Qed.

Lemma stripTags_id (s : jsstring) : hasTag s = false -> stripTags s = s.
Proof.
  unfold stripTags. induction s as [|c r IH]; intros H; [reflexivity|].
  cbn in H. apply orb_false_iff in H as [H1 H2].
  cbn. rewrite H1. now rewrite IH.
Qed.

Lemma hasTag_app (a b : jsstring) :
  hasTag (a ++ b) = false -> hasTag a = false /\ hasTag b = false.
Proof.
  induction a as [|c a IH]; intros H; [now split|].
  cbn in H. apply orb_false_iff in H as [H1 H2].
  destruct (IH H2) as [Ha Hb]. split; [|exact Hb].
  cbn. rewrite Ha, orb_false_r.
  destruct (c =? LT)%N; [|reflexivity]. cbn in *.
  rewrite existsb_app in H1. now apply orb_false_iff in H1 as [-> _].
Qed.

Lemma collapse_keeps_GT (b : bool) (s : jsstring) :
  existsb (N.eqb GT) s = false -> existsb (N.eqb GT) (collapseFrom b s) = false.
Proof.
  revert b. induction s as [|c r IH]; intros b H; [reflexivity|].
  cbn in H. apply orb_false_iff in H as [Hc Hr].
  cbn. destruct (isSpace c).
  - destruct b; [now apply IH|]. cbn. now apply IH.
  - cbn. rewrite Hc. now apply IH.
Qed.

Lemma collapse_noTag (b : bool) (s : jsstring) :
  hasTag s = false -> hasTag (collapseFrom b s) = false.
Proof.
  revert b. induction s as [|c r IH]; intros b H; [reflexivity|].
  cbn in H. apply orb_false_iff in H as [H1 H2].
  cbn. destruct (isSpace c).
  - destruct b; [now apply IH|]. cbn. now apply IH.
  - cbn. rewrite (IH false H2), orb_false_r.
    destruct (c =? LT)%N; [|reflexivity]. cbn in *.
    now apply collapse_keeps_GT.
Qed.

Lemma collapse_collapsed (b : bool) (s : jsstring) :
  collapsed b (collapseFrom b s) = true.
Proof.
  revert b. induction s as [|c r IH]; intros b; [reflexivity|].
  cbn. destruct (isSpace c) eqn:E.
  - destruct b; [apply IH|]. cbn. apply IH.
  - cbn. rewrite E. apply IH.
Qed.

Lemma collapsed_id (b : bool) (s : jsstring) :
  collapsed b s = true -> collapseFrom b s = s.
Proof.
  revert b. induction s as [|c r IH]; intros b H; [reflexivity|].
  cbn in *. destruct (isSpace c).
  - apply andb_true_iff in H as [H1 H3]. apply andb_true_iff in H1 as [H1 H2].
    apply N.eqb_eq in H1. subst c. destruct b; [discriminate|].
    now rewrite (IH true H3).
  - now rewrite (IH false H).
Qed.

Lemma collapsed_weaken (s : jsstring) :
  collapsed true s = true -> collapsed false s = true.
Proof.
  destruct s as [|c r]; [reflexivity|]. cbn.
  destruct (isSpace c); [|trivial]. now rewrite andb_false_r.
Qed.

Lemma collapsed_app (b : bool) (p t : jsstring) :
  collapsed b (p ++ t) = true -> collapsed b p = true /\ collapsed false t = true.
Proof.
  revert b. induction p as [|c p IH]; intros b H.
  - split; [reflexivity|]. destruct b; [now apply collapsed_weaken|exact H].
  - cbn in *. destruct (isSpace c).
    + apply andb_true_iff in H as [H1 H2]. destruct (IH true H2) as [Hp Ht].
      split; [|exact Ht]. now rewrite H1, Hp.
    + now apply IH.
Qed.

Lemma cleaned_shape (s : jsstring) :
  hasTag (cleanText s) = false /\ collapsed false (cleanText s) = true
  /\ trim (cleanText s) = cleanText s.
Proof.
  unfold cleanText. destruct (negb (nonEmpty s)); [now repeat split|].
  set (u := collapseSpaces (stripTags (decodeEntities s))).
  assert (Hu1 : hasTag u = false) by (apply collapse_noTag, stripTags_noTag).
  assert (Hu2 : collapsed false u = true) by apply collapse_collapsed.
  destruct (trim_parts u) as [p [q Hpq]].
  rewrite Hpq in Hu1, Hu2. repeat split.
  - apply hasTag_app in Hu1 as [_ Hu1]. now apply hasTag_app in Hu1 as [Hu1 _].
  - apply collapsed_app in Hu2 as [_ Hu2]. now apply collapsed_app in Hu2 as [Hu2 _].
  - apply trim_idem.
Qed.

Lemma decodeEntities_id (s : jsstring) :
  entityFree s = true -> decodeEntities s = s.
Proof.
  unfold entityFree, decodeEntities, entities.
  cbn [forallb fold_left fst snd]. intros H.
  repeat (apply andb_true_iff in H as [?H H]).
  repeat match goal with
         | h : negb (includes ?p s) = true |- _ =>
             apply negb_true_iff in h;
             rewrite (replaceAll_absent p _ s h); clear h
         end.
  reflexivity.
Qed.

Lemma cleanText_fixed (t : jsstring) :
  entityFree t = true -> hasTag t = false -> collapsed false t = true ->
  trim t = t -> cleanText t = t.
Proof.
  intros He Ht Hc Hr. unfold cleanText.
  destruct t as [|c t']; [reflexivity|]. cbn [nonEmpty negb].
  rewrite (decodeEntities_id _ He), (stripTags_id _ Ht).
  unfold collapseSpaces. now rewrite (collapsed_id _ _ Hc).
Qed.

End CleanTextFacts.

(** *** When a second pass changes the text *)


Lemma startsWith_length (p s : jsstring) :
  startsWith p s = true -> List.length p <= List.length s.
Proof.
  revert s. induction p as [|a p IH]; intros s H; [cbn; lia|].
  destruct s as [|b s]; [discriminate|].
  cbn in H. apply andb_true_iff in H as [_ H]. cbn. apply IH in H. lia.
Qed.

Section ReplaceLength.

Variables pat rep : jsstring.
Hypothesis shorter : List.length rep <= List.length pat.

Lemma replaceAllFrom_length (k : nat) (s : jsstring) :
  List.length (replaceAllFrom pat rep k s) + Nat.min k (List.length s)
  <= List.length s.
Proof.
  revert k. induction s as [|c r IH]; intros k; [cbn; lia|].
  cbn [replaceAllFrom]. destruct k as [|k].
  - destruct (startsWith pat (c :: r)) eqn:E.
    + apply startsWith_length in E. cbn [List.length] in *.
      rewrite length_app. specialize (IH (Nat.pred (List.length pat))). lia.
    + specialize (IH 0). cbn [List.length] in *. lia.
  - specialize (IH k). cbn [List.length]. lia.
Qed.

Lemma replaceAll_length (s : jsstring) :
  List.length (replaceAll pat rep s) <= List.length s.
Proof.
  pose proof (replaceAllFrom_length 0 s). unfold replaceAll. lia.
Qed.

Lemma replaceAll_shrinks (s : jsstring) :
  List.length rep < List.length pat -> includes pat s = true ->
  List.length (replaceAll pat rep s) < List.length s.
Proof.
  intros Hlen. unfold replaceAll. induction s as [|c r IH]; intros H.
  - cbn in H. rewrite orb_false_r in H. apply startsWith_length in H. cbn in H. lia.
  - cbn [includes] in H. cbn [replaceAllFrom].
    destruct (startsWith pat (c :: r)) eqn:E.
    + apply startsWith_length in E. cbn [List.length] in *. rewrite length_app.
      pose proof (replaceAllFrom_length (Nat.pred (List.length pat)) r).
      lia.
    + cbn in H. apply IH in H. cbn [List.length]. lia.
Qed.

End ReplaceLength.

Lemma stripTags_length (b : bool) (s : jsstring) :
  List.length (stripTagsFrom b s) <= List.length s.
Proof.
  revert b. induction s as [|c r IH]; intros b; [now destruct b|].
  cbn. destruct b.
  - destruct (c =? GT)%N; [specialize (IH false)|specialize (IH true)]; lia.
  - destruct ((c =? LT)%N && existsb (N.eqb GT) r);
      [specialize (IH true)|specialize (IH false)]; cbn; lia.
Qed.

Lemma collapse_length (b : bool) (s : jsstring) :
  List.length (collapseFrom b s) <= List.length s.
Proof.
  revert b. induction s as [|c r IH]; intros b; [reflexivity|].
  cbn. destruct (isSpace c); [destruct b|];
    [specialize (IH true)|specialize (IH true)|specialize (IH false)]; cbn; lia.
Qed.

Lemma trim_length (s : jsstring) : List.length (trim s) <= List.length s.
Proof.
  destruct (trim_parts s) as [p [q H]].
  rewrite H at 2. rewrite !length_app. lia.
Qed.

Lemma decode_length (es : list (jsstring * jsstring)) (s : jsstring) :
  Forall shorterRep es ->
  List.length (fold_left (fun acc e => replaceAll (fst e) (snd e) acc) es s)
  <= List.length s.
Proof.
  intros H. revert s. induction H as [|e es He _ IH]; intros s; [reflexivity|].
  cbn [fold_left]. etransitivity; [apply IH|].
  apply replaceAll_length. unfold shorterRep in He. lia.
Qed.

Lemma decode_shrinks (es : list (jsstring * jsstring)) (s : jsstring) :
  Forall shorterRep es ->
  existsb (fun e => includes (fst e) s) es = true ->
  List.length (fold_left (fun acc e => replaceAll (fst e) (snd e) acc) es s)
  < List.length s.
Proof.
  intros H. revert s. induction H as [|e es He Hes IH]; intros s Hin; [discriminate|].
  cbn [existsb] in Hin. cbn [fold_left].
  destruct (includes (fst e) s) eqn:E.
  - eapply Nat.le_lt_trans; [apply decode_length, Hes|].
    unfold shorterRep in He. apply replaceAll_shrinks; [lia|exact He|exact E].
  - rewrite (replaceAll_absent _ _ _ E). now apply IH.
Qed.

Lemma entities_shorter : Forall shorterRep entities.
Proof. unfold entities, shorterRep. repeat constructor. Qed.

Lemma entityFree_existsb (s : jsstring) :
  entityFree s = negb (existsb (fun e => includes (fst e) s) entities).
Proof.
  unfold entityFree. induction entities as [|e es IH]; [reflexivity|].
  cbn. rewrite IH. now rewrite negb_orb.
Qed.

Lemma cleanText_shrinks (t : jsstring) :
  entityFree t = false -> List.length (cleanText t) < List.length t.
Proof.
  intros H. rewrite entityFree_existsb in H. apply negb_false_iff in H.
  unfold cleanText. destruct t as [|c t']; [discriminate|].
  cbn [nonEmpty negb]. set (t := c :: t') in *.
  eapply Nat.le_lt_trans; [apply trim_length|].
  eapply Nat.le_lt_trans; [apply collapse_length|].
  eapply Nat.le_lt_trans; [apply stripTags_length|].
  apply decode_shrinks; [apply entities_shorter|exact H].
Qed.


(** C8, as amended.  A second pass of [cleanText] leaves the cleaned text as
    it is exactly when the cleaned text holds none of the six entities
    ([&nbsp;], [&amp;], [&lt;], [&gt;], [&quot;], [&#39;]); a cleaned text
    that still holds one, left there by the decoding of another, is decoded
    further. *)
Theorem cleanText_idempotent_iff_entityFree (s : jsstring) :
  cleanText (cleanText s) = cleanText s <-> entityFree (cleanText s) = true.
Proof.
  split.
  - intros H. destruct (entityFree (cleanText s)) eqn:E; [reflexivity|].
    apply cleanText_shrinks in E. rewrite H in E. lia.
  - intros H. destruct (cleaned_shape s) as [Ht [Hc Hr]].
    now apply cleanText_fixed.
Qed.

(** C8, as stated, fails: the decoding of [&amp;amp;] leaves [&amp;], which a
    second pass decodes to [&]. *)
Lemma cleanText_not_idempotent :
  cleanText (cleanText (js "&amp;amp;")) <> cleanText (js "&amp;amp;").
Proof. vm_compute. discriminate. Qed.

Example cleanText_amp : cleanText (js "Tom &amp; Jerry") = js "Tom & Jerry".
Proof. vm_compute. reflexivity. Qed.

Example cleanText_tags : cleanText (js "<div><span>Test</span></div>") = js "Test".
Proof. vm_compute. reflexivity. Qed.

Example cleanText_spaces : cleanText (js "  Hello   World  ") = js "Hello World".
Proof. vm_compute. reflexivity. Qed.

Example cleanText_lines : cleanText [76; 49; 10; 10; 10; 76; 50]%N = js "L1 L2".
Proof. vm_compute. reflexivity. Qed.

(** ** formatPostedDate *)

Lemma formatPostedDate_empty (host : Host) (now : Z) :
  formatPostedDate host now (Some []) = js "Unknown"
  /\ formatPostedDate host now None = js "Unknown".
Proof. split; reflexivity. Qed.

(** C6.  The source's [catch] branch would return the input, but nothing in
    the [try] block throws: for a non-empty string that is not a date the
    result is the rendering of an invalid date. *)
Theorem formatPostedDate_unparseable (host : Host) (now : Z) (s : jsstring) :
  s <> [] -> dateParse host s = None ->
  formatPostedDate host now (Some s) = js "Invalid Date".
Proof.
  intros Hs Hd. destruct s as [|c r]; [congruence|].
  unfold formatPostedDate. now rewrite Hd.
Qed.

Lemma formatPostedDate_unparseable_witness :
  formatPostedDate Sample.host 0 (Some (js "last week")) = js "Invalid Date"
  /\ js "Invalid Date" <> js "last week".
Proof.
  split.
  - apply formatPostedDate_unparseable; [discriminate|reflexivity].
  - discriminate.
Defined.

Example formatPostedDate_today :
  formatPostedDate Sample.host 1705280000000 (Some (js "2024-01-15T00:00:00.000Z"))
  = js "Today".
Proof. vm_compute. reflexivity. Qed.

Example formatPostedDate_ten_days :
  formatPostedDate Sample.host (1705276800000 + 10 * MS_PER_DAY)
    (Some (js "2024-01-15T00:00:00.000Z"))
  = js "1 week ago".
Proof. vm_compute. reflexivity. Qed.

(** ** parseSalaryFromText *)

Example parseSalary_range :
  parseSalaryFromText (js "$80,000 - $120,000/year")
  = Some (Salary.mk (Num.ofZ 80000) (Num.ofZ 120000) (js "USD") (js "year")).
Proof. vm_compute. reflexivity. Qed.

Example parseSalary_hourly :
  parseSalaryFromText (js "$50/hour")
  = Some (Salary.mk (Num.ofZ 50) (Num.ofZ 50) (js "USD") (js "hour")).
Proof. vm_compute. reflexivity. Qed.

Example parseSalary_K :
  parseSalaryFromText (js "$80K - $120K")
  = Some (Salary.mk (Num.ofZ 80000) (Num.ofZ 120000) (js "USD") (js "year")).
Proof. vm_compute. reflexivity. Qed.

Example parseSalary_competitive :
  parseSalaryFromText (js "Competitive") = None /\ parseSalaryFromText [] = None.
Proof. split; vm_compute; reflexivity. Qed.

(** C7.  The four inputs of the specification give what it says.  But a
    text without any digit is not always refused: a comma alone is taken for
    an amount, and the result carries [NaN] bounds.  And the suffix [K]
    itself changes nothing, since the source looks for it in the captured
    amount, which never holds it: the thousands come from the rule for
    amounts below 1000 without a period marker, and are lost when there is
    one. *)
Theorem parseSalary_comma_and_K :
  parseSalaryFromText (js "Competitive, DOE")
  = Some (Salary.mk NaN NaN (js "USD") (js "year"))
  /\ parseSalaryFromText (js "$80K - $120K/year")
     = Some (Salary.mk (Num.ofZ 80) (Num.ofZ 120) (js "USD") (js "year")).
Proof. split; vm_compute; reflexivity. Qed.

(** ** formatSalary *)

Lemma isZero_falsy (n : number) : isZero n -> truthy n = false.
Proof.
  intros [q [-> Hq]]. unfold Qeq in Hq. cbn in *.
  apply negb_false_iff, Z.eqb_eq. lia.
Qed.

Lemma zeroOrAbsent_falsy (v : option number) : zeroOrAbsent v -> truthyNum v = false.
Proof. destruct v as [n|]; [apply isZero_falsy|reflexivity]. Qed.

Lemma positive_truthy (n : number) : positive n -> truthy n = true.
Proof.
  intros [q [-> Hq]]. unfold Qlt in Hq. cbn in *.
  apply negb_true_iff, Z.eqb_neq. lia.
Qed.

Lemma formatSalary_single_max (host : Host) (e : Estimate.t) (mx : number) :
  zeroOrAbsent (Estimate.minValue e) -> Estimate.maxValue e = Some mx ->
  positive mx -> wellFormedCurrency (currencyOf e) = true ->
  formatSalary host (Some e)
  = Ok (Some (currencyFormat host (currencyOf e) mx ++ periodOf host e)).
Proof.
  intros Hmin Hmax Hpos Hwf. apply positive_truthy in Hpos.
  pose proof (zeroOrAbsent_falsy _ Hmin) as Hf.
  unfold formatSalary. rewrite Hmax, Hf. cbn [truthyNum negb andb].
  rewrite Hpos, Hwf. cbn [negb].
  destruct (Estimate.minValue e) as [n|]; cbn in Hf; [rewrite Hf|];
    cbn [truthyStr andb orStr];
    now destruct (currencyFormat host (currencyOf e) mx).
Qed.

Lemma formatSalary_single_min (host : Host) (e : Estimate.t) (mn : number) :
  zeroOrAbsent (Estimate.maxValue e) -> Estimate.minValue e = Some mn ->
  positive mn -> wellFormedCurrency (currencyOf e) = true ->
  formatSalary host (Some e)
  = Ok (Some (match currencyFormat host (currencyOf e) mn with
              | [] => js "null"
              | s => s
              end ++ periodOf host e)).
Proof.
  intros Hmax Hmin Hpos Hwf. apply positive_truthy in Hpos.
  pose proof (zeroOrAbsent_falsy _ Hmax) as Hf.
  unfold formatSalary. rewrite Hmin, Hf. cbn [truthyNum negb andb].
  rewrite Hpos, Hwf. cbn [negb].
  destruct (Estimate.maxValue e) as [n|]; cbn in Hf; [rewrite Hf|];
    cbn [truthyStr]; rewrite andb_false_r;
    now destruct (currencyFormat host (currencyOf e) mn).
Qed.

Lemma formatSalary_ignores_zero (host host' : Host) (estimate : option Estimate.t) :
  (forall u, lowerCase host u = lowerCase host' u) ->
  (forall c n, truthy n = true -> currencyFormat host c n = currencyFormat host' c n) ->
  formatSalary host estimate = formatSalary host' estimate.
Proof.
  intros HL H. destruct estimate as [e|]; [|reflexivity].
  unfold formatSalary.
  assert (EP : periodOf host e = periodOf host' e).
  { unfold periodOf. destruct (Estimate.unitText e) as [[|c u]|]; try reflexivity.
    now rewrite HL. }
  rewrite EP.
  destruct (negb (truthyNum (Estimate.minValue e))
            && negb (truthyNum (Estimate.maxValue e))); [reflexivity|].
  destruct (negb (wellFormedCurrency (currencyOf e))); [reflexivity|].
  assert (E : forall v : option number,
             match v with
             | Some n => if truthy n then Some (currencyFormat host (currencyOf e) n) else None
             | None => None
             end
             = match v with
               | Some n => if truthy n then Some (currencyFormat host' (currencyOf e) n) else None
               | None => None
               end).
  { intros [n|]; [|reflexivity]. destruct (truthy n) eqn:T; [|reflexivity].
    now rewrite (H _ _ T). }
  now rewrite !E.
Qed.

Lemma formatSalary_zero_is_absent (host : Host) (e : Estimate.t) :
  (zeroOrAbsent (Estimate.minValue e) ->
   formatSalary host (Some e)
   = formatSalary host
       (Some (Estimate.mk None (Estimate.maxValue e) (Estimate.currency e)
                (Estimate.unitText e))))
  /\ (zeroOrAbsent (Estimate.maxValue e) ->
      formatSalary host (Some e)
      = formatSalary host
          (Some (Estimate.mk (Estimate.minValue e) None (Estimate.currency e)
                   (Estimate.unitText e)))).
Proof.
  split; intros H; apply zeroOrAbsent_falsy in H; unfold formatSalary;
    cbn [Estimate.minValue Estimate.maxValue truthyNum negb andb];
    rewrite H; unfold currencyOf, periodOf;
    cbn [Estimate.currency Estimate.unitText].
  - destruct (Estimate.minValue e) as [n|]; [|reflexivity].
    cbn in H. now rewrite H.
  - destruct (Estimate.maxValue e) as [n|]; [|reflexivity].
    cbn in H. now rewrite H.
Qed.

(** C10, as amended.  A bound of [0] counts as missing.  With both bounds
    [0] or missing the result is [undefined].  An estimate with a [0] bound
    gives what the same estimate without that bound gives.  With a [0] or
    missing minimum and a positive maximum this is the maximum alone,
    followed by the unit in lower case, when the currency code ([USD] when
    there is none) is three letters; when it is not, the constructor of the
    formatter throws a [RangeError], as it does for every estimate with a
    bound that counts.  The formatter is never asked to render a [0]: two
    hosts that differ only in how they format the other numbers give the
    same result. *)
Theorem formatSalary_zero_bound (host : Host) (e : Estimate.t) :
  (zeroOrAbsent (Estimate.minValue e) -> zeroOrAbsent (Estimate.maxValue e) ->
   formatSalary host (Some e) = Ok None)
  /\ (zeroOrAbsent (Estimate.minValue e) ->
      formatSalary host (Some e)
      = formatSalary host
          (Some (Estimate.mk None (Estimate.maxValue e) (Estimate.currency e)
                   (Estimate.unitText e))))
  /\ (zeroOrAbsent (Estimate.maxValue e) ->
      formatSalary host (Some e)
      = formatSalary host
          (Some (Estimate.mk (Estimate.minValue e) None (Estimate.currency e)
                   (Estimate.unitText e))))
  /\ (forall mx, zeroOrAbsent (Estimate.minValue e) ->
      Estimate.maxValue e = Some mx -> positive mx ->
      formatSalary host (Some e)
      = if wellFormedCurrency (currencyOf e)
        then Ok (Some (currencyFormat host (currencyOf e) mx ++ periodOf host e))
        else Throw (js "RangeError"))
  /\ (forall host',
      (forall u, lowerCase host u = lowerCase host' u) ->
      (forall c n, truthy n = true -> currencyFormat host c n = currencyFormat host' c n) ->
      formatSalary host (Some e) = formatSalary host' (Some e)).
Proof.
  split; [|split; [|split; [|split]]].
  - intros Hmin Hmax. unfold formatSalary.
    now rewrite (zeroOrAbsent_falsy _ Hmin), (zeroOrAbsent_falsy _ Hmax).
  - apply formatSalary_zero_is_absent.
  - apply formatSalary_zero_is_absent.
  - intros mx Hmin Hmax Hpos.
    destruct (wellFormedCurrency (currencyOf e)) eqn:Hwf.
    + now apply formatSalary_single_max.
    + unfold formatSalary. rewrite Hmax. cbn [truthyNum].
      rewrite (positive_truthy _ Hpos), andb_false_r, Hwf. reflexivity.
  - intros host'. apply formatSalary_ignores_zero.
Qed.

Lemma formatSalary_zero_bound_witness :
  zeroOrAbsent (Estimate.minValue Sample.zeroMin)
  /\ formatSalary Sample.host (Some Sample.zeroMin) = Ok (Some (js "$120,000/year")).
Proof.
  assert (H : zeroOrAbsent (Estimate.minValue Sample.zeroMin)).
  { exists 0%Q. split; reflexivity. }
  split; [exact H|].
  destruct (formatSalary_zero_bound Sample.host Sample.zeroMin) as [_ [_ [_ [H4 _]]]].
  rewrite (H4 (Num.ofZ 120000)).
  - reflexivity.
  - exact H.
  - reflexivity.
  - exists 120000%Q. split; reflexivity.
Defined.

(** C10, as stated, fails: with a minimum of [0] and a positive maximum the
    result is not the maximum alone when the currency is [US]; the call
    throws. *)
Lemma formatSalary_zero_min_throws :
  zeroOrAbsent (Estimate.minValue Cases.zeroMinBadCurrency)
  /\ Estimate.maxValue Cases.zeroMinBadCurrency = Some (Num.ofZ 120000)
  /\ positive (Num.ofZ 120000)
  /\ formatSalary Sample.host (Some Cases.zeroMinBadCurrency) = Throw (js "RangeError")
  /\ formatSalary Sample.host (Some Cases.zeroMinBadCurrency)
     <> Ok (Some (currencyFormat Sample.host (currencyOf Cases.zeroMinBadCurrency)
                    (Num.ofZ 120000)
                  ++ periodOf Sample.host Cases.zeroMinBadCurrency)).
Proof.
  split; [exists 0%Q; split; reflexivity|]. split; [reflexivity|].
  split; [exists 120000%Q; split; reflexivity|]. split; [reflexivity|discriminate].
Qed.

Example formatSalary_both_zero :
  formatSalary Sample.host
    (Some (Estimate.mk (Some (Num.ofZ 0)) (Some (Num.ofZ 0)) (Some (js "USD")) None))
  = Ok None.
Proof. reflexivity. Qed.

(** ** parseJobFromApi *)

Lemma parseJobFromApi_fields (host : Host) (now : Z) (job : DiceSearchJob.t) (b : Basic.t) :
  parseJobFromApi host now job = Ok b ->
  Basic.id b = orLit (orStr (DiceSearchJob.id job) (DiceSearchJob.guid job)) []
  /\ Basic.url b
     = match DiceSearchJob.detailsPageUrl job with
       | Some u => if startsWith (js "http") u then u else DICE_BASE_URL ++ u
       | None => DICE_BASE_URL ++ js "undefined"
       end
  /\ Basic.postedDateTimestamp b
     = match DiceSearchJob.postedDate job with
       | Some ((_ :: _) as s) =>
           Some (match dateParse host s with
                 | Some t => Num.ofZ t
                 | None => NaN
                 end)
       | _ => None
       end.
Proof.
  unfold parseJobFromApi, bind. intros H.
  destruct (match orStr (DiceSearchJob.salary job) None with
            | Some s => Ok (Some s)
            | None => formatSalary host (DiceSearchJob.salaryEstimate job)
            end) as [salary|e]; [|discriminate].
  injection H as <-. repeat split.
Qed.

Lemma parseJobFromApi_returns (host : Host) (now : Z) (job : DiceSearchJob.t) :
  (forall e, formatSalary host (DiceSearchJob.salaryEstimate job) <> Throw e) ->
  exists b, parseJobFromApi host now job = Ok b.
Proof.
  intros H. unfold parseJobFromApi, bind.
  destruct (orStr (DiceSearchJob.salary job) None); [eexists; reflexivity|].
  destruct (formatSalary host (DiceSearchJob.salaryEstimate job)) as [s|e].
  - eexists; reflexivity.
  - now destruct (H e).
Qed.

(** C9, as amended.  [postedDateTimestamp] is absent exactly when the raw
    posted date is missing or empty.  For a non-empty raw posted date it is
    present and carries the time value of [new Date(raw)]: the epoch
    milliseconds when the string is a date, and [NaN] when it is not.  The
    mapper returns unless the salary formatter throws. *)
Theorem parseJobFromApi_timestamp (host : Host) (now : Z) (job : DiceSearchJob.t) :
  (forall e, formatSalary host (DiceSearchJob.salaryEstimate job) <> Throw e) ->
  exists b, parseJobFromApi host now job = Ok b
  /\ (Basic.postedDateTimestamp b = None
      <-> orLit (DiceSearchJob.postedDate job) [] = [])
  /\ (forall s t, DiceSearchJob.postedDate job = Some s -> dateParse host s = Some t ->
      s <> [] -> Basic.postedDateTimestamp b = Some (Num.ofZ t))
  /\ (forall s, DiceSearchJob.postedDate job = Some s -> dateParse host s = None ->
      s <> [] -> Basic.postedDateTimestamp b = Some NaN).
Proof.
  intros H. destruct (parseJobFromApi_returns host now job H) as [b Hb].
  exists b. split; [exact Hb|].
  destruct (parseJobFromApi_fields host now job b Hb) as [_ [_ Ht]]. rewrite Ht.
  repeat split.
  - destruct (DiceSearchJob.postedDate job) as [[|c r]|]; cbn; congruence.
  - destruct (DiceSearchJob.postedDate job) as [[|c r]|]; cbn; congruence.
  - intros s t -> Hd Hs. destruct s; [congruence|]. now rewrite Hd.
  - intros s -> Hd Hs. destruct s; [congruence|]. now rewrite Hd.
Qed.

Lemma parseJobFromApi_timestamp_witness :
  exists b, parseJobFromApi Sample.host 0 Sample.job = Ok b
            /\ Basic.postedDateTimestamp b = Some NaN.
Proof.
  destruct (parseJobFromApi_timestamp Sample.host 0 Sample.job) as [b [Hb [_ [_ H]]]].
  - intros e. discriminate.
  - exists b. split; [exact Hb|].
    apply (H (js "last week")); [reflexivity|reflexivity|discriminate].
Defined.

(** C9, as stated, fails: a posted date that is not a date still gets a
    timestamp, and the timestamp is [NaN]. *)
Lemma parseJobFromApi_timestamp_NaN :
  dateParse Sample.host (js "last week") = None
  /\ DiceSearchJob.postedDate Sample.job = Some (js "last week")
  /\ exists b, parseJobFromApi Sample.host 0 Sample.job = Ok b
               /\ Basic.postedDateTimestamp b = Some NaN.
Proof.
  split; [reflexivity|]. split; [reflexivity|].
  eexists. split; [vm_compute; reflexivity|reflexivity].
Qed.

(** ** The job cap *)

Section JobCap.


Lemma shouldContinue_spec (r : Router) :
  shouldContinue r = true <-> (maxJobs r = 0 \/ jobsScraped r < maxJobs r)%Z.
Proof.
  unfold shouldContinue. rewrite orb_true_iff, Z.eqb_eq, Z.ltb_lt. tauto.
Qed.

Lemma shouldContinue_false (r : Router) :
  shouldContinue r = false -> (maxJobs r <> 0 /\ maxJobs r <= jobsScraped r)%Z.
Proof.
  unfold shouldContinue. rewrite orb_false_iff, Z.eqb_neq, Z.ltb_ge. tauto.
Qed.

Lemma counted_refl (r : Router) : counted r r 0.
Proof. unfold counted. cbn. repeat split; lia. Qed.

(** A page loop that ends where it stands has added nothing. *)
Ltac loop_ends H :=
  injection H as <- <-; exists []; split; [apply counted_refl|];
  split; [cbn; lia|].

Lemma counted_step (r r' : Router) (n : nat) :
  shouldContinue r = true -> counted (countJob r) r' n -> counted r r' (S n).
Proof.
  intros Hc [H1 [H2 [H3 H4]]]. apply shouldContinue_spec in Hc.
  unfold counted in *. cbn in *. repeat split; try congruence; lia.
Qed.

Lemma processJobs_counted (host : Host) (now : Z) (jobs : list DiceSearchJob.t) :
  forall r acc r' res,
    processJobs host now jobs r acc = (r', res) ->
    exists added,
      counted r r' (List.length added)
      /\ List.length added <= List.length jobs
      /\ forall l, res = Ok l -> l = acc ++ added.
Proof.
  induction jobs as [|job jobs IH]; intros r acc r' res H; cbn in H.
  - loop_ends H. intros l [= <-]. now rewrite app_nil_r.
  - destruct (shouldContinue r) eqn:Hc; cbn in H.
    + destruct (parseJobFromApi host now job) as [parsed|e].
      * apply IH in H as [added [Hn [Hlen Hl]]].
        exists (parsed :: added). split; [now apply counted_step|].
        split; [cbn; lia|]. intros l Hres. rewrite (Hl l Hres).
        now rewrite <- app_assoc.
      * loop_ends H. discriminate.
    + loop_ends H. intros l [= <-]. now rewrite app_nil_r.
Qed.

Lemma processCards_counted (now : Z) (cards : list Card.t) :
  forall index r acc r' l,
    processCards now index cards r acc = (r', l) ->
    exists added,
      counted r r' (List.length added)
      /\ List.length added <= List.length cards
      /\ l = acc ++ added.
Proof.
  induction cards as [|card cards IH]; intros index r acc r' l H; cbn in H.
  - loop_ends H. now rewrite app_nil_r.
  - destruct (shouldContinue r) eqn:Hc; cbn in H.
    + apply IH in H as [added [Hn [Hlen Hl]]].
      exists (cardJob now index card :: added). split; [now apply counted_step|].
      split; [cbn; lia|]. rewrite Hl. now rewrite <- app_assoc.
    + loop_ends H. now rewrite app_nil_r.
Qed.

Lemma processJobs_stopped (host : Host) (now : Z) (jobs : list DiceSearchJob.t)
    (r : Router) (acc : list Basic.t) :
  shouldContinue r = false -> processJobs host now jobs r acc = (r, Ok acc).
Proof. intros H. destruct jobs; cbn; [reflexivity|]. now rewrite H. Qed.

Lemma processCards_stopped (now index : Z) (cards : list Card.t)
    (r : Router) (acc : list Basic.t) :
  shouldContinue r = false -> processCards now index cards r acc = (r, acc).
Proof. intros H. destruct cards; cbn; [reflexivity|]. now rewrite H. Qed.

(** The queue and the dataset grow by what they are given, at most. *)
Lemma detailCount_app (q q' : list Request.t) :
  detailCount (q ++ q') = detailCount q + detailCount q'.
Proof. unfold detailCount. now rewrite filter_app, length_app. Qed.

Lemma addRequest_detailCount (urlKey : jsstring -> jsstring) (q : list Request.t) (r : Request.t) :
  detailCount (addRequest urlKey q r) <= detailCount q + detailCount [r].
Proof.
  unfold addRequest. destruct (known urlKey q r); [lia|]. rewrite detailCount_app. lia.
Qed.

Lemma addRequests_detailCount (urlKey : jsstring -> jsstring) (rs q : list Request.t) :
  detailCount (fold_left (addRequest urlKey) rs q) <= detailCount q + detailCount rs.
Proof.
  revert q. induction rs as [|r rs IH]; intros q.
  { cbn [fold_left]. change (detailCount []) with 0. lia. }
  cbn [fold_left]. specialize (IH (addRequest urlKey q r)).
  pose proof (addRequest_detailCount urlKey q r).
  change (r :: rs) with ([r] ++ rs). rewrite detailCount_app. lia.
Qed.

Lemma detailCount_le_length (q : list Request.t) : detailCount q <= List.length q.
Proof. unfold detailCount. apply filter_length_le. Qed.

Lemma pushAll_dataset (scrapedAt : jsstring) (l : list Basic.t) (w : World) :
  let w' := fold_left (fun w' job => pushData (BasicItem job scrapedAt) w') l w in
  router w' = router w /\ queue w' = queue w
  /\ dataset w' = dataset w ++ List.map (fun job => BasicItem job scrapedAt) l.
Proof.
  revert w. induction l as [|b l IH]; intros w; cbn.
  - now rewrite app_nil_r.
  - destruct (IH (pushData (BasicItem b scrapedAt) w)) as [H1 [H2 H3]].
    cbn in *. rewrite H1, H2, H3. now rewrite <- app_assoc.
Qed.

Lemma emitJobs_effect (urlKey : jsstring -> jsstring)
    (scrapedAt : jsstring) (l : list Basic.t) (w : World) :
  let w' := emitJobs urlKey scrapedAt l w in
  router w' = router w
  /\ detailCount (queue w') <= detailCount (queue w) + List.length l
  /\ List.length (dataset w') <= List.length (dataset w) + List.length l.
Proof.
  unfold emitJobs. destruct (scrapeJobDetails (router w) && (0 <? List.length l)).
  - cbn [addRequests router queue dataset]. split; [reflexivity|]. split; [|lia].
    pose proof (addRequests_detailCount urlKey (List.map detailRequest l) (queue w)).
    pose proof (detailCount_le_length (List.map detailRequest l)).
    rewrite length_map in *. lia.
  - destruct (pushAll_dataset scrapedAt l w) as [H1 [H2 H3]].
    cbn zeta in *. rewrite H1, H2, H3. split; [reflexivity|].
    rewrite length_app, length_map. lia.
Qed.

Lemma searchApiHandler_stopped (urlKey : jsstring -> jsstring)
    (host : Host) (iso : Z -> jsstring) (now : Z)
    (request : Request.t) (sp : SearchParams.t)
    (response : result (option DiceSearchResponse.t)) (w : World) :
  UserData.searchParams (Request.userData request) = Some sp ->
  shouldContinue (router w) = false ->
  searchApiHandler urlKey host iso now request response w = (w, Ok tt).
Proof. intros Hsp Hc. unfold searchApiHandler. now rewrite Hsp, Hc. Qed.

Lemma searchHandler_stopped (urlKey : jsstring -> jsstring)
    (urlWithPage : jsstring -> Z -> jsstring)
    (iso : Z -> jsstring) (now : Z) (request : Request.t) (doc : SearchPage.t)
    (w : World) :
  shouldContinue (router w) = false ->
  searchHandler urlKey urlWithPage iso now request doc w = (w, Ok tt).
Proof. intros Hc. unfold searchHandler. now rewrite Hc. Qed.

(** One invocation of the API handler under a cap: the counter stays within
    the cap, and no more JOB_DETAIL requests or records are added than the
    cap leaves room for. *)
Lemma searchApiHandler_capped (urlKey : jsstring -> jsstring)
    (host : Host) (iso : Z -> jsstring) (now : Z)
    (request : Request.t) (response : result (option DiceSearchResponse.t))
    (w : World) :
  (0 < maxJobs (router w))%Z -> (jobsScraped (router w) <= maxJobs (router w))%Z ->
  let w' := fst (searchApiHandler urlKey host iso now request response w) in
  (jobsScraped (router w) <= jobsScraped (router w') <= maxJobs (router w))%Z
  /\ (Z.of_nat (detailCount (queue w'))
      <= Z.of_nat (detailCount (queue w))
         + (jobsScraped (router w') - jobsScraped (router w)))%Z
  /\ (Z.of_nat (List.length (dataset w'))
      <= Z.of_nat (List.length (dataset w))
         + (jobsScraped (router w') - jobsScraped (router w)))%Z.
Proof.
  intros Hpos Hle. unfold searchApiHandler.
  destruct (UserData.searchParams (Request.userData request)) as [sp|];
    [|cbn; lia].
  destruct (shouldContinue (router w)); cbn [negb]; [|cbn; lia].
  destruct response as [[data|]|e]; [|cbn; lia|cbn; lia].
  destruct (DiceSearchResponse.data data) as [jobs|]; [|cbn; lia].
  destruct (processJobs host now jobs (router w) []) as [r res] eqn:Hp.
  apply processJobs_counted in Hp as [added [[H1 [H2 [H3 H4]]] [_ Hl]]].
  destruct res as [l|e].
  - rewrite (Hl l eq_refl). cbn [app].
    destruct (emitJobs_effect urlKey (isoNow iso now) added (setRouter r w)) as [E1 [E2 E3]].
    cbn zeta in *. cbn [router queue dataset setRouter] in E1, E2, E3.
    specialize (H4 Hpos Hle).
    assert (Hq : detailCount
                   (queue (addRequests urlKey [nextPageRequest sp]
                             (emitJobs urlKey (isoNow iso now) added (setRouter r w))))
                 <= detailCount (queue (emitJobs urlKey (isoNow iso now) added (setRouter r w)))).
    { cbn [addRequests queue fold_left].
      pose proof (addRequest_detailCount urlKey
                    (queue (emitJobs urlKey (isoNow iso now) added (setRouter r w)))
                    (nextPageRequest sp)) as Hn.
      cbn in Hn. lia. }
    destruct (shouldContinue (router (emitJobs urlKey (isoNow iso now) added (setRouter r w)))
              && (SearchParams.page sp <? totalPagesOf data)%Z);
      cbn [fst]; [cbn [addRequests router dataset]|]; rewrite ?E1; lia.
  - cbn [fst setRouter router queue dataset]. specialize (H4 Hpos Hle). lia.
Qed.

End JobCap.

(** C3.  [shouldContinue] holds exactly when [maxJobs] is 0 or the counter
    is below it; both search handlers leave everything as it is when it
    fails on entry; both page loops ask it before each record and produce
    nothing more once it fails, so that under a cap the counter never passes
    the cap; and an invocation of the API handler with [jobsScraped = 0] and
    [maxJobs = 1], whatever the page holds (five jobs, say), produces at most
    one record and adds at most one JOB_DETAIL request. *)
Theorem job_cap_enforced (urlKey : jsstring -> jsstring) :
  (forall r, shouldContinue r = true
             <-> (maxJobs r = 0 \/ jobsScraped r < maxJobs r)%Z)
  /\ (forall host iso now request sp response w,
        UserData.searchParams (Request.userData request) = Some sp ->
        shouldContinue (router w) = false ->
        searchApiHandler urlKey host iso now request response w = (w, Ok tt))
  /\ (forall urlWithPage iso now request doc w,
        shouldContinue (router w) = false ->
        searchHandler urlKey urlWithPage iso now request doc w = (w, Ok tt))
  /\ (forall host now jobs r acc,
        (shouldContinue r = false -> processJobs host now jobs r acc = (r, Ok acc))
        /\ forall r' l, processJobs host now jobs r acc = (r', Ok l) ->
             exists added, l = acc ++ added
               /\ jobsScraped r' = (jobsScraped r + Z.of_nat (List.length added))%Z
               /\ ((0 < maxJobs r)%Z -> (jobsScraped r <= maxJobs r)%Z ->
                   (jobsScraped r' <= maxJobs r)%Z))
  /\ (forall now index cards r acc,
        (shouldContinue r = false -> processCards now index cards r acc = (r, acc))
        /\ forall r' l, processCards now index cards r acc = (r', l) ->
             exists added, l = acc ++ added
               /\ jobsScraped r' = (jobsScraped r + Z.of_nat (List.length added))%Z
               /\ ((0 < maxJobs r)%Z -> (jobsScraped r <= maxJobs r)%Z ->
                   (jobsScraped r' <= maxJobs r)%Z))
  /\ (forall host iso now request response w,
        jobsScraped (router w) = 0%Z -> maxJobs (router w) = 1%Z ->
        let w' := fst (searchApiHandler urlKey host iso now request response w) in
        (jobsScraped (router w') <= 1)%Z
        /\ detailCount (queue w') <= detailCount (queue w) + 1
        /\ List.length (dataset w') <= List.length (dataset w) + 1).
Proof.
  split; [exact shouldContinue_spec|].
  split; [exact (searchApiHandler_stopped urlKey)|].
  split; [exact (searchHandler_stopped urlKey)|].
  split; [|split].
  - intros host now jobs r acc. split; [apply processJobs_stopped|].
    intros r' l H. apply processJobs_counted in H as [added [[_ [_ [H3 H4]]] [_ Hl]]].
    exists added. now rewrite (Hl l eq_refl).
  - intros now index cards r acc. split; [apply processCards_stopped|].
    intros r' l H. apply processCards_counted in H as [added [[_ [_ [H3 H4]]] [_ Hl]]].
    now exists added.
  - intros host iso now request response w H0 H1.
    pose proof (searchApiHandler_capped urlKey host iso now request response w) as H.
    cbn zeta in *. rewrite H0, H1 in H. lia.
Qed.

Lemma job_cap_enforced_witness :
  let w := Sample.world 1 true in
  let page := [Sample.job; Sample.job; Sample.job; Sample.job; Sample.job] in
  let w' := fst (searchApiHandler Sample.urlKey Sample.host Sample.iso 0 Sample.apiRequest
                   (Sample.response page 1) w) in
  List.length page = 5
  /\ (jobsScraped (router w') <= 1)%Z
  /\ detailCount (queue w') <= detailCount (queue w) + 1
  /\ List.length (dataset w') <= List.length (dataset w) + 1.
Proof.
  cbn zeta. split; [reflexivity|].
  apply (proj2 (proj2 (proj2 (proj2 (proj2 (job_cap_enforced Sample.urlKey)))))); reflexivity.
Defined.

Example searchApi_five_jobs_cap_one :
  let w' := fst (searchApiHandler Sample.urlKey Sample.host Sample.iso 0 Sample.apiRequest
                   (Sample.response
                      [Sample.job; Sample.job; Sample.job; Sample.job; Sample.job] 1)
                   (Sample.world 1 true)) in
  jobsScraped (router w') = 1%Z /\ List.length (queue w') = 1 /\ dataset w' = [].
Proof. vm_compute. repeat split. Qed.

(** ** The next page *)

Section NextPage.

Lemma js_inj (a b : String.string) : js a = js b -> a = b.
Proof.
  unfold js. intros H.
  rewrite <- (string_of_list_ascii_of_string a), <- (string_of_list_ascii_of_string b).
  f_equal. revert H.
  generalize (list_ascii_of_string a) (list_ascii_of_string b).
  induction l as [|x l IH]; intros [|y l'] H; try discriminate; [reflexivity|].
  cbn in H. injection H as Hx Hl. f_equal; [|now apply IH].
  rewrite <- (ascii_N_embedding x), <- (ascii_N_embedding y). now rewrite Hx.
Qed.

Lemma ofZ_inj (a b : Z) : Str.ofZ a = Str.ofZ b -> a = b.
Proof.
  unfold Str.ofZ. intros H. apply js_inj in H.
  apply DecimalZ.to_int_inj.
  assert (E : Some (Z.to_int a) = Some (Z.to_int b)).
  { rewrite <- !NilEmpty.isi. now rewrite H. }
  now injection E.
Qed.

Lemma known_last (urlKey : jsstring -> jsstring)
    (q : list Request.t) (r : Request.t) : known urlKey (q ++ [r]) r = true.
Proof.
  unfold known. rewrite existsb_app. cbn. now rewrite jsstring_eqb_refl, orb_true_r.
Qed.

Lemma addRequest_idem (urlKey : jsstring -> jsstring) (q : list Request.t) (r : Request.t) :
  addRequest urlKey (addRequest urlKey q r) r = addRequest urlKey q r.
Proof.
  unfold addRequest. destruct (known urlKey q r) eqn:E; [now rewrite E|].
  now rewrite known_last.
Qed.

Lemma addRequests_known (urlKey : jsstring -> jsstring) (r : Request.t) (w : World) :
  known urlKey (queue w) r = true -> addRequests urlKey [r] w = w.
Proof.
  intros H. destruct w as [rt q d]. unfold addRequests, addRequest. cbn in *.
  now rewrite H.
Qed.

Lemma addRequests_twice (urlKey : jsstring -> jsstring) (r : Request.t) (w : World) :
  addRequests urlKey [r] (addRequests urlKey [r] w) = addRequests urlKey [r] w.
Proof. unfold addRequests. cbn. now rewrite addRequest_idem. Qed.

Lemma nextPage_key_inj (urlKey : jsstring -> jsstring) (sp sp' : SearchParams.t) :
  keyOf urlKey (nextPageRequest sp') = keyOf urlKey (nextPageRequest sp) ->
  SearchParams.page sp' = SearchParams.page sp.
Proof.
  unfold keyOf, nextPageRequest. cbn [Request.uniqueKey]. intros H.
  apply app_inv_head in H. apply ofZ_inj in H. lia.
Qed.

End NextPage.

(** C5.  Once a page has been processed, the handler adds the request for
    the next page exactly when [shouldContinue] still holds and the page
    number is below the total the response reports (a response that reports
    none gets no next page).  When it does, the queue knows the request
    afterwards: it has taken it at its end, unless it knew its key already,
    in which case it is left as it was; when it does not, nothing is added.
    That request is a SEARCH_API request carrying the current parameters
    with [page] alone changed, to [page + 1]; its unique key is made of the
    page number, so that adding it a second time changes nothing, and
    requests for different pages have different keys. *)
Theorem searchApi_next_page (urlKey : jsstring -> jsstring) (host : Host)
    (iso : Z -> jsstring) (now : Z)
    (request : Request.t) (sp : SearchParams.t) (data : DiceSearchResponse.t)
    (jobs : list DiceSearchJob.t) (r1 : Router) (l : list Basic.t) (w : World) :
  UserData.searchParams (Request.userData request) = Some sp ->
  shouldContinue (router w) = true ->
  DiceSearchResponse.data data = Some jobs ->
  (1 <= SearchParams.page sp)%Z ->
  processJobs host now jobs (router w) [] = (r1, Ok l) ->
  let w1 := emitJobs urlKey (iso now) l (setRouter r1 w) in
  let next := nextPageRequest sp in
  let below := match reportedTotalPages data with
               | Some tp => (SearchParams.page sp <? tp)%Z
               | None => false
               end in
  let w' := fst (searchApiHandler urlKey host iso now request (Ok (Some data)) w) in
  searchApiHandler urlKey host iso now request (Ok (Some data)) w
  = (if shouldContinue r1 && below then addRequests urlKey [next] w1 else w1, Ok tt)
  /\ (shouldContinue r1 && below = true ->
      known urlKey (queue w') next = true
      /\ (known urlKey (queue w1) next = false -> queue w' = queue w1 ++ [next])
      /\ (known urlKey (queue w1) next = true -> queue w' = queue w1)
      /\ router w' = router w1 /\ dataset w' = dataset w1)
  /\ (shouldContinue r1 && below = false -> w' = w1)
  /\ Request.label next = SEARCH_API
  /\ Request.url next = DICE_API_URL ++ js "?page=" ++ Str.ofZ (SearchParams.page sp + 1)
  /\ UserData.page (Request.userData next) = Some (SearchParams.page sp + 1)%Z
  /\ UserData.searchParams (Request.userData next)
     = Some (SearchParams.mk (SearchParams.query sp) (SearchParams.location sp)
               (SearchParams.radius sp) (SearchParams.employmentTypes sp)
               (SearchParams.postedDate sp) (SearchParams.workplaceTypes sp)
               (SearchParams.easyApply sp) (SearchParams.page sp + 1)
               (SearchParams.pageSize sp))
  /\ Request.uniqueKey next
     = Some (js "search-page-" ++ Str.ofZ (SearchParams.page sp + 1))
  /\ (forall w0, addRequests urlKey [next] (addRequests urlKey [next] w0)
                 = addRequests urlKey [next] w0)
  /\ (forall w0, known urlKey (queue w0) next = true -> addRequests urlKey [next] w0 = w0)
  /\ (forall sp', keyOf urlKey (nextPageRequest sp') = keyOf urlKey next ->
      SearchParams.page sp' = SearchParams.page sp).
Proof.
  intros Hsp Hc Hd Hpage Hp. cbn zeta.
  assert (Hh : searchApiHandler urlKey host iso now request (Ok (Some data)) w
               = (if shouldContinue r1
                     && match reportedTotalPages data with
                        | Some tp => (SearchParams.page sp <? tp)%Z
                        | None => false
                        end
                  then addRequests urlKey [nextPageRequest sp]
                         (emitJobs urlKey (iso now) l (setRouter r1 w))
                  else emitJobs urlKey (iso now) l (setRouter r1 w), Ok tt)).
  { unfold searchApiHandler. rewrite Hsp, Hc, Hd, Hp. cbn [negb].
    destruct (emitJobs_effect urlKey (isoNow iso now) l (setRouter r1 w)) as [E _].
    cbn zeta in E. cbn [setRouter router] in E. unfold isoNow in *. rewrite E.
    unfold totalPagesOf.
    assert (Hlow : forall n, (n <= 1)%Z -> (SearchParams.page sp <? n)%Z = false).
    { intros n Hn. apply Z.ltb_ge. lia. }
    destruct (reportedTotalPages data) as [tp|].
    + destruct (tp =? 0)%Z eqn:E0.
      * apply Z.eqb_eq in E0. subst tp.
        rewrite !Hlow by lia. now rewrite andb_false_r.
      * now destruct (shouldContinue r1 && (SearchParams.page sp <? tp)%Z).
    + rewrite Hlow by lia. now rewrite andb_false_r. }
  rewrite Hh.
  split; [reflexivity|]. split; [|split; [|repeat split]].
  - intros Hm. rewrite Hm. cbn [fst addRequests fold_left queue router dataset].
    unfold addRequest.
    destruct (known urlKey (queue (emitJobs urlKey (iso now) l (setRouter r1 w)))
                (nextPageRequest sp)) eqn:Ek.
    + repeat split; try reflexivity; try assumption. discriminate.
    + repeat split; try reflexivity; try discriminate. apply known_last.
  - intros Hm. now rewrite Hm.
  - intros w0. apply addRequests_twice.
  - intros w0. apply addRequests_known.
  - intros sp'. apply nextPage_key_inj.
Qed.

Lemma searchApi_next_page_witness :
  let w := mkWorld (mkRouter 0 100 false) [Cases.htmlRequest] [] in
  let w' := fst (searchApiHandler Sample.urlKey Sample.host Sample.iso 0 Sample.apiRequest
                   (Sample.response [Sample.job] 3) w) in
  queue w' = [Cases.htmlRequest; nextPageRequest Sample.params].
Proof.
  cbn zeta.
  assert (Hp : processJobs Sample.host 0 [Sample.job] (mkRouter 0 100 false) []
               = (mkRouter 1 100 false, Ok [Sample.parsed])).
  { vm_compute. reflexivity. }
  assert (Hpage : (1 <= SearchParams.page Sample.params)%Z).
  { cbn. lia. }
  destruct (searchApi_next_page Sample.urlKey Sample.host Sample.iso 0 Sample.apiRequest
              Sample.params
              (DiceSearchResponse.mk (Some [Sample.job])
                 (Some (Meta.mk (Some 1%Z) (Some 3%Z))))
              [Sample.job] (mkRouter 1 100 false) [Sample.parsed]
              (mkWorld (mkRouter 0 100 false) [Cases.htmlRequest] [])
              eq_refl eq_refl eq_refl Hpage Hp) as [_ [H _]].
  destruct H as [_ [H _]]; [reflexivity|].
  unfold Sample.response. cbn [List.length Z.of_nat Pos.of_succ_nat].
  rewrite H; reflexivity.
Defined.

Example searchApi_last_page :
  queue (fst (searchApiHandler Sample.urlKey Sample.host Sample.iso 0 Sample.apiRequest
                (Sample.response [Sample.job; Sample.job] 1) (Sample.world 100 false)))
  = []
  /\ List.length
       (dataset (fst (searchApiHandler Sample.urlKey Sample.host Sample.iso 0 Sample.apiRequest
                        (Sample.response [Sample.job; Sample.job] 1)
                        (Sample.world 100 false))))
     = 2.
Proof. vm_compute. split; reflexivity. Qed.

(** ** JOB_DETAIL *)

(** C4.  For a request that carries a basic record: when the extraction
    throws, the handler stores that record with the time stamp and the
    [error] marker and returns normally; when it returns a full record, that
    record is what the handler stores.  Nothing else is touched, and the
    handler never throws. *)
Theorem jobDetail_degrades (iso : Z -> jsstring) (now : Z) (request : Request.t)
    (b : Basic.t) (doc : result DetailPage.t) (w : World) :
  UserData.jobBasic (Request.userData request) = Some b ->
  (forall e, extractJobDetails iso now doc (Some b) (Request.url request) = Throw e ->
     jobDetailHandler iso now request doc w
     = (mkWorld (router w) (queue w)
          (dataset w ++ [FailedItem b (iso now) (js "Failed to extract full details")]),
        Ok tt))
  /\ (forall f, extractJobDetails iso now doc (Some b) (Request.url request) = Ok f ->
     jobDetailHandler iso now request doc w
     = (mkWorld (router w) (queue w) (dataset w ++ [FullItem f]), Ok tt))
  /\ snd (jobDetailHandler iso now request doc w) = Ok tt
  /\ (forall e, doc = Throw e ->
      extractJobDetails iso now doc (Some b) (Request.url request) = Throw e).
Proof.
  intros Hb. unfold jobDetailHandler. rewrite Hb. repeat split.
  - intros e He. now rewrite He.
  - intros f Hf. now rewrite Hf.
  - now destruct (extractJobDetails iso now doc (Some b) (Request.url request)).
  - now intros e ->.
Qed.

Lemma jobDetail_degrades_witness :
  jobDetailHandler Sample.iso 5 (Sample.detailRequestFor (Some Sample.basic))
    (Throw (js "TypeError")) (Sample.world 100 true)
  = (mkWorld (mkRouter 0 100 true) []
       [FailedItem Sample.basic (js "T5") (js "Failed to extract full details")],
     Ok tt).
Proof.
  destruct (jobDetail_degrades Sample.iso 5 (Sample.detailRequestFor (Some Sample.basic))
              Sample.basic (Throw (js "TypeError")) (Sample.world 100 true) eq_refl)
    as [H _].
  apply (H (js "TypeError")). reflexivity.
Defined.

(** ** Identity of the stored records *)

Section Identity.

Lemma orLit_filled (a : option jsstring) (d : jsstring) : d <> [] -> orLit a d <> [].
Proof. intros Hd. destruct a as [[|c r]|]; cbn; congruence. Qed.

Lemma startsWith_http (u : jsstring) : startsWith (js "http") u = true -> u <> [].
Proof. now destruct u. Qed.

(** The mapper always gives a URL. *)
Lemma parseJobFromApi_url (host : Host) (now : Z) (job : DiceSearchJob.t) (b : Basic.t) :
  parseJobFromApi host now job = Ok b -> Basic.url b <> [].
Proof.
  intros H. destruct (parseJobFromApi_fields host now job b H) as [_ [Hu _]].
  rewrite Hu. destruct (DiceSearchJob.detailsPageUrl job) as [u|]; [|discriminate].
  destruct (startsWith (js "http") u) eqn:E; [now apply startsWith_http|discriminate].
Qed.

(** Its [id] is empty exactly when the job has neither [id] nor [guid]. *)
Lemma parseJobFromApi_id (host : Host) (now : Z) (job : DiceSearchJob.t) (b : Basic.t) :
  parseJobFromApi host now job = Ok b ->
  (Basic.id b = []
   <-> orLit (DiceSearchJob.id job) [] = [] /\ orLit (DiceSearchJob.guid job) [] = []).
Proof.
  intros H. destruct (parseJobFromApi_fields host now job b H) as [Hi _].
  rewrite Hi.
  destruct (DiceSearchJob.id job) as [[|c r]|], (DiceSearchJob.guid job) as [[|c' r']|];
    cbn; split; try intros [? ?]; try split; congruence.
Qed.

(** The HTML handler makes up an [id] when the URL holds none. *)
Lemma cardJob_identified (now index : Z) (card : Card.t) :
  Basic.id (cardJob now index card) <> [] /\ Basic.url (cardJob now index card) <> [].
Proof.
  unfold cardJob. cbn [Basic.id Basic.url]. split.
  - apply orLit_filled. discriminate.
  - destruct (startsWith (js "http") (orLit (Card.href card) [])) eqn:E;
      [now apply startsWith_http|discriminate].
Qed.

(** So does the detail extractor. *)
Lemma buildJobDetail_identified (iso : Z -> jsstring) (now : Z) (page : DetailPage.t)
    (jobBasic : option Basic.t) (url : jsstring) :
  Full.id (buildJobDetail iso now page jobBasic url) <> []
  /\ Full.url (buildJobDetail iso now page jobBasic url) = url.
Proof.
  unfold buildJobDetail. cbn [Full.id Full.url]. split; [|reflexivity].
  apply orLit_filled. discriminate.
Qed.

End Identity.

(** C1.  A job of the API with an empty [id] and no [guid] is mapped to a
    record whose [id] is the empty string.  With detail scraping off the
    search handler stores that record as it is, and when the extraction of
    its detail page throws the detail handler stores it too; the HTML handler
    and the detail extractor, for their part, make up an [id] in that
    case. *)
Theorem stored_record_without_id :
  let stored := dataset (fst (searchApiHandler Sample.urlKey Sample.host Sample.iso 0
                                Sample.apiRequest (Sample.response [Sample.job] 1)
                                (Sample.world 100 false))) in
  let degraded := dataset (fst (jobDetailHandler Sample.iso 0
                                  (Sample.detailRequestFor (Some Sample.parsed))
                                  (Throw (js "TypeError"))
                                  (Sample.world 100 true))) in
  stored = [BasicItem Sample.parsed (js "T0")]
  /\ degraded = [FailedItem Sample.parsed (js "T0") (js "Failed to extract full details")]
  /\ List.map itemId stored = [[]]
  /\ List.map itemId degraded = [[]]
  /\ List.map itemUrl stored = [js "https://www.dice.com/job-detail/abc-123"].
Proof. vm_compute. repeat split. Qed.

(** ** The merge of the basic record and the detail page *)

Create HintDb merge.

Section Merge.

Lemma mergeLaw_orStr (d b : option jsstring) : mergeLaw nonEmpty d b (orStr d b).
Proof. destruct d as [[|c r]|]; reflexivity. Qed.

Lemma mergeLaw_orNum (d b : option number) : mergeLaw truthy d b (orNum d b).
Proof.
  destruct d as [n|]; [|reflexivity]. cbn. now destruct (truthy n).
Qed.

Lemma mergeLaw_orUndefined (d : option jsstring) :
  mergeLaw nonEmpty d None (orUndefined d).
Proof. apply mergeLaw_orStr. Qed.

Lemma mergeLaw_nonEmptyList {A : Type} (l : list A) :
  mergeLaw (fun l => 0 <? List.length l) (Some l) None (nonEmptyList l).
Proof. now destruct l. Qed.

(** A value of the basic record that is filled is never lost: the merged
    field is filled too. *)
Lemma mergeLaw_keeps {A : Type} (filled : A -> bool) (d b f : option A) (v : A) :
  mergeLaw filled d b f -> b = Some v -> filled v = true ->
  exists v', f = Some v' /\ filled v' = true.
Proof.
  unfold mergeLaw. intros H -> Hv. destruct d as [x|].
  - destruct (filled x) eqn:E; [now exists x|now exists v].
  - now exists v.
Qed.

Lemma orStr_keeps (d b : option jsstring) :
  truthyStr b = true -> truthyStr (orStr d b) = true.
Proof. now destruct d as [[|c r]|]. Qed.

Lemma orNum_keeps (d b : option number) :
  truthyNum b = true -> truthyNum (orNum d b) = true.
Proof.
  destruct d as [n|]; [|trivial]. cbn. now destruct (truthy n) eqn:E; cbn; rewrite ?E.
Qed.

End Merge.

#[local] Hint Resolve mergeLaw_orStr mergeLaw_orUndefined orStr_keeps orNum_keeps : merge.

(** C2, as amended.  In the full record built from a page and a basic
    record: [salary], [jobType], [workplaceType] and [easyApply] follow the
    merge law, the detail value being the cleaned text of the page (for
    [easyApply], the presence of the badge); [companyId], [employmentType],
    [postedDateTimestamp] and [summary] are those of the basic record;
    [salaryMin], [salaryMax] and [salaryPeriod] follow the law with, as
    detail value, what is parsed from the merged [salary] text;
    [salaryCurrency] follows it with the literal [USD] standing in for a
    missing basic value, so it is never absent; [description] is always
    present, and [descriptionHtml] whenever it is shorter than 50000; the
    fields read from the page alone ([skills], [experienceLevel],
    [educationLevel], [benefits], [companyDescription], [companyLogo],
    [applicationUrl]) are absent when the page gives nothing.  A field of the
    basic record that is filled is filled in the full record. *)
Theorem extractJobDetails_merge (iso : Z -> jsstring) (now : Z) (page : DetailPage.t)
    (jobBasic : option Basic.t) (url : jsstring) :
  let F := buildJobDetail iso now page jobBasic url in
  let parsed (A : Type) (f : Salary.t -> A) : option A :=
    option_map f (parseSalaryFromText (orLit (Full.salary F) [])) in
  let description := cleanText (DetailPage.description page) in
  extractJobDetails iso now (Ok page) jobBasic url = Ok F
  /\ mergeLaw nonEmpty (Some (cleanText (DetailPage.salary page)))
       (ofBasic jobBasic Basic.salary) (Full.salary F)
  /\ mergeLaw nonEmpty (Some (cleanText (DetailPage.jobType page)))
       (ofBasic jobBasic Basic.jobType) (Full.jobType F)
  /\ mergeLaw nonEmpty (Some (cleanText (DetailPage.workplaceType page)))
       (ofBasic jobBasic Basic.workplaceType) (Full.workplaceType F)
  /\ mergeLaw (fun b : bool => b) (Some (0 <? DetailPage.easyApplyBadges page))
       (ofBasic jobBasic Basic.easyApply) (Full.easyApply F)
  /\ Full.companyId F = ofBasic jobBasic Basic.companyId
  /\ Full.employmentType F = ofBasic jobBasic Basic.employmentType
  /\ Full.postedDateTimestamp F = ofBasic jobBasic Basic.postedDateTimestamp
  /\ Full.summary F = ofBasic jobBasic Basic.summary
  /\ mergeLaw truthy (parsed _ Salary.min)
       (ofBasic jobBasic Basic.salaryMin) (Full.salaryMin F)
  /\ mergeLaw truthy (parsed _ Salary.max)
       (ofBasic jobBasic Basic.salaryMax) (Full.salaryMax F)
  /\ mergeLaw nonEmpty (parsed _ Salary.period)
       (ofBasic jobBasic Basic.salaryPeriod) (Full.salaryPeriod F)
  /\ mergeLaw nonEmpty (parsed _ Salary.currency)
       (orStr (ofBasic jobBasic Basic.salaryCurrency) (Some (js "USD")))
       (Full.salaryCurrency F)
  /\ Full.salaryCurrency F <> None
  /\ Full.description F = Some description
  /\ Full.descriptionHtml F
     = (let html := orLit (DetailPage.descriptionHtml page) [] in
        if (Z.of_nat (List.length html) <? 50000)%Z then Some html else None)
  /\ mergeLaw nonEmpty
       (orStr (Some (cleanText (DetailPage.experienceLevel page)))
              (extractExperienceLevel description))
       None (Full.experienceLevel F)
  /\ mergeLaw nonEmpty
       (orStr (Some (cleanText (DetailPage.educationLevel page)))
              (extractEducationLevel description))
       None (Full.educationLevel F)
  /\ mergeLaw nonEmpty (Some (cleanText (DetailPage.companyDescription page)))
       None (Full.companyDescription F)
  /\ mergeLaw nonEmpty (DetailPage.companyLogoSrc page) None (Full.companyLogo F)
  /\ mergeLaw nonEmpty (DetailPage.applyHref page) None (Full.applicationUrl F)
  /\ (DetailPage.skills page = [] -> extractSkills description = [] ->
      Full.skills F = None)
  /\ (DetailPage.benefits page = [] -> Full.benefits F = None)
  /\ (truthyStr (ofBasic jobBasic Basic.salary) = true ->
      truthyStr (Full.salary F) = true)
  /\ (truthyStr (ofBasic jobBasic Basic.jobType) = true ->
      truthyStr (Full.jobType F) = true)
  /\ (truthyStr (ofBasic jobBasic Basic.workplaceType) = true ->
      truthyStr (Full.workplaceType F) = true)
  /\ (truthyStr (ofBasic jobBasic Basic.salaryPeriod) = true ->
      truthyStr (Full.salaryPeriod F) = true)
  /\ (truthyNum (ofBasic jobBasic Basic.salaryMin) = true ->
      truthyNum (Full.salaryMin F) = true)
  /\ (truthyNum (ofBasic jobBasic Basic.salaryMax) = true ->
      truthyNum (Full.salaryMax F) = true).
Proof.
  cbn zeta. split; [reflexivity|].
  unfold buildJobDetail. cbn [Full.salary Full.jobType Full.workplaceType
    Full.easyApply Full.companyId Full.employmentType Full.postedDateTimestamp
    Full.summary Full.salaryMin Full.salaryMax Full.salaryPeriod Full.salaryCurrency
    Full.description Full.descriptionHtml Full.experienceLevel Full.educationLevel
    Full.companyDescription Full.companyLogo Full.applicationUrl Full.skills
    Full.benefits].
  set (salary := orStr (Some (cleanText (DetailPage.salary page)))
                       (ofBasic jobBasic Basic.salary)).
  set (data := parseSalaryFromText (orLit salary [])).
  repeat split; auto with merge.
  - unfold mergeLaw. destruct (0 <? DetailPage.easyApplyBadges page); reflexivity.
  - destruct data as [d|]; [|exact eq_refl]. apply (mergeLaw_orNum (Some (Salary.min d))).
  - destruct data as [d|]; [|exact eq_refl]. apply (mergeLaw_orNum (Some (Salary.max d))).
  - destruct data as [d|]; cbn [option_map mergeLaw].
    + destruct (Salary.currency d) as [|c r]; [|exact eq_refl]. cbn.
      now destruct (ofBasic jobBasic Basic.salaryCurrency) as [[|c r]|].
    + now destruct (ofBasic jobBasic Basic.salaryCurrency) as [[|c r]|].
  - discriminate.
  - intros Hs He. rewrite Hs, He. reflexivity.
  - intros Hb. rewrite Hb. reflexivity.
  - apply orStr_keeps.
Qed.

Lemma extractJobDetails_merge_witness :
  let F := buildJobDetail Sample.iso 0 Sample.emptyPage (Some Sample.basic)
             (js "https://www.dice.com/job-detail/abc-123") in
  Full.benefits F = None /\ truthyStr (Full.salary F) = true.
Proof.
  cbn zeta.
  pose proof (extractJobDetails_merge Sample.iso 0 Sample.emptyPage (Some Sample.basic)
                (js "https://www.dice.com/job-detail/abc-123")) as H.
  cbn zeta in H.
  destruct H as [_ [_ [_ [_ [_ [_ [_ [_ [_ [_ [_ [_ [_ [_ [_ [_ [_ [_ [_ [_ [_
                [_ [Hb [Hs _]]]]]]]]]]]]]]]]]]]]]]]].
  split; [apply Hb|apply Hs]; reflexivity.
Defined.

(** C2, as stated, fails: on a page that gives nothing, and without a basic
    record, [salaryCurrency] is present all the same. *)
Lemma extractJobDetails_currency_placeholder :
  let F := buildJobDetail Sample.iso 0 Sample.emptyPage None
             (js "https://www.dice.com/job-detail/abc-123") in
  ~ mergeLaw nonEmpty
      (option_map Salary.currency
         (parseSalaryFromText (cleanText (DetailPage.salary Sample.emptyPage))))
      (ofBasic None Basic.salaryCurrency)
      (Full.salaryCurrency F).
Proof. vm_compute. discriminate. Qed.

(** The figures of the basic record give way to those parsed from its own
    salary text. *)
Example extractJobDetails_reparses_basic_salary :
  let F := buildJobDetail Sample.iso 0 Sample.emptyPage (Some Sample.basic)
             (js "https://www.dice.com/job-detail/abc-123") in
  Basic.salaryMin Sample.basic = Some (Num.ofZ 85000)
  /\ Full.salaryMin F = Some (Num.ofZ 80000)
  /\ Basic.salaryPeriod Sample.basic = Some (js "YEAR")
  /\ Full.salaryPeriod F = Some (js "year").
Proof. vm_compute. repeat split. Qed.

(** ** The unit tests of the repository *)

Example test_formatSalary_range :
  formatSalary Sample.host
    (Some (Estimate.mk (Some (Num.ofZ 80000)) (Some (Num.ofZ 120000))
             (Some (js "USD")) (Some (js "YEAR"))))
  = Ok (Some (js "$80,000 - $120,000/year")).
Proof. vm_compute. reflexivity. Qed.

Example test_formatSalary_single :
  formatSalary Sample.host
    (Some (Estimate.mk (Some (Num.ofZ 50)) None (Some (js "USD")) (Some (js "HOUR"))))
  = Ok (Some (js "$50/hour")).
Proof. vm_compute. reflexivity. Qed.

Example test_formatSalary_empty :
  formatSalary Sample.host None = Ok None
  /\ formatSalary Sample.host (Some (Estimate.mk None None None None)) = Ok None.
Proof. split; reflexivity. Qed.

Example test_cleanText_entities :
  cleanText (js "Hello&nbsp;World") = js "Hello World"
  /\ cleanText (js "<p>Hello</p>") = js "Hello"
  /\ cleanText (js "   ") = [] /\ cleanText [] = [].
Proof. vm_compute. repeat split. Qed.

Example test_extractSkills_languages :
  extractSkills (js "We need Python, JavaScript, and Java developers")
  = [js "Python"; js "JavaScript"; js "Java"].
Proof. vm_compute. reflexivity. Qed.

Example test_extractSkills_frameworks :
  extractSkills (js "Experience with React, Angular, and Node.js required")
  = [js "React"; js "Angular"; js "Node.js"].
Proof. vm_compute. reflexivity. Qed.

Example test_extractSkills_cloud :
  extractSkills (js "AWS, Azure, or GCP experience preferred")
  = [js "AWS"; js "Azure"; js "GCP"].
Proof. vm_compute. reflexivity. Qed.

Example test_extractJobIdFromUrl :
  extractJobIdFromUrl (js "https://www.dice.com/job-detail/abc123-def456-789")
  = Some (js "abc123-def456-789")
  /\ extractJobIdFromUrl (js "https://www.dice.com/jobs") = None
  /\ extractJobIdFromUrl [] = None.
Proof. vm_compute. repeat split. Qed.

Example test_extractExperienceLevel :
  extractExperienceLevel (js "Requires 5+ years of experience as a senior engineer")
  = Some (js "5+ years of experience")
  /\ extractExperienceLevel (js "A mid-level role") = Some (js "mid-level")
  /\ extractExperienceLevel (js "Great team") = None.
Proof. vm_compute. repeat split. Qed.

Example test_extractEducationLevel :
  extractEducationLevel (js "Bachelor's degree in CS") = Some (js "Bachelor's degree")
  /\ extractEducationLevel (js "BS in Mathematics") = Some (js "BS in")
  /\ extractEducationLevel (js "No requirement") = None.
Proof. vm_compute. repeat split. Qed.

(** * Further properties *)

(** ** The matcher against the declarative reading *)

Section MatcherSound.

Lemma run_sound {A : Type} (r : regex) :
  forall p c (k : pos -> caps -> option A) x,
    run r p c k = Some x ->
    exists p' c', Matches r p c p' c' /\ k p' c' = Some x.
Proof.
  induction r as [|f|a IHa b IHb|a IHa b IHb|a IHa|a IHa|i a IHa|];
    intros p c k x H; cbn [run] in H.
  - exists p, c. split; [constructor|exact H].
  - destruct (rest p) as [|y t] eqn:E; [discriminate|].
    destruct (f y) eqn:F; [|discriminate].
    exists (mkPos (Some y) t), c. split; [now apply M_Class|exact H].
  - apply IHa in H as [p1 [c1 [Ha H]]]. apply IHb in H as [p2 [c2 [Hb H]]].
    exists p2, c2. split; [now apply M_Cat with p1 c1|exact H].
  - destruct (run a p c k) as [y|] eqn:E.
    + injection H as <-. apply IHa in E as [p' [c' [Ha E]]].
      exists p', c'. split; [now apply M_AltL|exact E].
    + apply IHb in H as [p' [c' [Hb H]]].
      exists p', c'. split; [now apply M_AltR|exact H].
  - destruct (run a p c k) as [y|] eqn:E.
    + injection H as <-. apply IHa in E as [p' [c' [Ha E]]].
      exists p', c'. split; [now apply M_OptSome|exact E].
    + exists p, c. split; [apply M_OptNone|exact H].
  - revert H. generalize (List.length (rest p)) as fuel. intros fuel. revert p c.
    induction fuel as [|fuel IH]; intros p c H.
    + exists p, c. split; [apply M_StarNil|exact H].
    + match type of H with
      | match ?m with _ => _ end = _ => destruct m as [y|] eqn:E
      end.
      * injection H as <-. apply IHa in E as [p1 [c1 [Ha E]]].
        destruct (List.length (rest p1) <? List.length (rest p)); [|discriminate].
        apply IH in E as [p2 [c2 [Hs E]]].
        exists p2, c2. split; [now apply M_StarCons with p1 c1|exact E].
      * exists p, c. split; [apply M_StarNil|exact H].
  - apply IHa in H as [p' [c' [Ha H]]].
    exists p', ((i, consumed (rest p) (rest p')) :: c'). split; [now apply M_Group|exact H].
  - destruct (xorb (isWord (prev p)) (isWord (hd_error (rest p)))) eqn:E; [|discriminate].
    exists p, c. split; [now apply M_WordB|exact H].
Qed.

Lemma Matches_suffix (r : regex) (p : pos) (c : caps) (p' : pos) (c' : caps) :
  Matches r p c p' c' -> exists t, rest p = t ++ rest p'.
Proof.
  induction 1 as [p c|f p c x t E F|a b p c p1 c1 p2 c2 _ [t1 H1] _ [t2 H2]
                 | | | |a p c|a p c|a p c p1 c1 p2 c2 _ [t1 H1] _ [t2 H2]| |p c];
    try assumption; try (now exists []).
  - exists [x]. now rewrite E.
  - exists (t1 ++ t2). now rewrite H1, H2, app_assoc.
  - exists (t1 ++ t2). now rewrite H1, H2, app_assoc.
Qed.

Lemma consumed_app (t r : jsstring) : consumed (t ++ r) r = t.
Proof.
  unfold consumed. rewrite length_app.
  replace (List.length t + List.length r - List.length r) with (List.length t) by lia.
  rewrite firstn_app, firstn_all, Nat.sub_diag. cbn. apply app_nil_r.
Qed.

Lemma matchAt_sound (r : regex) (p : pos) (m : found) :
  matchAt r p = Some m ->
  exists p' c', Matches r p [] p' c'
                /\ rest p = whole m ++ rest p' /\ groups m = c'.
Proof.
  unfold matchAt. intros H. apply run_sound in H as [p' [c' [Hm H]]].
  injection H as <-. exists p', c'. split; [exact Hm|]. cbn.
  destruct (Matches_suffix r p [] p' c' Hm) as [t Ht]. rewrite Ht at 1 2.
  now rewrite consumed_app.
Qed.

Lemma searchFrom_sound (r : regex) (s : jsstring) :
  forall before m,
    searchFrom r before s = Some m ->
    exists b pre suf, s = pre ++ suf /\ matchAt r (mkPos b suf) = Some m.
Proof.
  induction s as [|x s IH]; intros before m H; cbn [searchFrom] in H.
  - destruct (matchAt r (mkPos before [])) eqn:E; [|discriminate].
    injection H as ->. now exists before, [], [].
  - destruct (matchAt r (mkPos before (x :: s))) eqn:E.
    + injection H as ->. now exists before, [], (x :: s).
    + apply IH in H as [b [pre [suf [-> H]]]]. now exists b, (x :: pre), suf.
Qed.

Lemma search_occurs (r : regex) (s : jsstring) (m : found) :
  search r s = Some m -> occursIn (whole m) s.
Proof.
  intros H. apply searchFrom_sound in H as [b [pre [suf [-> H]]]].
  apply matchAt_sound in H as [p' [c' [_ [H _]]]]. cbn in H.
  exists pre, (rest p'). now rewrite H.
Qed.

Lemma occursIn_cons (t s : jsstring) (x : N) : occursIn t s -> occursIn t (x :: s).
Proof. intros [b [a ->]]. now exists (x :: b), a. Qed.

Lemma matchAllFrom_occurs (r : regex) (s : jsstring) :
  forall skip before t,
    In t (matchAllFrom r skip before s) -> occursIn t s.
Proof.
  induction s as [|x s IH]; intros skip before t H; cbn [matchAllFrom] in H.
  - destruct skip; [|contradiction].
    destruct (matchAt r (mkPos before [])) as [m|] eqn:E; [|contradiction].
    destruct H as [<-|[]]. apply matchAt_sound in E as [p' [c' [_ [E _]]]].
    cbn in E. exists [], (rest p'). exact E.
  - destruct skip as [|skip].
    + destruct (matchAt r (mkPos before (x :: s))) as [m|] eqn:E.
      * destruct H as [<-|H]; [|apply IH in H; now apply occursIn_cons].
        apply matchAt_sound in E as [p' [c' [_ [E _]]]]. cbn in E.
        exists [], (rest p'). exact E.
      * apply IH in H; now apply occursIn_cons.
    + apply IH in H; now apply occursIn_cons.
Qed.

End MatcherSound.

Section MatcherInversion.

Lemma Matches_groupFree (r : regex) (p : pos) (c : caps) (p' : pos) (c' : caps) :
  Matches r p c p' c' -> groupFree r = true -> c' = c.
Proof.
  induction 1; cbn [groupFree]; intros G; try reflexivity;
    try (apply andb_true_iff in G as [G1 G2]); auto; try discriminate.
  - rewrite IHMatches2, IHMatches1; auto.
  - rewrite IHMatches2, IHMatches1; auto.
Qed.

Lemma Matches_class (f : N -> bool) (p : pos) (c : caps) (p' : pos) (c' : caps) :
  Matches (Class f) p c p' c' ->
  c' = c /\ exists x, rest p = x :: rest p' /\ f x = true /\ prev p' = Some x.
Proof. intros H. inversion H; subst. split; [reflexivity|]. now exists x. Qed.

Lemma Matches_star_class (f : N -> bool) (p : pos) (c : caps) (p' : pos) (c' : caps) :
  Matches (Star (Class f)) p c p' c' ->
  c' = c /\ exists t, rest p = t ++ rest p' /\ forallb f t = true.
Proof.
  intros H. remember (Star (Class f)) as r eqn:E.
  induction H; try discriminate.
  - split; [reflexivity|]. now exists [].
  - injection E as ->. specialize (IHMatches2 eq_refl).
    destruct IHMatches2 as [-> [t [Ht Hf]]].
    apply Matches_class in H as [-> [x [Hx [Hfx _]]]]. split; [reflexivity|].
    exists (x :: t). split.
    + now rewrite Hx, Ht.
    + cbn. now rewrite Hfx, Hf.
Qed.

Lemma Matches_seq_cons (a : regex) (l : list regex) (p : pos) (c : caps)
    (p' : pos) (c' : caps) :
  Matches (seq (a :: l)) p c p' c' ->
  exists p1 c1, Matches a p c p1 c1 /\ Matches (seq l) p1 c1 p' c'.
Proof.
  destruct l as [|b l]; cbn [seq]; intros H.
  - exists p', c'. split; [exact H|constructor].
  - inversion H; subst. now exists p1, c1.
Qed.

Lemma Matches_alts (l : list regex) (p : pos) (c : caps) (p' : pos) (c' : caps) :
  Matches (alts l) p c p' c' -> exists r, In r l /\ Matches r p c p' c'.
Proof.
  induction l as [|a l IH]; cbn [alts]; intros H.
  - inversion H; subst. discriminate.
  - destruct l as [|b l].
    + exists a. split; [now left|exact H].
    + inversion H as [| | |a0 b0 p0 c0 p0' c0' Ha| a0 b0 p0 c0 p0' c0' Hb| | | | | |]; subst.
      * exists a. split; [now left|exact Ha].
      * destruct (IH Hb) as [r [Hin Hr]]. exists r. split; [now right|exact Hr].
Qed.

(** A literal under the [i] flag takes a text that equals it up to the case
    of the ASCII letters. *)
Lemma Matches_litCI (w : jsstring) :
  forall p c p' c',
    Matches (litCI w) p c p' c' ->
    c' = c /\ exists t, rest p = t ++ rest p' /\ toLowerCase t = toLowerCase w.
Proof.
  unfold litCI. induction w as [|a w IH]; intros p c p' c' H.
  - cbn in H. inversion H; subst. split; [reflexivity|]. now exists [].
  - cbn [List.map] in H. apply Matches_seq_cons in H as [p1 [c1 [Ha Hw]]].
    apply Matches_class in Ha as [-> [x [Hx [Hf _]]]].
    apply IH in Hw as [-> [t [Ht Hl]]]. split; [reflexivity|].
    exists (x :: t). split.
    + now rewrite Hx, Ht.
    + unfold toLowerCase in *. cbn [List.map]. apply N.eqb_eq in Hf.
      now rewrite Hf, Hl.
Qed.

End MatcherInversion.

(** ** extractSkills, extractExperienceLevel, extractEducationLevel *)

Section Extracted.

Lemma NoDup_snoc {A : Type} (l : list A) (x : A) :
  NoDup l -> ~ In x l -> NoDup (l ++ [x]).
Proof.
  induction l as [|a l IH]; intros Hl Hx; cbn.
  - constructor; [intros []|constructor].
  - inversion Hl as [|a' l' Ha Hl']; subst. constructor.
    + rewrite in_app_iff. intros [H|[H|[]]]; [now apply Ha|].
      apply Hx. now left.
    + apply IH; [exact Hl'|]. intros H. apply Hx. now right.
Qed.

Lemma member_false (x : jsstring) (l : list jsstring) :
  member x l = false -> ~ In x l.
Proof.
  unfold member. intros H Hin.
  assert (E : existsb (Str.eqb x) l = true).
  { apply existsb_exists. exists x. split; [exact Hin|apply jsstring_eqb_refl]. }
  congruence.
Qed.

Lemma member_true (x : jsstring) (l : list jsstring) :
  member x l = true -> In x l.
Proof.
  unfold member. intros H. apply existsb_exists in H as [y [Hy E]].
  apply jsstring_eqb_eq in E. now subst.
Qed.

(** Adding to the set keeps it free of duplicates and within [P]. *)
Lemma setAdd_keeps (P : jsstring -> Prop) (acc : list jsstring) (x : jsstring) :
  NoDup acc /\ Forall P acc -> P x ->
  NoDup (setAdd acc x) /\ Forall P (setAdd acc x).
Proof.
  intros [Hn Hf] Hx. unfold setAdd. destruct (member x acc) eqn:E; [now split|].
  split.
  - apply NoDup_snoc; [exact Hn|now apply member_false].
  - apply Forall_app. split; [exact Hf|now constructor].
Qed.

Lemma setAdd_all_keeps (P : jsstring -> Prop) (xs acc : list jsstring) :
  NoDup acc /\ Forall P acc -> Forall P xs ->
  NoDup (fold_left setAdd xs acc) /\ Forall P (fold_left setAdd xs acc).
Proof.
  revert acc. induction xs as [|x xs IH]; intros acc Hacc Hxs; [exact Hacc|].
  inversion Hxs; subst. cbn [fold_left]. apply IH; [|assumption].
  now apply setAdd_keeps.
Qed.

Lemma matchAll_occurs (r : regex) (s : jsstring) :
  Forall (fun t => occursIn t s) (matchAll r s).
Proof.
  apply Forall_forall. intros t H. now apply matchAllFrom_occurs in H.
Qed.

Lemma search_group_whole (a : regex) (s : jsstring) (m : found) :
  search (Group 1 a) s = Some m -> group 1 (groups m) = whole m.
Proof.
  intros H. apply searchFrom_sound in H as [b [pre [suf [_ H]]]].
  apply matchAt_sound in H as [p' [c' [Hm [Hr Hg]]]].
  rewrite Hg. clear Hg. inversion Hm; subst. cbn [group Nat.eqb rest] in *.
  rewrite Hr. apply consumed_app.
Qed.

End Extracted.

(** X1.  The skills mined from a text hold no duplicate, and each of them is
    a piece of the text, in the case the text has it. *)
Theorem extractSkills_distinct_pieces (text : jsstring) :
  NoDup (extractSkills text)
  /\ forall skill, In skill (extractSkills text) -> occursIn skill text.
Proof.
  unfold extractSkills.
  enough (H : forall patterns acc,
             NoDup acc /\ Forall (fun t => occursIn t text) acc ->
             NoDup (fold_left (fun skills pattern =>
                      fold_left setAdd (matchAll pattern text) skills) patterns acc)
             /\ Forall (fun t => occursIn t text)
                  (fold_left (fun skills pattern =>
                      fold_left setAdd (matchAll pattern text) skills) patterns acc)).
  { destruct (H skillPatterns []) as [H1 H2]; [split; constructor|].
    split; [exact H1|]. now apply Forall_forall. }
  induction patterns as [|r patterns IH]; intros acc Hacc; [exact Hacc|].
  cbn [fold_left]. apply IH. apply setAdd_all_keeps; [exact Hacc|apply matchAll_occurs].
Qed.

(** X2.  An experience level or an education level, when one is found, is a
    piece of the description it was looked for in. *)
Theorem extracted_levels_are_pieces (text : jsstring) (level : jsstring) :
  extractExperienceLevel text = Some level \/ extractEducationLevel text = Some level ->
  occursIn level text.
Proof.
  unfold extractExperienceLevel, extractEducationLevel, experiencePatterns,
    educationPatterns.
  cbn [firstMatch]. intros [H|H]; cbv beta in H.
  - repeat match type of H with
           | match ?d with _ => _ end = _ =>
               let E := fresh "E" in
               destruct d as [m|] eqn:E;
               [ injection H as <-; rewrite (search_group_whole _ _ _ E);
                 now apply search_occurs in E | ]
           end.
    discriminate.
  - repeat match type of H with
           | match ?d with _ => _ end = _ =>
               let E := fresh "E" in
               destruct d as [m|] eqn:E;
               [ injection H as <-; now apply search_occurs in E | ]
           end.
    discriminate.
Qed.

Lemma extracted_levels_are_pieces_witness :
  occursIn (js "5+ years of experience")
    (js "Requires 5+ years of experience as a senior engineer").
Proof.
  apply extracted_levels_are_pieces. left. vm_compute. reflexivity.
Defined.

(** ** extractJobIdFromUrl *)

Section JobId.

Lemma run_seq_cons {A : Type} (a : regex) (l : list regex) (p : pos) (c : caps)
    (k : pos -> caps -> option A) :
  run (seq (a :: l)) p c k = run a p c (fun p' c' => run (seq l) p' c' k).
Proof. destruct l; reflexivity. Qed.

Lemma run_litCI {A : Type} (w : jsstring) :
  forall p c (k : pos -> caps -> option A),
    run (litCI w) p c k
    = match takeCI w p with
      | Some p' => k p' c
      | None => None
      end.
Proof.
  unfold litCI. induction w as [|a w IH]; intros p c k; [reflexivity|].
  cbn [List.map]. rewrite run_seq_cons. cbn [run unitCI takeCI].
  destruct (rest p) as [|x t]; [reflexivity|].
  destruct (lowerUnit x =? lowerUnit a)%N; [apply IH|reflexivity].
Qed.

Lemma pos_eta (p : pos) : mkPos (prev p) (rest p) = p.
Proof. now destruct p. Qed.

Lemma run_star_class {A : Type} (f : N -> bool) (k : pos -> caps -> option A) :
  (forall p c, k p c <> None) ->
  forall p c, run (Star (Class f)) p c k = k (spanFrom f (prev p) (rest p)) c.
Proof.
  intros Hk p c. cbn [run].
  match goal with
  | |- ?iter (List.length (rest p)) p c = _ =>
      enough (G : forall fuel q d, List.length (rest q) <= fuel ->
                  iter fuel q d = k (spanFrom f (prev q) (rest q)) d)
        by (apply G; lia)
  end.
  induction fuel as [|fuel IH]; intros q d Hq.
  - destruct q as [b [|x t]]; cbn in *; [reflexivity|lia].
  - destruct q as [b [|x t]]; cbn [rest prev spanFrom]; [reflexivity|].
    destruct (f x) eqn:F; [|reflexivity].
    replace (List.length t <? List.length (x :: t)) with true
      by (symmetry; apply Nat.ltb_lt; cbn; lia).
    rewrite IH by (cbn in *; lia). cbn [rest prev].
    destruct (k (spanFrom f (Some x) t) d) eqn:E; [reflexivity|].
    now destruct (Hk _ _ E).
Qed.

Lemma takeCI_sound (w : jsstring) :
  forall p p', takeCI w p = Some p' ->
    exists t, rest p = t ++ rest p' /\ toLowerCase t = toLowerCase w.
Proof.
  induction w as [|a w IH]; intros p p' H; cbn [takeCI] in H.
  - injection H as <-. now exists [].
  - destruct (rest p) as [|x t] eqn:E; [discriminate|].
    destruct (lowerUnit x =? lowerUnit a)%N eqn:L; [|discriminate].
    apply IH in H as [t' [Ht Hl]]. cbn [rest] in Ht. exists (x :: t'). split.
    + now rewrite Ht.
    + unfold toLowerCase in *. cbn [List.map]. apply N.eqb_eq in L.
      now rewrite L, Hl.
Qed.

Lemma takeCI_complete (w : jsstring) :
  forall t s b, toLowerCase t = toLowerCase w ->
    exists p', takeCI w (mkPos b (t ++ s)) = Some p' /\ rest p' = s.
Proof.
  unfold toLowerCase.
  induction w as [|a w IH]; intros t s b H; destruct t as [|x t]; try discriminate.
  - now exists (mkPos b s).
  - cbn [List.map] in H. injection H as Hx Ht. cbn [takeCI rest app].
    rewrite Hx, N.eqb_refl. now apply IH.
Qed.

Lemma spanFrom_spec (f : N -> bool) (s : jsstring) :
  forall b, exists t, s = t ++ rest (spanFrom f b s) /\ forallb f t = true
                 /\ forall x s', rest (spanFrom f b s) = x :: s' -> f x = false.
Proof.
  induction s as [|x s IH]; intros b; cbn [spanFrom].
  - exists []. repeat split. discriminate.
  - destruct (f x) eqn:F.
    + destruct (IH (Some x)) as [t [Ht [Hf Hn]]]. exists (x :: t).
      split; [cbn; now rewrite <- Ht|]. split; [cbn; now rewrite F|exact Hn].
    + exists []. repeat split. cbn. intros y s' [= <- <-]. exact F.
Qed.

(** What the pattern finds at one position. *)
Lemma matchAt_jobIdRe (p : pos) :
  matchAt jobIdRe p
  = match takeCI (js "/job-detail/") p with
    | Some p1 =>
        match rest p1 with
        | x :: t =>
            if tokenUnit x
            then let p2 := spanFrom tokenUnit (Some x) t in
                 Some (mkFound (consumed (rest p) (rest p2))
                               [(1, consumed (rest p1) (rest p2))])
            else None
        | [] => None
        end
    | None => None
    end.
Proof.
  unfold matchAt, jobIdRe, Plus. cbn [run]. rewrite run_litCI.
  destruct (takeCI (js "/job-detail/") p) as [p1|]; [|reflexivity].
  destruct (rest p1) as [|x t]; [reflexivity|].
  unfold tokenUnit at 1. cbv zeta.
  match goal with
  | |- (if ?b then _ else _) = _ => destruct b; [|reflexivity]
  end.
  apply (run_star_class tokenUnit
           (fun p' c' => Some (mkFound (consumed (rest p) (rest p'))
                                 ((1, consumed (x :: t) (rest p')) :: c')))).
  discriminate.
Qed.

Lemma searchFrom_none (r : regex) (s : jsstring) :
  forall before, searchFrom r before s = None ->
    forall pre suf, s = pre ++ suf -> exists b, matchAt r (mkPos b suf) = None.
Proof.
  induction s as [|x s IH]; intros before H pre suf E; cbn [searchFrom] in H.
  - destruct (matchAt r (mkPos before [])) eqn:M; [discriminate|].
    apply eq_sym, app_eq_nil in E as [-> ->]. now exists before.
  - destruct (matchAt r (mkPos before (x :: s))) eqn:M; [discriminate|].
    destruct pre as [|y pre]; cbn in E.
    + subst suf. now exists before.
    + injection E as <- E. now apply (IH (Some x) H pre suf).
Qed.

End JobId.

(** X3.  The token returned for a URL follows a [/job-detail/] of the URL,
    written in any case; it is made of hexadecimal digits and hyphens, is not
    empty, and goes as far as they go.  Nothing is returned exactly when no
    [/job-detail/] of the URL is followed by such a code unit. *)
Theorem extractJobIdFromUrl_token (url : jsstring) :
  match extractJobIdFromUrl url with
  | Some id =>
      id <> [] /\ forallb tokenUnit id = true
      /\ exists before marker after,
           url = before ++ marker ++ id ++ after
           /\ toLowerCase marker = js "/job-detail/"
           /\ forall x after', after = x :: after' -> tokenUnit x = false
  | None =>
      forall before marker x after,
        url = before ++ marker ++ x :: after ->
        toLowerCase marker = js "/job-detail/" -> tokenUnit x = false
  end.
Proof.
  unfold extractJobIdFromUrl.
  destruct (search jobIdRe url) as [m|] eqn:S.
  - apply searchFrom_sound in S as [b [pre [suf [-> M]]]].
    rewrite matchAt_jobIdRe in M.
    destruct (takeCI (js "/job-detail/") (mkPos b suf)) as [p1|] eqn:T; [|discriminate].
    apply takeCI_sound in T as [marker [Hsuf Hmarker]]. cbn [rest] in Hsuf.
    destruct (rest p1) as [|x t] eqn:R; [discriminate|].
    destruct (tokenUnit x) eqn:F; [|discriminate].
    injection M as <-. cbn [groups group Nat.eqb].
    destruct (spanFrom_spec tokenUnit t (Some x)) as [taken [Ht [Hf Hn]]].
    assert (E : consumed (x :: t) (rest (spanFrom tokenUnit (Some x) t)) = x :: taken).
    { rewrite Ht at 1. apply (consumed_app (x :: taken)). }
    rewrite E. split; [discriminate|]. split; [cbn; now rewrite F, Hf|].
    exists pre, marker, (rest (spanFrom tokenUnit (Some x) t)).
    split; [|split; [exact Hmarker|exact Hn]].
    rewrite Hsuf. cbn [app]. now rewrite <- Ht.
  - intros before marker x after E Hmarker.
    destruct (searchFrom_none _ _ _ S before (marker ++ x :: after) E) as [b M].
    rewrite matchAt_jobIdRe in M.
    destruct (takeCI_complete (js "/job-detail/") marker (x :: after) b Hmarker)
      as [p1 [T R]].
    rewrite T, R in M. now destruct (tokenUnit x).
Qed.

(** ** parseSalaryFromText *)

Section SalaryText.

Lemma occursIn_refl (t : jsstring) : occursIn t t.
Proof. exists [], []. now rewrite app_nil_r. Qed.

Lemma occursIn_app_l (g t u : jsstring) : occursIn g t -> occursIn g (t ++ u).
Proof. intros [b [a ->]]. exists b, (a ++ u). now rewrite <- !app_assoc. Qed.

Lemma occursIn_app_r (g t u : jsstring) : occursIn g u -> occursIn g (t ++ u).
Proof. intros [b [a ->]]. exists (t ++ b), a. now rewrite <- !app_assoc. Qed.

Lemma occursIn_nil (s : jsstring) : occursIn [] s.
Proof. now exists [], s. Qed.

(** What a match does: the text it takes, and the captures it adds, which
    are pieces of that text. *)
Lemma Matches_effect (r : regex) (p : pos) (c : caps) (p' : pos) (c' : caps) :
  Matches r p c p' c' ->
  exists t new,
    rest p = t ++ rest p' /\ c' = new ++ c
    /\ Forall (fun ig => occursIn (snd ig) t) new
    /\ (forall Q, classesWithin Q r -> forallb Q t = true)
    /\ (forall Q, groupsWithin Q r -> Forall (fun ig => forallb Q (snd ig) = true) new).
Proof.
  induction 1 as [p c|f p c x t E F
                 |a b p c p1 c1 p2 c2 _ IH1 _ IH2
                 |a b p c p' c' _ IH|a b p c p' c' _ IH
                 |a p c p' c' _ IH|a p c|a p c
                 |a p c p1 c1 p2 c2 _ IH1 _ IH2
                 |i a p c p' c' _ IH|p c].
  - exists [], []. repeat split; auto.
  - exists [x], []. cbn [rest app]. repeat split; auto.
    intros Q HQ. cbn. now rewrite (HQ x F).
  - destruct IH1 as [t1 [n1 [E1 [C1 [O1 [Q1 G1]]]]]].
    destruct IH2 as [t2 [n2 [E2 [C2 [O2 [Q2 G2]]]]]].
    exists (t1 ++ t2), (n2 ++ n1). split; [now rewrite E1, E2, app_assoc|].
    split; [now rewrite C2, C1, app_assoc|]. split; [|split].
    + apply Forall_app. split.
      * eapply Forall_impl; [|exact O2]. intros ig. apply occursIn_app_r.
      * eapply Forall_impl; [|exact O1]. intros ig. apply occursIn_app_l.
    + intros Q [Ha Hb]. rewrite forallb_app, (Q1 Q Ha), (Q2 Q Hb). reflexivity.
    + intros Q [Ha Hb]. apply Forall_app. split; [now apply G2|now apply G1].
  - destruct IH as [t [n [E [C [O [Q1 G1]]]]]]. exists t, n. repeat split; auto.
    + intros Q [Ha _]. now apply Q1.
    + intros Q [Ha _]. now apply G1.
  - destruct IH as [t [n [E [C [O [Q1 G1]]]]]]. exists t, n. repeat split; auto.
    + intros Q [_ Hb]. now apply Q1.
    + intros Q [_ Hb]. now apply G1.
  - exact IH.
  - exists [], []. repeat split; auto.
  - exists [], []. repeat split; auto.
  - destruct IH1 as [t1 [n1 [E1 [C1 [O1 [Q1 G1]]]]]].
    destruct IH2 as [t2 [n2 [E2 [C2 [O2 [Q2 G2]]]]]].
    exists (t1 ++ t2), (n2 ++ n1). split; [now rewrite E1, E2, app_assoc|].
    split; [now rewrite C2, C1, app_assoc|]. split; [|split].
    + apply Forall_app. split.
      * eapply Forall_impl; [|exact O2]. intros ig. apply occursIn_app_r.
      * eapply Forall_impl; [|exact O1]. intros ig. apply occursIn_app_l.
    + intros Q HQ. rewrite forallb_app, (Q1 Q HQ), (Q2 Q HQ). reflexivity.
    + intros Q HQ. apply Forall_app. split; [now apply G2|now apply G1].
  - destruct IH as [t [n [E [C [O [Q1 G1]]]]]].
    assert (K : consumed (rest p) (rest p') = t) by (rewrite E; apply consumed_app).
    exists t, ((i, t) :: n). rewrite K.
    split; [exact E|]. split; [now rewrite C|]. split; [|split].
    + constructor; [apply occursIn_refl|exact O].
    + intros Q HQ. now apply Q1.
    + intros Q [Ha Hg]. constructor; [now apply Q1|now apply G1].
  - exists [], []. repeat split; auto.
Qed.

Lemma group_within (P : jsstring -> Prop) (i : nat) (c : caps) :
  P [] -> Forall (fun ig => P (snd ig)) c -> P (group i c).
Proof.
  intros H0 H. induction H as [|[j v] c Hv _ IH]; cbn [group]; [exact H0|].
  destruct (Nat.eqb i j); [exact Hv|exact IH].
Qed.

(** The groups of a pattern found in a text are pieces of the text, made of
    what the classes inside the groups allow. *)
Lemma search_groups (Q : N -> bool) (r : regex) (text : jsstring) (m : found) (i : nat) :
  groupsWithin Q r -> search r text = Some m ->
  occursIn (group i (groups m)) text /\ forallb Q (group i (groups m)) = true.
Proof.
  intros HQ H. apply searchFrom_sound in H as [b [pre [suf [-> H]]]].
  apply matchAt_sound in H as [p' [c' [Hm [_ Hg]]]]. rewrite Hg.
  apply Matches_effect in Hm as [t [new [E [C [O [_ G]]]]]].
  cbn [rest] in E. rewrite app_nil_r in C. subst c'. split.
  - apply (group_within (fun g => occursIn g (pre ++ suf))); [apply occursIn_nil|].
    eapply Forall_impl; [|exact O]. intros ig Hig. rewrite E.
    now apply occursIn_app_r, occursIn_app_l.
  - apply (group_within (fun g => forallb Q g = true)); [reflexivity|].
    now apply G.
Qed.

Lemma amount_classes : groupsWithin amountUnit rangeRe /\ groupsWithin amountUnit singleRe.
Proof.
  assert (A : classesWithin amountUnit amountRe).
  { unfold amountRe, Plus, upTo2, digit, chr, amountUnit. cbn [classesWithin].
    repeat split; intros x H; try (now rewrite H);
      try (apply N.eqb_eq in H; subst x; reflexivity);
      unfold isDigit; rewrite H; reflexivity. }
  assert (G : groupsWithin amountUnit amountRe).
  { unfold amountRe, Plus, upTo2, digit, chr. cbn [groupsWithin]. tauto. }
  unfold rangeRe, singleRe, Plus, chr, space, kRe, dashRe. cbn [seq groupsWithin].
  tauto.
Qed.

(** The [k] test of [parseValue] never fires on a captured amount. *)
Lemma amount_has_no_k (val : jsstring) :
  forallb amountUnit val = true -> includes (js "k") (toLowerCase val) = false.
Proof.
  induction val as [|x val IH]; intros H; [reflexivity|].
  cbn [forallb] in H. apply andb_true_iff in H as [Hx Hv].
  unfold toLowerCase in *. cbn [List.map includes]. rewrite (IH Hv), orb_false_r.
  cbn [js List.map list_ascii_of_string startsWith].
  rewrite andb_true_r. unfold amountUnit, isDigit, lowerUnit in *.
  destruct ((65 <=? x) && (x <=? 90))%N eqn:U.
  - apply andb_true_iff in U as [U1 U2]. apply N.leb_le in U1, U2.
    replace ((48 <=? x) && (x <=? 57))%N with false in Hx
      by (symmetry; apply andb_false_iff; right; apply N.leb_gt; lia).
    replace (x =? 44)%N with false in Hx by (symmetry; apply N.eqb_neq; lia).
    replace (x =? 46)%N with false in Hx by (symmetry; apply N.eqb_neq; lia).
    discriminate.
  - apply N.eqb_neq. intros <-. discriminate.
Qed.

Lemma parseValue_amount (pm : option found) (val : jsstring) :
  forallb amountUnit val = true ->
  parseValue pm val
  = amountValue (match pm with Some _ => true | None => false end) val.
Proof.
  intros H. unfold parseValue, amountValue. rewrite (amount_has_no_k _ H).
  now destruct pm.
Qed.

Lemma periods_lower (w : jsstring) : In w periods -> toLowerCase w = w.
Proof.
  unfold periods. cbn [In]. intros H.
  repeat (destruct H as [<-|H]; [reflexivity|]). destruct H.
Qed.

Lemma period_found (text : jsstring) (m : found) :
  search periodRe text = Some m -> In (toLowerCase (group 1 (groups m))) periods.
Proof.
  intros H. apply searchFrom_sound in H as [b [pre [suf [_ H]]]].
  apply matchAt_sound in H as [p' [c' [Hm [_ Hg]]]]. rewrite Hg. clear Hg.
  unfold periodRe in Hm.
  inversion Hm as [| |a0 b0 p0 c0 p1 c1 p2 c2 Hslash Hgroup| | | | | | | |]; subst.
  apply Matches_class in Hslash as [-> _].
  inversion Hgroup as [| | | | | | | | |i a1 q0 d0 q1 d1 Halts|]; subst.
  cbn [group Nat.eqb].
  apply (Matches_alts (List.map litCI periods)) in Halts as [r [Hin Hr]].
  apply in_map_iff in Hin as [w [<- Hw]].
  apply Matches_litCI in Hr as [_ [t [Ht Hl]]].
  rewrite Ht, consumed_app, Hl.
  now rewrite (periods_lower _ Hw).
Qed.

End SalaryText.

(** X4.  When a salary is parsed from a text, its currency is [USD]; its
    period is one of the nine markers, in lower case, and is [year] when the
    text has no marker; and each bound is read from a piece of the text made
    of digits, commas and dots: it is the binary64 number nearest to what
    that piece denotes, the commas dropped, multiplied by 1000 (and rounded
    again) exactly when it is below 1000 and the text has no period
    marker.  A [K] after the amount plays no part. *)
Theorem parseSalaryFromText_result (text : jsstring) (r : Salary.t) :
  parseSalaryFromText text = Some r ->
  Salary.currency r = js "USD"
  /\ In (Salary.period r) periods
  /\ (hasPeriodMarker text = false -> Salary.period r = js "year")
  /\ exists low high,
       occursIn low text /\ occursIn high text
       /\ forallb amountUnit low = true /\ forallb amountUnit high = true
       /\ Salary.min r = amountValue (hasPeriodMarker text) low
       /\ Salary.max r = amountValue (hasPeriodMarker text) high.
Proof.
  unfold parseSalaryFromText, hasPeriodMarker. intros H.
  destruct (negb (nonEmpty text)); [discriminate|].
  destruct amount_classes as [GR GS].
  assert (P : In (match search periodRe text with
                  | Some m => toLowerCase (group 1 (groups m))
                  | None => js "year"
                  end) periods
              /\ (match search periodRe text with Some _ => true | None => false end
                  = false ->
                  match search periodRe text with
                  | Some m => toLowerCase (group 1 (groups m))
                  | None => js "year"
                  end = js "year")).
  { destruct (search periodRe text) as [pm|] eqn:E.
    - split; [now apply period_found in E|discriminate].
    - split; [|reflexivity]. unfold periods. cbn. tauto. }
  destruct P as [P1 P2].
  destruct (search rangeRe text) as [m|] eqn:R.
  - injection H as <-. cbn [Salary.currency Salary.period Salary.min Salary.max].
    destruct (search_groups amountUnit rangeRe text m 1 GR R) as [O1 Q1].
    destruct (search_groups amountUnit rangeRe text m 2 GR R) as [O2 Q2].
    repeat split; auto.
    exists (group 1 (groups m)), (group 2 (groups m)).
    rewrite !parseValue_amount by assumption. repeat split; auto.
  - destruct (search singleRe text) as [m|] eqn:S; [|discriminate].
    injection H as <-. cbn [Salary.currency Salary.period Salary.min Salary.max].
    destruct (search_groups amountUnit singleRe text m 1 GS S) as [O1 Q1].
    repeat split; auto.
    exists (group 1 (groups m)), (group 1 (groups m)).
    rewrite !parseValue_amount by assumption. repeat split; auto.
Qed.

Lemma parseSalaryFromText_result_witness :
  exists r, parseSalaryFromText (js "$80K - $120K/yr") = Some r
            /\ Salary.currency r = js "USD" /\ In (Salary.period r) periods.
Proof.
  eexists. split; [vm_compute; reflexivity|].
  destruct (parseSalaryFromText_result (js "$80K - $120K/yr")
              (Salary.mk (Num.ofZ 80) (Num.ofZ 120) (js "USD") (js "yr")))
    as [H1 [H2 _]]; [vm_compute; reflexivity|].
  split; [exact H1|exact H2].
Defined.

Section SalaryNull.

Lemma unfailing_Eps : unfailing Eps.
Proof. intros A k Hk p c. cbn. apply Hk. Qed.

Lemma unfailing_Opt (a : regex) : unfailing (Opt a).
Proof.
  intros A k Hk p c. cbn [run]. destruct (run a p c k); [discriminate|apply Hk].
Qed.

Lemma unfailing_Star (a : regex) : unfailing (Star a).
Proof.
  intros A k Hk p c. cbn [run]. generalize (List.length (rest p)) as fuel.
  intros fuel. destruct fuel as [|fuel]; [apply Hk|].
  match goal with
  | |- match ?m with _ => _ end <> None => destruct m; [discriminate|apply Hk]
  end.
Qed.

Lemma unfailing_Cat (a b : regex) : unfailing a -> unfailing b -> unfailing (Cat a b).
Proof.
  intros Ha Hb A k Hk p c. cbn [run]. apply Ha. intros p' c'. now apply Hb.
Qed.

Lemma unfailing_Group (i : nat) (a : regex) : unfailing a -> unfailing (Group i a).
Proof. intros Ha A k Hk p c. cbn [run]. apply Ha. intros p' c'. apply Hk. Qed.

Lemma run_Cat_eq {A : Type} (a b : regex) (p : pos) (c : caps)
    (k : pos -> caps -> option A) :
  run (Cat a b) p c k = run a p c (fun p' c' => run b p' c' k).
Proof. reflexivity. Qed.

Lemma run_Group_eq {A : Type} (i : nat) (a : regex) (p : pos) (c : caps)
    (k : pos -> caps -> option A) :
  run (Group i a) p c k
  = run a p c (fun p' c' => k p' ((i, consumed (rest p) (rest p')) :: c')).
Proof. reflexivity. Qed.

Lemma run_Opt_eq {A : Type} (a : regex) (p : pos) (c : caps)
    (k : pos -> caps -> option A) :
  run (Opt a) p c k
  = match run a p c k with
    | Some x => Some x
    | None => k p c
    end.
Proof. reflexivity. Qed.

Lemma run_Class_at {A : Type} (f : N -> bool) (p : pos) (c : caps)
    (k : pos -> caps -> option A) (x : N) (t : jsstring) :
  rest p = x :: t -> f x = true -> run (Class f) p c k = k (mkPos (Some x) t) c.
Proof. intros E F. cbn [run]. now rewrite E, F. Qed.

(** Where an amount can start, the single-amount pattern matches. *)
Lemma singleRe_matches (p : pos) (x : N) (t : jsstring) :
  rest p = x :: t -> amountStart x = true -> matchAt singleRe p <> None.
Proof.
  intros E F. unfold matchAt, singleRe. cbn [seq].
  rewrite run_Cat_eq, run_Opt_eq.
  match goal with
  | |- match ?m with _ => _ end <> None => destruct m; [discriminate|]
  end.
  rewrite run_Cat_eq, run_Group_eq. unfold amountRe, Plus.
  rewrite !run_Cat_eq. rewrite (run_Class_at _ _ _ _ x t E F).
  apply unfailing_Star. intros p1 c1. apply unfailing_Opt. intros p2 c2.
  apply (unfailing_Cat (Star space) (Opt kRe));
    [apply unfailing_Star|apply unfailing_Opt|discriminate].
Qed.

Lemma searchFrom_finds (r : regex) (suf : jsstring) :
  (forall b, matchAt r (mkPos b suf) <> None) ->
  forall pre before, searchFrom r before (pre ++ suf) <> None.
Proof.
  intros H. induction pre as [|y pre IH]; intros before.
  - cbn [app]. destruct suf as [|x s]; cbn [searchFrom];
      specialize (H before); now destruct (matchAt r _).
  - cbn [app searchFrom]. destruct (matchAt r _); [discriminate|apply IH].
Qed.

(** Both amount patterns need a code unit that can start an amount. *)
Lemma amount_needed (tail : list regex) (text : jsstring) (m : found) :
  search (seq (Opt (chr 36) :: Group 1 amountRe :: tail)) text = Some m ->
  exists x, In x text /\ amountStart x = true.
Proof.
  intros H. apply searchFrom_sound in H as [b [pre [suf [-> H]]]].
  apply matchAt_sound in H as [p' [c' [Hm _]]].
  apply Matches_seq_cons in Hm as [p1 [c1 [Hopt Hm]]].
  apply Matches_seq_cons in Hm as [p2 [c2 [Hgroup _]]].
  apply Matches_suffix in Hopt as [t0 E0]. cbn [rest] in E0.
  inversion Hgroup as [| | | | | | | | |i a q0 d0 q1 d1 Hamount|]; subst.
  unfold amountRe, Plus in Hamount.
  inversion Hamount as [| |a0 b0 r0 e0 r1 e1 r2 e2 Hplus _| | | | | | | |]; subst.
  inversion Hplus as [| |a0 b0 s0 f0 s1 f1 s2 f2 Hfirst _| | | | | | | |]; subst.
  apply Matches_class in Hfirst as [_ [x [Ex [Fx _]]]].
  exists x. split; [|exact Fx].
  rewrite Ex, !in_app_iff. right. right. now left.
Qed.

End SalaryNull.

(** X5.  Nothing is parsed from a text exactly when the text holds neither a
    digit nor a comma. *)
Theorem parseSalaryFromText_null_iff (text : jsstring) :
  parseSalaryFromText text = None
  <-> forallb (fun c => negb (amountStart c)) text = true.
Proof.
  split.
  - intros H. destruct (forallb (fun c => negb (amountStart c)) text) eqn:F;
      [reflexivity|exfalso].
    assert (X : exists pre x t, text = pre ++ x :: t /\ amountStart x = true).
    { clear H. induction text as [|y text IH]; [discriminate|].
      cbn [forallb] in F. destruct (amountStart y) eqn:Y.
      - now exists [], y, text.
      - cbn in F. destruct (IH F) as [pre [x [t [-> Hx]]]].
        now exists (y :: pre), x, t. }
    destruct X as [pre [x [t [-> Hx]]]].
    assert (S : search singleRe (pre ++ x :: t) <> None).
    { apply searchFrom_finds. intros b. now apply (singleRe_matches _ x t). }
    unfold parseSalaryFromText in H.
    destruct (negb (nonEmpty (pre ++ x :: t))) eqn:N; [now destruct pre|].
    destruct (search rangeRe (pre ++ x :: t)); [discriminate|].
    destruct (search singleRe (pre ++ x :: t)); [discriminate|now apply S].
  - intros F. unfold parseSalaryFromText.
    destruct (negb (nonEmpty text)); [reflexivity|].
    assert (N : forall x, In x text -> amountStart x = true -> False).
    { intros x Hin Hx. rewrite forallb_forall in F. specialize (F x Hin).
      now rewrite Hx in F. }
    destruct (search rangeRe text) as [m|] eqn:R.
    { apply amount_needed in R as [x [Hin Hx]]. now destruct (N x Hin Hx). }
    destruct (search singleRe text) as [m|] eqn:S; [|reflexivity].
    apply amount_needed in S as [x [Hin Hx]]. now destruct (N x Hin Hx).
Qed.

(** ** cleanText, formatPostedDate, formatSalary, parseJobFromApi *)

Section Normal.

Lemma trim_ends (s : jsstring) :
  startOk (trim s) = true /\ startOk (rev (trim s)) = true.
Proof.
  unfold trim. split.
  - apply trimEnd_startOk, trimStart_startOk.
  - unfold trimEnd. rewrite rev_involutive. apply trimStart_startOk.
Qed.

Lemma cleanText_is_normal (s : jsstring) : normalText (cleanText s).
Proof.
  destruct (cleaned_shape s) as [Ht [Hc Hr]]. unfold normalText.
  split; [exact Ht|]. split; [exact Hc|]. rewrite <- Hr. apply trim_ends.
Qed.

Lemma includes_head (a : N) (p s : jsstring) : includes (a :: p) s = true -> In a s.
Proof.
  induction s as [|x s IH]; cbn [includes startsWith]; intros H.
  - discriminate.
  - apply orb_true_iff in H as [H|H].
    + apply andb_true_iff in H as [H _]. apply N.eqb_eq in H. now left.
    + right. now apply IH.
Qed.

Lemma blank_entityFree (s : jsstring) : forallb isSpace s = true -> entityFree s = true.
Proof.
  intros H. unfold entityFree, entities. cbn [forallb fst].
  assert (N : ~ In 38%N s).
  { intros Hin. rewrite forallb_forall in H. now specialize (H _ Hin). }
  repeat match goal with
         | |- context [includes (js ?w) s] =>
             let E := fresh "E" in
             destruct (includes (js w) s) eqn:E;
             [apply includes_head in E; now destruct (N E)|]
         end.
  reflexivity.
Qed.

Lemma blank_noTag (s : jsstring) : forallb isSpace s = true -> hasTag s = false.
Proof.
  induction s as [|x s IH]; [reflexivity|]. cbn [forallb hasTag]. intros H.
  apply andb_true_iff in H as [Hx Hs]. rewrite (IH Hs), orb_false_r.
  destruct (x =? LT)%N eqn:E; [|reflexivity].
  apply N.eqb_eq in E. subst x. discriminate.
Qed.

Lemma blank_collapse (b : bool) (s : jsstring) :
  forallb isSpace s = true -> forallb isSpace (collapseFrom b s) = true.
Proof.
  revert b. induction s as [|x s IH]; intros b H; [reflexivity|].
  cbn [forallb] in H. apply andb_true_iff in H as [Hx Hs].
  cbn [collapseFrom]. rewrite Hx. destruct b; [now apply IH|].
  cbn [forallb]. now rewrite (IH true Hs).
Qed.

Lemma blank_trimStart (s : jsstring) : forallb isSpace s = true -> trimStart s = [].
Proof.
  induction s as [|x s IH]; [reflexivity|]. cbn [forallb trimStart]. intros H.
  apply andb_true_iff in H as [Hx Hs]. rewrite Hx. now apply IH.
Qed.

End Normal.

(** X6.  A cleaned text is in normal form (no tag is left, the white space
    is made of single spaces, none at either end) and is never longer than
    the text it comes from. *)
Theorem cleanText_normal_and_shorter (s : jsstring) :
  normalText (cleanText s) /\ List.length (cleanText s) <= List.length s.
Proof.
  split; [apply cleanText_is_normal|].
  unfold cleanText. destruct (negb (nonEmpty s)); [cbn; lia|].
  etransitivity; [apply trim_length|].
  etransitivity; [apply collapse_length|].
  etransitivity; [apply stripTags_length|].
  apply decode_length, entities_shorter.
Qed.

(** X7.  A text made of white space only is cleaned to the empty string. *)
Theorem cleanText_blank (s : jsstring) :
  forallb isSpace s = true -> cleanText s = [].
Proof.
  intros H. unfold cleanText. destruct (negb (nonEmpty s)); [reflexivity|].
  rewrite (decodeEntities_id _ (blank_entityFree _ H)).
  rewrite (stripTags_id _ (blank_noTag _ H)).
  unfold collapseSpaces, trim.
  rewrite (blank_trimStart _ (blank_collapse false _ H)). reflexivity.
Qed.

Lemma cleanText_blank_witness : cleanText [32; 9; 10; 160; 8195]%N = [].
Proof. apply cleanText_blank. reflexivity. Defined.

(** X8.  For a string that is a date, what is returned depends on the whole
    number of days between the date and now: [Today] for less than a day,
    [Yesterday] for one, the number of days up to six, [1 week ago] from
    seven to thirteen, the number of weeks up to twenty-nine days, and the
    date itself beyond.  A date that lies ahead gives a negative number of
    days ago. *)
Theorem formatPostedDate_buckets (host : Host) (now t : Z) (s : jsstring) :
  s <> [] -> dateParse host s = Some t ->
  let days := ((now - t) / MS_PER_DAY)%Z in
  let shown := formatPostedDate host now (Some s) in
  ((0 <= now - t < MS_PER_DAY)%Z -> shown = js "Today")
  /\ ((MS_PER_DAY <= now - t < 2 * MS_PER_DAY)%Z -> shown = js "Yesterday")
  /\ ((2 * MS_PER_DAY <= now - t < 7 * MS_PER_DAY)%Z ->
      shown = Str.ofZ days ++ js " days ago" /\ (2 <= days <= 6)%Z)
  /\ ((7 * MS_PER_DAY <= now - t < 14 * MS_PER_DAY)%Z -> shown = js "1 week ago")
  /\ ((14 * MS_PER_DAY <= now - t < 30 * MS_PER_DAY)%Z ->
      shown = Str.ofZ (days / 7) ++ js " weeks ago" /\ (2 <= days / 7 <= 4)%Z)
  /\ ((30 * MS_PER_DAY <= now - t)%Z -> shown = localeDate host t)
  /\ ((now < t)%Z -> shown = Str.ofZ days ++ js " days ago" /\ (days < 0)%Z).
Proof.
  intros Hs Hd. cbn zeta. destruct s as [|c r]; [congruence|].
  unfold formatPostedDate, toLocaleDateString. rewrite Hd.
  change MS_PER_DAY with 86400000%Z.
  set (d := ((now - t) / 86400000)%Z).
  assert (B : (86400000 * d <= now - t < 86400000 * d + 86400000)%Z).
  { unfold d. pose proof (Z.div_mod (now - t) 86400000).
    pose proof (Z.mod_pos_bound (now - t) 86400000). lia. }
  assert (W : (7 * (d / 7) <= d < 7 * (d / 7) + 7)%Z).
  { pose proof (Z.div_mod d 7). pose proof (Z.mod_pos_bound d 7). lia. }
  repeat match goal with |- _ /\ _ => split end; intros H;
    try (split; [|lia]);
    try (replace (d / 7)%Z with 1%Z by lia);
    destruct (d =? 0)%Z eqn:E0; destruct (d =? 1)%Z eqn:E1;
    destruct (d <? 7)%Z eqn:E7; destruct (d <? 30)%Z eqn:E30;
    destruct (1 <? d / 7)%Z eqn:Ew;
    try reflexivity;
    rewrite ?Z.eqb_eq, ?Z.eqb_neq, ?Z.ltb_lt, ?Z.ltb_ge in *; try lia.
Qed.

Lemma formatPostedDate_buckets_witness :
  formatPostedDate Sample.host (1705276800000 - 1) (Some (js "2024-01-15T00:00:00.000Z"))
  = js "-1 days ago".
Proof.
  destruct (formatPostedDate_buckets Sample.host (1705276800000 - 1) 1705276800000
              (js "2024-01-15T00:00:00.000Z")) as [_ [_ [_ [_ [_ [_ H]]]]]].
  - discriminate.
  - reflexivity.
  - destruct H as [H _]; [reflexivity|]. exact H.
Defined.

(** ** parseJobFromApi: when it throws, and what it normalises *)

Lemma formatSalary_throws (host : Host) (estimate : option Estimate.t) :
  (exists e, formatSalary host estimate = Throw e)
  <-> exists est, estimate = Some est
        /\ truthyNum (Estimate.minValue est) || truthyNum (Estimate.maxValue est) = true
        /\ wellFormedCurrency (currencyOf est) = false.
Proof.
  unfold formatSalary. split.
  - intros [e H]. destruct estimate as [est|]; [|discriminate].
    exists est. split; [reflexivity|].
    destruct (truthyNum (Estimate.minValue est) || truthyNum (Estimate.maxValue est)) eqn:Eb.
    + split; [reflexivity|].
      apply orb_true_iff in Eb.
      destruct (wellFormedCurrency (currencyOf est)); [|reflexivity].
      exfalso. cbn [negb] in H.
      repeat match type of H with
             | (if ?b then _ else _) = _ => destruct b
             end; discriminate.
    + apply orb_false_iff in Eb as [E1 E2]. rewrite E1, E2 in H. discriminate.
  - intros [est [-> [Hb Hc]]]. rewrite Hc. cbn [negb].
    apply orb_true_iff in Hb.
    destruct (truthyNum (Estimate.minValue est)), (truthyNum (Estimate.maxValue est));
      cbn [negb andb]; try (now eexists); destruct Hb; discriminate.
Qed.

(** X9.  The mapper throws exactly when the job carries no salary text and
    its salary estimate has a bound other than [0] together with a currency
    code that is not three letters; a missing or empty code counts as
    [USD]. *)
Theorem parseJobFromApi_throws_iff (host : Host) (now : Z) (job : DiceSearchJob.t) :
  (exists e, parseJobFromApi host now job = Throw e)
  <-> truthyStr (DiceSearchJob.salary job) = false
      /\ exists est, DiceSearchJob.salaryEstimate job = Some est
           /\ truthyNum (Estimate.minValue est) || truthyNum (Estimate.maxValue est) = true
           /\ wellFormedCurrency (orLit (Estimate.currency est) (js "USD")) = false.
Proof.
  rewrite <- (formatSalary_throws host (DiceSearchJob.salaryEstimate job)).
  unfold parseJobFromApi, bind.
  destruct (DiceSearchJob.salary job) as [[|c r]|]; cbn [orStr truthyStr nonEmpty].
  - destruct (formatSalary host (DiceSearchJob.salaryEstimate job)) as [s|e0].
    + split; [intros [e H]; discriminate | intros [_ [e H]]; discriminate].
    + split; [intros _; split; [reflexivity | now exists e0] | intros _; now exists e0].
  - split; [intros [e H]; discriminate | intros [H _]; discriminate].
  - destruct (formatSalary host (DiceSearchJob.salaryEstimate job)) as [s|e0].
    + split; [intros [e H]; discriminate | intros [_ [e H]]; discriminate].
    + split; [intros _; split; [reflexivity | now exists e0] | intros _; now exists e0].
Qed.

Lemma jobUrl_http (o : option jsstring) :
  startsWith (js "http")
    (match o with
     | Some u => if startsWith (js "http") u then u else DICE_BASE_URL ++ u
     | None => DICE_BASE_URL ++ render None
     end) = true.
Proof.
  destruct o as [u|]; [|reflexivity].
  destruct (startsWith (js "http") u) eqn:E; [exact E|reflexivity].
Qed.

(** X10.  In a mapped job the title, the company, the location and the
    summary are cleaned texts in normal form, the URL starts with [http],
    and a salary text of the API job is passed on as it is, uncleaned. *)
Theorem parseJobFromApi_normalised (host : Host) (now : Z) (job : DiceSearchJob.t)
    (b : Basic.t) :
  parseJobFromApi host now job = Ok b ->
  normalText (Basic.title b) /\ normalText (Basic.company b)
  /\ normalText (Basic.location b)
  /\ (exists s, Basic.summary b = Some s /\ normalText s)
  /\ startsWith (js "http") (Basic.url b) = true
  /\ (forall s, DiceSearchJob.salary job = Some s -> s <> [] -> Basic.salary b = Some s).
Proof.
  unfold parseJobFromApi, bind. intros H.
  destruct (match orStr (DiceSearchJob.salary job) None with
            | Some s => Ok (Some s)
            | None => formatSalary host (DiceSearchJob.salaryEstimate job)
            end) as [salary|e] eqn:Es; [|discriminate].
  injection H as <-. cbn [Basic.title Basic.company Basic.location Basic.summary
                          Basic.url Basic.salary].
  repeat match goal with |- _ /\ _ => split end;
    try apply cleanText_is_normal.
  - eexists. split; [reflexivity|apply cleanText_is_normal].
  - exact (jobUrl_http (DiceSearchJob.detailsPageUrl job)).
  - intros s Hs Hne. rewrite Hs in Es. destruct s as [|c r]; [congruence|].
    cbn in Es. congruence.
Qed.

Lemma parseJobFromApi_normalised_witness :
  normalText (Basic.title Sample.parsed)
  /\ startsWith (js "http") (Basic.url Sample.parsed) = true.
Proof.
  destruct (parseJobFromApi_normalised Sample.host 0 Sample.job Sample.parsed)
    as [H [_ [_ [_ [Hu _]]]]]; [reflexivity|]. split; [exact H|exact Hu].
Defined.

(** ** retryWithBackoff *)

Section Backoff.

Import Retry.

Lemma delays_S (d : Z) (a n : nat) :
  delays d a (S n) = (d * 2 ^ Z.of_nat a)%Z :: delays d (S a) n.
Proof. reflexivity. Qed.

Lemma total_delays (d : Z) (a n : nat) :
  total (delays d a n) = (d * 2 ^ Z.of_nat a * (2 ^ Z.of_nat n - 1))%Z.
Proof.
  revert a. induction n as [|n IH]; intros a.
  - cbn. lia.
  - rewrite delays_S. unfold total in *. cbn [fold_right]. rewrite IH.
    rewrite !Nat2Z.inj_succ, !Z.pow_succ_r by lia. lia.
Qed.

Lemma attempts_resolved {A : Type} (fn : nat -> result A) (d : Z) (v : A) (k : nat) :
  forall (a left : nat) (last : option jsstring) (slept : list Z),
  k < left ->
  (forall i, i < k -> exists e, fn (a + i) = Throw e) ->
  fn (a + k) = Ok v ->
  attempts fn d a left last slept = (Resolved v, slept ++ delays d a k).
Proof.
  induction k as [|k IH]; intros a left last slept Hk Hf Hv.
  - destruct left as [|left]; [lia|]. cbn [attempts].
    rewrite Nat.add_0_r in Hv. rewrite Hv. now rewrite app_nil_r.
  - destruct left as [|left]; [lia|]. cbn [attempts].
    destruct (Hf 0) as [e He]; [lia|]. rewrite Nat.add_0_r in He. rewrite He.
    destruct left as [|left]; [lia|].
    rewrite (IH (S a) (S left) (Some e) (slept ++ [(d * 2 ^ Z.of_nat a)%Z])).
    + rewrite delays_S, <- app_assoc. reflexivity.
    + lia.
    + intros i Hi. destruct (Hf (S i)) as [e' He']; [lia|].
      exists e'. rewrite <- He'. f_equal. lia.
    + rewrite <- Hv. f_equal. lia.
Qed.

Lemma attempts_rejected {A : Type} (fn : nat -> result A) (d : Z) (left : nat) :
  forall (a : nat) (last : option jsstring) (slept : list Z),
  (forall i, i < left -> exists e, fn (a + i) = Throw e) ->
  attempts fn d a left last slept
  = (Rejected (lastOf fn a left last), slept ++ delays d a (Nat.pred left)).
Proof.
  induction left as [|left IH]; intros a last slept Hf.
  - cbn. now rewrite app_nil_r.
  - cbn [attempts]. destruct (Hf 0) as [e He]; [lia|].
    rewrite Nat.add_0_r in He. rewrite He. rewrite IH.
    + f_equal.
      * f_equal. destruct left as [|left]; cbn [lastOf].
        -- now rewrite Nat.add_0_r, He.
        -- now replace (S a + left) with (a + S left) by lia.
      * destruct left as [|left]; [reflexivity|].
        cbn [Nat.pred]. rewrite delays_S, <- app_assoc. reflexivity.
    + intros i Hi. destruct (Hf (S i)) as [e' He']; [lia|].
      exists e'. rewrite <- He'. f_equal. lia.
Qed.

End Backoff.

(** X11.  When the calls before the [k]-th fail and the [k]-th succeeds,
    with [k] below the number of attempts allowed, the run resolves with that
    result after having slept once after each failure, the initial delay
    doubled each time. *)
Theorem retryWithBackoff_resolves {A : Type} (fn : nat -> result A)
    (maxRetries k : nat) (initialDelayMs : Z) (v : A) :
  k < maxRetries ->
  (forall i, i < k -> exists e, fn i = Throw e) ->
  fn k = Ok v ->
  Retry.retryWithBackoff fn maxRetries initialDelayMs
  = (Retry.Resolved v, Retry.delays initialDelayMs 0 k)
  /\ Retry.total (Retry.delays initialDelayMs 0 k) = (initialDelayMs * (2 ^ Z.of_nat k - 1))%Z.
Proof.
  intros Hk Hf Hv. split.
  - unfold Retry.retryWithBackoff.
    now rewrite (attempts_resolved fn initialDelayMs v k 0 maxRetries None []).
  - rewrite total_delays. cbn [Z.of_nat]. lia.
Qed.

Lemma retryWithBackoff_resolves_witness :
  Retry.retryWithBackoff
    (fun i => if i <? 2 then Throw (js "busy") else Ok 7%Z) 3 1000
  = (Retry.Resolved 7%Z, [1000; 2000]%Z).
Proof.
  apply (retryWithBackoff_resolves
           (fun i => if i <? 2 then Throw (js "busy") else Ok 7%Z) 3 2 1000 7%Z).
  - lia.
  - intros i Hi. exists (js "busy").
    destruct i as [|[|i]]; [reflexivity|reflexivity|lia].
  - reflexivity.
Defined.

(** X12.  When every allowed call fails, the run is rejected with the error
    of the last call, having slept between the calls but not after the last
    one; the delays add up to the initial delay times [2^(n-1) - 1].  With
    no attempt allowed, the function is not called and the run is rejected
    with [undefined]. *)
Theorem retryWithBackoff_rejects {A : Type} (fn : nat -> result A)
    (maxRetries : nat) (initialDelayMs : Z) :
  (forall i, i < maxRetries -> exists e, fn i = Throw e) ->
  Retry.retryWithBackoff fn maxRetries initialDelayMs
  = (Retry.Rejected
       match maxRetries with
       | O => None
       | S m => match fn m with
                | Throw e => Some e
                | Ok _ => None
                end
       end,
     Retry.delays initialDelayMs 0 (Nat.pred maxRetries))
  /\ List.length (Retry.delays initialDelayMs 0 (Nat.pred maxRetries)) = Nat.pred maxRetries
  /\ Retry.total (Retry.delays initialDelayMs 0 (Nat.pred maxRetries))
     = (initialDelayMs * (2 ^ Z.of_nat (Nat.pred maxRetries) - 1))%Z.
Proof.
  intros Hf. repeat split.
  - unfold Retry.retryWithBackoff.
    now rewrite (attempts_rejected fn initialDelayMs maxRetries 0 None []).
  - unfold Retry.delays. now rewrite length_map, length_seq.
  - rewrite total_delays. cbn [Z.of_nat]. lia.
Qed.

Lemma retryWithBackoff_rejects_witness :
  Retry.retryWithBackoff (fun i => @Throw Z (Str.ofZ (Z.of_nat i))) 3 1000
  = (Retry.Rejected (Some (js "2")), [1000; 2000]%Z).
Proof.
  apply (retryWithBackoff_rejects (fun i => @Throw Z (Str.ofZ (Z.of_nat i))) 3 1000).
  intros i _. eexists. reflexivity.
Defined.

(** ** The URL builders *)

Section QueryStrings.

Lemma set_absent (name value : jsstring) (l : Url.params) :
  Url.has name l = false -> Url.set name value l = l ++ [(name, value)].
Proof.
  induction l as [|[n v] l IH]; [reflexivity|].
  unfold Url.has; cbn [existsb fst Url.set]; fold (Url.has name l). intros H.
  apply orb_false_iff in H as [Hn Hl]. rewrite Hn. cbn [app]. f_equal. now apply IH.
Qed.

Lemma appendAll_map (name : jsstring) (values : list jsstring) (l : Url.params) :
  appendAll name values l = l ++ List.map (fun v => (name, v)) values.
Proof.
  unfold appendAll. revert l. induction values as [|v values IH]; intros l; cbn.
  - now rewrite app_nil_r.
  - rewrite IH. unfold Url.append. now rewrite <- app_assoc.
Qed.

Lemma when_appendAll (name : jsstring) (values : list jsstring) (l : Url.params) :
  when (0 <? List.length values) (appendAll name values) l = appendAll name values l.
Proof. now destruct values. Qed.

Lemma has_app (name : jsstring) (l l' : Url.params) :
  Url.has name (l ++ l') = Url.has name l || Url.has name l'.
Proof. apply existsb_app. Qed.

Lemma has_same (name other : jsstring) (values : list jsstring) :
  Str.eqb other name = false ->
  Url.has name (List.map (fun v => (other, v)) values) = false.
Proof.
  intros H. induction values as [|v values IH]; [reflexivity|].
  unfold Url.has in *. cbn [List.map existsb fst]. now rewrite H.
Qed.

Lemma join_app (sep : jsstring) (l l' : list jsstring) :
  l' <> [] ->
  Url.join sep (l ++ l')
  = match l with
    | [] => []
    | _ :: _ => Url.join sep l ++ sep
    end ++ Url.join sep l'.
Proof.
  intros Hl'. induction l as [|a l IH]; [reflexivity|].
  destruct l as [|b l].
  - cbn [app Url.join]. destruct l' as [|c l']; [congruence|]. now rewrite <- app_assoc.
  - change ((a :: b :: l) ++ l') with (a :: (b :: l) ++ l').
    change (Url.join sep (a :: (b :: l) ++ l'))
      with (a ++ sep ++ Url.join sep ((b :: l) ++ l')).
    rewrite IH. change (Url.join sep (a :: b :: l)) with (a ++ sep ++ Url.join sep (b :: l)).
    now rewrite <- !app_assoc.
Qed.

Lemma plain_ascii (c : N) : Url.plain c = true -> (c < 128)%N.
Proof.
  unfold Url.plain. intros H.
  repeat match type of H with
         | (_ || _) = true => apply orb_true_iff in H as [H|H]
         end;
    try (apply andb_true_iff in H as [_ H]; apply N.leb_le in H; lia);
    apply N.eqb_eq in H; lia.
Qed.

Lemma codePoints_plain (s : jsstring) : forallb Url.plain s = true -> Url.codePoints s = s.
Proof.
  induction s as [|a r IH]; [reflexivity|]. cbn [forallb]. intros H.
  apply andb_true_iff in H as [Ha Hr]. pose proof (plain_ascii a Ha) as La.
  assert (Hh : Url.isHigh a = false).
  { unfold Url.isHigh. apply andb_false_iff. left. apply N.leb_gt. lia. }
  assert (Hl : Url.isLow a = false).
  { unfold Url.isLow. apply andb_false_iff. left. apply N.leb_gt. lia. }
  cbn [Url.codePoints]. rewrite Hh, Hl. cbn [andb orb].
  destruct r as [|b r']; [reflexivity|]. now rewrite (IH Hr).
Qed.

Lemma encode_plain (s : jsstring) : forallb Url.plain s = true -> Url.encode s = s.
Proof.
  intros H. unfold Url.encode. rewrite (codePoints_plain s H).
  induction s as [|a r IH]; [reflexivity|]. cbn [forallb] in H.
  apply andb_true_iff in H as [Ha Hr]. cbn [flat_map]. rewrite (IH Hr).
  unfold Url.utf8. pose proof (plain_ascii a Ha) as La.
  apply N.ltb_lt in La. rewrite La. cbn [flat_map]. unfold Url.formByte. now rewrite Ha.
Qed.

Lemma uint_plain (d : Decimal.uint) :
  forallb Url.plain (js (NilEmpty.string_of_uint d)) = true.
Proof. induction d; cbn [NilEmpty.string_of_uint]; try reflexivity; exact IHd. Qed.

Lemma ofZ_plain (z : Z) : forallb Url.plain (Str.ofZ z) = true.
Proof.
  unfold Str.ofZ. destruct (Z.to_int z) as [d|d]; cbn [NilEmpty.string_of_int].
  - apply uint_plain.
  - exact (uint_plain d).
Qed.

Lemma pair_number (name : String.string) (z : Z) :
  forallb Url.plain (js name) = true ->
  Url.pair (js name, Str.ofZ z) = js name ++ js "=" ++ Str.ofZ z.
Proof.
  intros H. unfold Url.pair. cbn [fst snd].
  now rewrite (encode_plain _ H), (encode_plain _ (ofZ_plain z)).
Qed.

(** The pairs of the API query string, written out. *)
Lemma searchApiPairs_written (c1 c2 c3 c4 c5 c6 c7 : bool)
    (q loc rad emp pd wt pg ps : jsstring) :
  Url.set (js "language") (js "en")
    (Url.set (js "filters.isRemote") (js "true")
       (Url.set (js "pageSize") ps
          (Url.set (js "page") pg
             (when c7 (Url.set (js "easyApply") (js "true"))
                (when c6 (Url.set (js "workplaceTypes") wt)
                   (when c5 (Url.set (js "postedDate") pd)
                      (when c4 (Url.set (js "employmentType") emp)
                         (when c3 (Url.set (js "radius") rad)
                            (when c2
                               (fun l => Url.set (js "countryCode2") (js "US")
                                           (Url.set (js "longitude") []
                                              (Url.set (js "latitude") []
                                                 (Url.set (js "location") loc l))))
                               (when c1 (Url.set (js "q") q) []))))))))))
  = ((if c1 then [(js "q", q)] else [])
     ++ (if c2 then [(js "location", loc); (js "latitude", []); (js "longitude", []);
                     (js "countryCode2", js "US")] else [])
     ++ (if c3 then [(js "radius", rad)] else [])
     ++ (if c4 then [(js "employmentType", emp)] else [])
     ++ (if c5 then [(js "postedDate", pd)] else [])
     ++ (if c6 then [(js "workplaceTypes", wt)] else [])
     ++ (if c7 then [(js "easyApply", js "true")] else []))
    ++ [(js "page", pg); (js "pageSize", ps); (js "filters.isRemote", js "true");
        (js "language", js "en")].
Proof. destruct c1, c2, c3, c4, c5, c6, c7; vm_compute; reflexivity. Qed.

Lemma postedDays_range (host : Host) (key : jsstring) : (0 <= postedDays host key)%Z.
Proof.
  unfold postedDays, lookup, POSTED_DATE_MAP.
  repeat match goal with
         | |- context [if ?b then _ else _] => destruct b
         | |- context [match inherited host key with _ => _ end] =>
             destruct (inherited host key)
         end; lia.
Qed.

Lemma postedDays_unset (host : Host) (key : jsstring) :
  key = [] \/ key = js "ANY" -> postedDays host key = 0%Z.
Proof.
  intros [-> | ->]; unfold postedDays, lookup; cbn; [|reflexivity].
  now destruct (inherited host []).
Qed.

Lemma posted_guard (host : Host) (pd : jsstring) :
  nonEmpty pd && negb (Str.eqb pd (js "ANY")) && (0 <? postedDays host pd)%Z
  = (0 <? postedDays host pd)%Z.
Proof.
  destruct pd as [|c pd].
  - now rewrite (postedDays_unset host []) by now left.
  - cbn [nonEmpty andb]. destruct (Str.eqb (c :: pd) (js "ANY")) eqn:E; [|reflexivity].
    apply jsstring_eqb_eq in E. rewrite E.
    now rewrite (postedDays_unset host (js "ANY")) by now right.
Qed.

Lemma posted_filter (host : Host) (pd : jsstring) :
  (0 <? postedDays host pd)%Z = false <-> postedDays host pd = 0%Z.
Proof. pose proof (postedDays_range host pd). rewrite Z.ltb_ge. lia. Qed.

Lemma workplace_guard (host : Host) (wt : list jsstring) :
  (0 <? List.length wt) && (0 <? List.length (mappedTypes host wt))
  = (0 <? List.length (mappedTypes host wt)).
Proof. now destruct wt. Qed.

Lemma nonEmpty_false (s : jsstring) : nonEmpty s = false <-> s = [].
Proof. destruct s; cbn; split; congruence. Qed.

Lemma noLength_false {A : Type} (l : list A) : (0 <? List.length l) = false <-> l = [].
Proof. destruct l; cbn; split; congruence. Qed.

(** The pairs of the site's query string, written out. *)
Lemma searchPairs_written (c1 c2 c3 c5 c7 : bool) (q loc rad pd pg : jsstring)
    (emp wt : list jsstring) :
  Url.set (js "pageSize") (js "100")
    (Url.set (js "page") pg
       (when c7 (Url.set (js "filters.easyApply") (js "true"))
          (when (0 <? List.length wt) (appendAll (js "filters.workplaceTypes") wt)
             (when c5 (Url.set (js "filters.postedDate") pd)
                (when (0 <? List.length emp) (appendAll (js "filters.employmentType") emp)
                   (when c3 (Url.set (js "radius") rad)
                      (when c2 (Url.set (js "location") loc)
                         (when c1 (Url.set (js "q") q) []))))))))
  = ((if c1 then [(js "q", q)] else [])
     ++ (if c2 then [(js "location", loc)] else [])
     ++ (if c3 then [(js "radius", rad)] else [])
     ++ List.map (fun v => (js "filters.employmentType", v)) emp
     ++ (if c5 then [(js "filters.postedDate", pd)] else [])
     ++ List.map (fun v => (js "filters.workplaceTypes", v)) wt
     ++ (if c7 then [(js "filters.easyApply", js "true")] else []))
    ++ [(js "page", pg); (js "pageSize", js "100")].
Proof.
  rewrite !when_appendAll, !appendAll_map.
  set (E := List.map (fun v => (js "filters.employmentType", v)) emp).
  set (W := List.map (fun v => (js "filters.workplaceTypes", v)) wt).
  assert (HE : forall n, Str.eqb (js "filters.employmentType") n = false ->
                         Url.has n E = false) by (intros; now apply has_same).
  assert (HW : forall n, Str.eqb (js "filters.workplaceTypes") n = false ->
                         Url.has n W = false) by (intros; now apply has_same).
  assert (S1 : when c1 (Url.set (js "q") q) [] = if c1 then [(js "q", q)] else [])
    by now destruct c1.
  rewrite S1.
  assert (A : forall (c : bool) (n v : jsstring) (l : Url.params),
             Url.has n l = false ->
             when c (Url.set n v) l = l ++ if c then [(n, v)] else []).
  { intros c n v l H. destruct c; cbn [when]; [now apply set_absent|now rewrite app_nil_r]. }
  rewrite (A c2) by now destruct c1.
  rewrite (A c3) by now destruct c1, c2.
  rewrite (A c5)
    by (rewrite !has_app, HE by reflexivity; now destruct c1, c2, c3).
  rewrite (A c7)
    by (rewrite !has_app, HE, HW by reflexivity; now destruct c1, c2, c3, c5).
  rewrite (set_absent (js "page"))
    by (rewrite !has_app, HE, HW by reflexivity; now destruct c1, c2, c3, c5, c7).
  rewrite (set_absent (js "pageSize"))
    by (rewrite !has_app, HE, HW by reflexivity; now destruct c1, c2, c3, c5, c7).
  rewrite <- !app_assoc. reflexivity.
Qed.

Lemma join_holds (sep x : jsstring) (l : list jsstring) :
  In x l -> occursIn (x ++ sep) (Url.join sep l ++ sep).
Proof.
  induction l as [|a l IH]; [intros []|].
  intros [->|H].
  - destruct l as [|b l].
    + exists [], []. cbn [Url.join app]. now rewrite app_nil_r.
    + exists [], (Url.join sep (b :: l) ++ sep).
      change (Url.join sep (x :: b :: l)) with (x ++ sep ++ Url.join sep (b :: l)).
      cbn [app]. now rewrite <- !app_assoc.
  - destruct l as [|b l]; [destruct H|].
    destruct (IH H) as [before [after E]].
    exists (a ++ sep ++ before), after.
    change (Url.join sep (a :: b :: l)) with (a ++ sep ++ Url.join sep (b :: l)).
    rewrite <- !app_assoc. rewrite <- !app_assoc in E. now rewrite E.
Qed.

End QueryStrings.

Lemma apiFilters_written (host : Host) (p : SearchParams.t) :
  (if nonEmpty (SearchParams.query p) then [(js "q", SearchParams.query p)] else [])
  ++ (if nonEmpty (SearchParams.location p)
      then [(js "location", SearchParams.location p); (js "latitude", []);
            (js "longitude", []); (js "countryCode2", js "US")]
      else [])
  ++ (if (0 <? SearchParams.radius p)%Z
      then [(js "radius", Str.ofZ (SearchParams.radius p))] else [])
  ++ (if 0 <? List.length (SearchParams.employmentTypes p)
      then [(js "employmentType", Url.join (js ",") (SearchParams.employmentTypes p))]
      else [])
  ++ (if nonEmpty (SearchParams.postedDate p)
         && negb (Str.eqb (SearchParams.postedDate p) (js "ANY"))
         && (0 <? postedDays host (SearchParams.postedDate p))%Z
      then [(js "postedDate", Str.ofZ (postedDays host (SearchParams.postedDate p)))]
      else [])
  ++ (if (0 <? List.length (SearchParams.workplaceTypes p))
         && (0 <? List.length (mappedTypes host (SearchParams.workplaceTypes p)))
      then [(js "workplaceTypes",
             Url.join (js ",") (mappedTypes host (SearchParams.workplaceTypes p)))]
      else [])
  ++ (if SearchParams.easyApply p then [(js "easyApply", js "true")] else [])
  = apiFilters host p.
Proof.
  unfold apiFilters. rewrite posted_guard, workplace_guard.
  destruct (SearchParams.employmentTypes p); destruct (mappedTypes host _); reflexivity.
Qed.

Lemma apiFilters_none (host : Host) (p : SearchParams.t) :
  apiFilters host p = []
  <-> SearchParams.query p = [] /\ SearchParams.location p = []
      /\ (SearchParams.radius p <= 0)%Z
      /\ SearchParams.employmentTypes p = []
      /\ postedDays host (SearchParams.postedDate p) = 0%Z
      /\ mappedTypes host (SearchParams.workplaceTypes p) = []
      /\ SearchParams.easyApply p = false.
Proof.
  unfold apiFilters. rewrite <- (posted_filter host), <- Z.ltb_ge. split.
  - intros H.
    repeat match type of H with
           | _ ++ _ = [] => let P := fresh "P" in apply app_eq_nil in H as [P H]
           end.
    repeat split.
    + now destruct (SearchParams.query p).
    + now destruct (SearchParams.location p).
    + now destruct (0 <? SearchParams.radius p)%Z.
    + now destruct (SearchParams.employmentTypes p).
    + now destruct (0 <? postedDays host (SearchParams.postedDate p))%Z.
    + now destruct (mappedTypes host (SearchParams.workplaceTypes p)).
    + now destruct (SearchParams.easyApply p).
  - intros (-> & -> & -> & -> & -> & -> & ->). reflexivity.
Qed.

(** X13.  The query string for the API is the serialization of the
    filters that are set, in a fixed order, followed by the page, the page
    size, [filters.isRemote=true] and [language=en].  It always ends with
    these four, and nothing comes before them exactly when no filter is
    set: no query, no location, no positive radius, no employment type, no
    posted-date key that stands for a number of days, no workplace type
    that names a property of the table (its own or an inherited one), and no
    easy-apply flag. *)
Theorem buildSearchApiUrl_shape (host : Host) (p : SearchParams.t) :
  buildSearchApiUrl host p
  = Url.toString
      (apiFilters host p
       ++ [ (js "page", Str.ofZ (SearchParams.page p));
            (js "pageSize", Str.ofZ (SearchParams.pageSize p));
            (js "filters.isRemote", js "true"); (js "language", js "en") ])
  /\ exists head,
      buildSearchApiUrl host p
      = head ++ js "page=" ++ Str.ofZ (SearchParams.page p)
          ++ js "&pageSize=" ++ Str.ofZ (SearchParams.pageSize p)
          ++ js "&filters.isRemote=true&language=en"
      /\ (head = []
          <-> SearchParams.query p = [] /\ SearchParams.location p = []
              /\ (SearchParams.radius p <= 0)%Z
              /\ SearchParams.employmentTypes p = []
              /\ postedDays host (SearchParams.postedDate p) = 0%Z
              /\ mappedTypes host (SearchParams.workplaceTypes p) = []
              /\ SearchParams.easyApply p = false).
Proof.
  assert (E : buildSearchApiUrl host p
              = Url.toString
                  (apiFilters host p
                   ++ [ (js "page", Str.ofZ (SearchParams.page p));
                        (js "pageSize", Str.ofZ (SearchParams.pageSize p));
                        (js "filters.isRemote", js "true"); (js "language", js "en") ])).
  { unfold buildSearchApiUrl, searchApiPairs. cbv zeta.
    now rewrite searchApiPairs_written, apiFilters_written. }
  split; [exact E|]. rewrite E.
  unfold Url.toString. rewrite map_app, join_app by discriminate.
  exists (match List.map Url.pair (apiFilters host p) with
          | [] => []
          | _ :: _ => Url.join (js "&") (List.map Url.pair (apiFilters host p)) ++ js "&"
          end).
  split.
  - f_equal. cbn [List.map Url.join].
    rewrite (pair_number "page" _ eq_refl), (pair_number "pageSize" _ eq_refl).
    change (Url.pair (js "filters.isRemote", js "true")) with (js "filters.isRemote=true").
    change (Url.pair (js "language", js "en")) with (js "language=en").
    rewrite <- !app_assoc. reflexivity.
  - rewrite <- apiFilters_none.
    destruct (apiFilters host p) as [|a f]; cbn [List.map]; [tauto|].
    split; [|discriminate]. intros H. apply app_eq_nil in H as [_ H]. discriminate.
Qed.

(** X14.  The URL of the site's search page is the base URL, [/jobs?], the
    filters, and then the page and [pageSize=100].  Nothing stands between
    [/jobs?] and the page exactly when no filter is set, and every
    employment type of the input is sent as a pair of its own. *)
Theorem buildSearchUrl_shape (input : Input.t) (page : Z) :
  exists head,
    buildSearchUrl input page
    = js "https://www.dice.com/jobs?" ++ head ++ js "page=" ++ Str.ofZ page
        ++ js "&pageSize=100"
    /\ (head = []
        <-> Input.searchQuery input = [] /\ Input.location input = []
            /\ (Input.radius input <= 0)%Z
            /\ Input.employmentTypes input = []
            /\ (Input.postedDate input = [] \/ Input.postedDate input = js "ANY")
            /\ Input.workplaceTypes input = []
            /\ Input.easyApply input = false)
    /\ (forall t, In t (Input.employmentTypes input) ->
        occursIn (js "filters.employmentType=" ++ Url.encode t ++ js "&") head).
Proof.
  unfold buildSearchUrl, searchPairs. cbv zeta.
  rewrite searchPairs_written.
  match goal with |- context [Url.toString (?f ++ _)] => set (filters := f) end.
  unfold Url.toString. rewrite map_app, join_app by discriminate.
  exists (match List.map Url.pair filters with
          | [] => []
          | _ :: _ => Url.join (js "&") (List.map Url.pair filters) ++ js "&"
          end).
  split; [|split].
  - change (js "https://www.dice.com/jobs?") with (DICE_BASE_URL ++ js "/jobs?").
    rewrite <- (app_assoc DICE_BASE_URL). do 3 f_equal.
    cbn [List.map Url.join]. rewrite (pair_number "page" _ eq_refl).
    change (Url.pair (js "pageSize", js "100")) with (js "pageSize=100").
    rewrite <- !app_assoc. reflexivity.
  - assert (N : forall l : jsstring,
               match List.map Url.pair filters with
               | [] => []
               | _ :: _ => l ++ js "&"
               end = [] <-> filters = []).
    { intros l. destruct filters as [|a f]; cbn [List.map]; [tauto|].
      split; [|discriminate]. intros H. apply app_eq_nil in H as [_ H]. discriminate. }
    rewrite N. unfold filters. clear. split.
    + intros H.
      repeat match type of H with
             | _ ++ _ = [] => let H' := fresh "P" in apply app_eq_nil in H as [H' H]
             end.
      apply map_eq_nil in P2, P4.
      repeat split; try assumption.
      * now destruct (Input.searchQuery input).
      * now destruct (Input.location input).
      * destruct (0 <? Input.radius input)%Z eqn:E; [discriminate|].
        now apply Z.ltb_ge in E.
      * destruct (Input.postedDate input) as [|c pd]; [now left|right].
        cbn [nonEmpty andb] in P3.
        destruct (Str.eqb (c :: pd) (js "ANY")) eqn:E; [|discriminate].
        now apply jsstring_eqb_eq in E.
      * now destruct (Input.easyApply input).
    + intros (-> & -> & Hr & -> & Hpd & -> & ->).
      apply Z.ltb_ge in Hr. rewrite Hr.
      destruct Hpd as [-> | ->]; reflexivity.
  - intros t Ht.
    assert (Hin : In (js "filters.employmentType", t) filters).
    { unfold filters. rewrite !in_app_iff. right. right. right. left.
      apply in_map_iff. now exists t. }
    destruct filters as [|a f]; [destruct Hin|].
    apply (join_holds (js "&") (Url.pair (js "filters.employmentType", t))).
    apply in_map_iff. now eexists.
Qed.

(** ** The page loops and the two ways of emitting a page *)

Section Pages.



Lemma advance_0 (r : Router) : advance r 0 = r.
Proof. destruct r as [j m s]. unfold advance. cbn. f_equal. lia. Qed.

Lemma advance_step (r : Router) (n : nat) : advance (countJob r) n = advance r (S n).
Proof. unfold advance, countJob. cbn [jobsScraped maxJobs scrapeJobDetails]. f_equal. lia. Qed.



Lemma emitJobs_router (urlKey : jsstring -> jsstring)
    (scrapedAt : jsstring) (l : list Basic.t) (w : World) :
  router (emitJobs urlKey scrapedAt l w) = router w.
Proof. now destruct (emitJobs_effect urlKey scrapedAt l w) as [H _]. Qed.

Lemma known_mono (urlKey : jsstring -> jsstring) (q : list Request.t) (r r' : Request.t) :
  known urlKey q r = true -> known urlKey (addRequest urlKey q r') r = true.
Proof.
  unfold addRequest. intros H. destruct (known urlKey q r'); [exact H|].
  unfold known in *. rewrite existsb_app, H. reflexivity.
Qed.

Lemma known_added (urlKey : jsstring -> jsstring)
    (q : list Request.t) (r : Request.t) : known urlKey (addRequest urlKey q r) r = true.
Proof.
  unfold addRequest. destruct (known urlKey q r) eqn:E; [exact E|apply known_last].
Qed.

Lemma known_fold (urlKey : jsstring -> jsstring) (rs : list Request.t) :
  forall (q : list Request.t) (r : Request.t),
  known urlKey q r = true \/ In r rs -> known urlKey (fold_left (addRequest urlKey) rs q) r = true.
Proof.
  induction rs as [|a rs IH]; intros q r H; cbn [fold_left].
  - destruct H as [H|[]]. exact H.
  - apply IH. destruct H as [H|[->|H]].
    + left. now apply known_mono.
    + left. apply known_added.
    + now right.
Qed.

Lemma fold_addRequest_from (urlKey : jsstring -> jsstring) (rs : list Request.t) :
  forall (q : list Request.t),
  exists added, fold_left (addRequest urlKey) rs q = q ++ added /\ incl added rs.
Proof.
  induction rs as [|a rs IH]; intros q; cbn [fold_left].
  - exists []. split; [now rewrite app_nil_r|intros x []].
  - destruct (IH (addRequest urlKey q a)) as [added [E Hi]]. unfold addRequest in *.
    destruct (known urlKey q a).
    + exists added. split; [exact E|]. intros x Hx. right. now apply Hi.
    + exists (a :: added). split; [now rewrite E, <- app_assoc|].
      intros x [->|Hx]; [now left|right; now apply Hi].
Qed.

End Pages.



Section Accepted.

Lemma jsstring_eqb_sym (a b : jsstring) : Str.eqb a b = Str.eqb b a.
Proof.
  destruct (Str.eqb a b) eqn:E.
  - apply jsstring_eqb_eq in E. subst. symmetry. apply jsstring_eqb_refl.
  - destruct (Str.eqb b a) eqn:E'; [|reflexivity].
    apply jsstring_eqb_eq in E'. subst. now rewrite jsstring_eqb_refl in E.
Qed.

Lemma known_seen (urlKey : jsstring -> jsstring) (q : list Request.t) (r : Request.t) :
  known urlKey q r = member (keyOf urlKey r) (List.map (keyOf urlKey) q).
Proof.
  unfold known, member. induction q as [|a q IH]; [reflexivity|].
  cbn [existsb List.map]. now rewrite IH, jsstring_eqb_sym.
Qed.

Lemma fold_addRequest_accepted (urlKey : jsstring -> jsstring) (rs : list Request.t) :
  forall (q : list Request.t) (seen : list jsstring),
  (forall r, known urlKey q r = member (keyOf urlKey r) seen) ->
  fold_left (addRequest urlKey) rs q = q ++ accepted urlKey seen rs.
Proof.
  induction rs as [|r rs IH]; intros q seen H; cbn [fold_left accepted].
  - now rewrite app_nil_r.
  - unfold addRequest at 2. rewrite <- (H r). destruct (known urlKey q r) eqn:E.
    + now apply IH.
    + rewrite (IH (q ++ [r]) (keyOf urlKey r :: seen)).
      * now rewrite <- app_assoc.
      * intros r'. unfold known, member in *. rewrite existsb_app. cbn [existsb].
        rewrite H, orb_false_r, orb_comm. f_equal. apply jsstring_eqb_sym.
Qed.

Lemma accepted_fresh (urlKey : jsstring -> jsstring) (rs : list Request.t) :
  forall seen : list jsstring,
  NoDup (List.map (keyOf urlKey) (accepted urlKey seen rs))
  /\ forall r, In r (accepted urlKey seen rs) -> member (keyOf urlKey r) seen = false.
Proof.
  induction rs as [|r rs IH]; intros seen; cbn [accepted].
  - split; [constructor|intros r []].
  - destruct (member (keyOf urlKey r) seen) eqn:E; [apply IH|].
    destruct (IH (keyOf urlKey r :: seen)) as [Hn Hf]. split.
    + cbn [List.map]. constructor; [|exact Hn].
      intros Hin. apply in_map_iff in Hin as [r' [Hk Hr']].
      specialize (Hf r' Hr'). unfold member in Hf. cbn [existsb] in Hf.
      rewrite Hk, jsstring_eqb_refl in Hf. discriminate.
    + intros r' [<-|Hr']; [exact E|].
      specialize (Hf r' Hr'). unfold member in *. cbn [existsb] in Hf.
      now apply orb_false_iff in Hf.
Qed.

End Accepted.

(** X16.  How both search handlers emit the jobs of a page.  With detail
    scraping on, nothing is stored, and the queue is extended by the detail
    requests of the jobs, in page order, leaving out each request whose key
    (the key the crawler makes of the job's URL) the queue knows already or
    an earlier job of the page bears: what is added has keys that are new
    and differ from one another, and afterwards the queue knows the key of
    every job of the page.  With detail scraping off, the queue is left
    alone and the jobs are stored in page order, each with the time stamp.
    The counter is not touched. *)
Theorem emitJobs_modes (urlKey : jsstring -> jsstring) (scrapedAt : jsstring)
    (jobs : list Basic.t) (w : World) :
  let w' := emitJobs urlKey scrapedAt jobs w in
  let added := accepted urlKey (List.map (keyOf urlKey) (queue w))
                 (List.map detailRequest jobs) in
  router w' = router w
  /\ (scrapeJobDetails (router w) = true ->
      dataset w' = dataset w
      /\ queue w' = queue w ++ added
      /\ (forall job, In job jobs -> known urlKey (queue w') (detailRequest job) = true)
      /\ (forall r, In r added -> known urlKey (queue w) r = false)
      /\ NoDup (List.map (keyOf urlKey) added)
      /\ (forall job, keyOf urlKey (detailRequest job) = urlKey (Basic.url job)))
  /\ (scrapeJobDetails (router w) = false ->
      queue w' = queue w
      /\ dataset w' = dataset w ++ List.map (fun job => BasicItem job scrapedAt) jobs).
Proof.
  cbn zeta. split; [apply emitJobs_router|]. unfold emitJobs. split; intros Hs; rewrite Hs.
  - destruct (accepted_fresh urlKey (List.map detailRequest jobs)
                (List.map (keyOf urlKey) (queue w))) as [Hn Hf].
    assert (Hq : fold_left (addRequest urlKey) (List.map detailRequest jobs) (queue w)
                 = queue w ++ accepted urlKey (List.map (keyOf urlKey) (queue w))
                                (List.map detailRequest jobs)).
    { apply fold_addRequest_accepted. intros r. apply known_seen. }
    destruct jobs as [|job jobs].
    + cbn. rewrite app_nil_r. repeat split; try constructor; intros ? [].
    + cbn [andb List.length Nat.ltb Nat.leb addRequests queue dataset].
      split; [reflexivity|]. split; [exact Hq|]. split; [|split; [|split]].
      * intros j Hj. apply known_fold. right. now apply in_map.
      * intros r Hr. rewrite known_seen. now apply Hf.
      * exact Hn.
      * reflexivity.
  - cbn [andb]. destruct (pushAll_dataset scrapedAt jobs w) as [_ [Hq Hd]].
    cbn zeta in *. now split.
Qed.

Lemma emitJobs_modes_witness :
  queue (emitJobs Sample.urlKey (js "T0") [Sample.parsed; Cases.slashed Sample.parsed]
           (mkWorld (mkRouter 2 100 true) [Cases.htmlRequest] []))
  = [Cases.htmlRequest; detailRequest Sample.parsed].
Proof.
  destruct (emitJobs_modes Sample.urlKey (js "T0")
              [Sample.parsed; Cases.slashed Sample.parsed]
              (mkWorld (mkRouter 2 100 true) [Cases.htmlRequest] [])) as [_ [H _]].
  destruct H as [_ [H _]]; [reflexivity|]. rewrite H. reflexivity.
Defined.

Section ApiFailures.

Lemma shouldContinue_earlier (r : Router) (n m : nat) :
  m <= n -> shouldContinue (advance r n) = true -> shouldContinue (advance r m) = true.
Proof.
  unfold shouldContinue, advance. cbn [maxJobs jobsScraped]. intros Hm H.
  destruct (maxJobs r =? 0)%Z; [reflexivity|]. cbn [orb] in *.
  apply Z.ltb_lt in H. apply Z.ltb_lt. lia.
Qed.

Lemma processJobs_aborted (host : Host) (now : Z) (before : list DiceSearchJob.t) :
  forall (job : DiceSearchJob.t) (after : list DiceSearchJob.t) (e : jsstring)
         (r : Router) (acc : list Basic.t),
  (forall j, In j before -> exists b, parseJobFromApi host now j = Ok b) ->
  parseJobFromApi host now job = Throw e ->
  shouldContinue (advance r (List.length before)) = true ->
  processJobs host now (before ++ job :: after) r acc
  = (advance r (List.length before), Throw e).
Proof.
  induction before as [|j before IH]; intros job after e r acc Hok He Hc.
  - cbn [List.length] in *. rewrite advance_0 in *.
    cbn [app processJobs]. now rewrite Hc, He.
  - cbn [app processJobs].
    assert (Hr : shouldContinue r = true).
    { rewrite <- (advance_0 r).
      apply (shouldContinue_earlier r (List.length (j :: before)) 0); [lia|exact Hc]. }
    rewrite Hr. cbn [negb]. destruct (Hok j) as [b Hb]; [now left|]. rewrite Hb.
    rewrite (IH job after e (countJob r)).
    + now rewrite advance_step.
    + intros j' Hj'. apply Hok. now right.
    + exact He.
    + now rewrite advance_step.
Qed.

End ApiFailures.

(** X17.  When the mapper throws on a job of an API page, the handler
    throws that error again: the jobs of the page before it have been
    counted, but none of them is stored or queued, and no next page is
    asked for. *)
Theorem searchApiHandler_aborted_page (urlKey : jsstring -> jsstring)
    (host : Host) (iso : Z -> jsstring) (now : Z)
    (request : Request.t) (sp : SearchParams.t) (data : DiceSearchResponse.t)
    (before after : list DiceSearchJob.t) (job : DiceSearchJob.t) (e : jsstring)
    (w : World) :
  UserData.searchParams (Request.userData request) = Some sp ->
  DiceSearchResponse.data data = Some (before ++ job :: after) ->
  (forall j, In j before -> exists b, parseJobFromApi host now j = Ok b) ->
  parseJobFromApi host now job = Throw e ->
  shouldContinue (advance (router w) (List.length before)) = true ->
  searchApiHandler urlKey host iso now request (Ok (Some data)) w
  = (mkWorld (advance (router w) (List.length before)) (queue w) (dataset w), Throw e).
Proof.
  intros Hsp Hd Hok He Hc. unfold searchApiHandler. rewrite Hsp, Hd.
  assert (Hr : shouldContinue (router w) = true).
  { rewrite <- (advance_0 (router w)).
    apply (shouldContinue_earlier (router w) (List.length before) 0); [lia|exact Hc]. }
  rewrite Hr. cbn [negb].
  rewrite (processJobs_aborted host now before job after e (router w) [] Hok He Hc).
  reflexivity.
Qed.

Lemma searchApiHandler_aborted_page_witness :
  searchApiHandler Sample.urlKey Sample.host Sample.iso 0 Sample.apiRequest
    (Ok (Some (DiceSearchResponse.mk (Some [Sample.job; Cases.badJob; Sample.job]) None)))
    (Sample.world 100 false)
  = (mkWorld (mkRouter 1 100 false) [] [], Throw (js "RangeError")).
Proof.
  apply (searchApiHandler_aborted_page Sample.urlKey Sample.host Sample.iso 0 Sample.apiRequest
           Sample.params
           (DiceSearchResponse.mk (Some [Sample.job; Cases.badJob; Sample.job]) None)
           [Sample.job] [Sample.job] Cases.badJob (js "RangeError")
           (Sample.world 100 false)).
  - reflexivity.
  - reflexivity.
  - intros j [<-|[]]. exists Sample.parsed. reflexivity.
  - reflexivity.
  - reflexivity.
Defined.

(** ** The detail handler and the full record *)

(** X18.  The detail handler leaves the counter and the queue alone and
    never throws, whatever the state of the cap.  A page that can be read is
    stored as a full record; a page that cannot, on a request that carries
    no basic record (a start URL), leaves no trace in the dataset. *)
Theorem jobDetailHandler_frame (iso : Z -> jsstring) (now : Z) (request : Request.t)
    (doc : result DetailPage.t) (w : World) :
  let jobBasic := UserData.jobBasic (Request.userData request) in
  let w' := fst (jobDetailHandler iso now request doc w) in
  router w' = router w /\ queue w' = queue w
  /\ snd (jobDetailHandler iso now request doc w) = Ok tt
  /\ (forall page, doc = Ok page ->
      dataset w' = dataset w
                   ++ [FullItem (buildJobDetail iso now page jobBasic (Request.url request))])
  /\ (forall e, doc = Throw e -> jobBasic = None -> w' = w).
Proof.
  cbn zeta. unfold jobDetailHandler, extractJobDetails, bind.
  destruct doc as [page|e].
  - cbn [fst snd pushData router queue dataset].
    repeat match goal with |- _ /\ _ => split end; try reflexivity.
    + intros page' H. now injection H as <-.
    + discriminate.
  - destruct (UserData.jobBasic (Request.userData request)) as [b|];
      cbn [fst snd pushData router queue dataset];
      repeat match goal with |- _ /\ _ => split end;
      try reflexivity; try discriminate.
Qed.

Section FullRecord.

Lemma orLit_nonEmpty (a : option jsstring) (d : jsstring) : d <> [] -> orLit a d <> [].
Proof. apply orLit_filled. Qed.

Lemma setAdd_In (acc : list jsstring) (x s : jsstring) :
  In s (setAdd acc x) <-> In s acc \/ s = x.
Proof.
  unfold setAdd. destruct (member x acc) eqn:E.
  - split; [now left|]. intros [H| ->]; [exact H|now apply member_true].
  - rewrite in_app_iff. cbn [In]. intuition congruence.
Qed.

Lemma setAdd_all_In (xs acc : list jsstring) (s : jsstring) :
  In s (fold_left setAdd xs acc) <-> In s acc \/ In s xs.
Proof.
  revert acc. induction xs as [|x xs IH]; intros acc; cbn [fold_left In].
  - tauto.
  - rewrite IH, setAdd_In. intuition congruence.
Qed.

Lemma setAdd_all_NoDup (xs acc : list jsstring) :
  NoDup acc -> NoDup (fold_left setAdd xs acc).
Proof.
  intros H.
  destruct (setAdd_all_keeps (fun _ => True) xs acc) as [Hn _]; [|now apply Forall_forall|exact Hn].
  split; [exact H|now apply Forall_forall].
Qed.

(** The first loop over the skill elements of the page adds the cleaned,
    non-empty ones to the set. *)
Lemma pageSkills_set (els : list jsstring) :
  fold_left (fun skills el =>
               let skill := cleanText el in
               if nonEmpty skill then pushNew skills skill else skills) els []
  = fold_left setAdd (List.filter nonEmpty (List.map cleanText els)) [].
Proof.
  generalize (@nil jsstring). induction els as [|el els IH]; intros acc; [reflexivity|].
  cbn [fold_left List.map List.filter]. destruct (nonEmpty (cleanText el)).
  - cbn [fold_left]. now rewrite IH.
  - now rewrite IH.
Qed.

End FullRecord.

(** X19.  A full record always has an [id], a title, a company, a location
    and a posted date that are not empty, the URL of the request, and the
    time stamp.  Its skills are the cleaned, non-empty skill elements of the
    page together with the skills mined from the cleaned description, each
    once; its benefits are the cleaned, non-empty benefit elements of the
    page, all of them and in their order.  Either field is absent exactly
    when its list is empty. *)
Theorem buildJobDetail_complete (iso : Z -> jsstring) (now : Z) (page : DetailPage.t)
    (jobBasic : option Basic.t) (url : jsstring) :
  let f := buildJobDetail iso now page jobBasic url in
  let pageSkills := List.filter nonEmpty (List.map cleanText (DetailPage.skills page)) in
  let mined := extractSkills (cleanText (DetailPage.description page)) in
  let pageBenefits := List.filter nonEmpty (List.map cleanText (DetailPage.benefits page)) in
  Full.id f <> [] /\ Full.title f <> [] /\ Full.company f <> []
  /\ Full.location f <> [] /\ Full.postedDate f <> []
  /\ Full.url f = url /\ Full.scrapedAt f = iso now
  /\ (forall l, Full.skills f = Some l ->
      l <> [] /\ NoDup l /\ forall s, In s l <-> In s pageSkills \/ In s mined)
  /\ (Full.skills f = None <-> pageSkills = [] /\ mined = [])
  /\ (forall l, Full.benefits f = Some l -> l <> [] /\ l = pageBenefits)
  /\ (Full.benefits f = None <-> pageBenefits = []).
Proof.
  cbn zeta. unfold buildJobDetail.
  cbn [Full.id Full.title Full.company Full.location Full.postedDate Full.url
       Full.scrapedAt Full.skills Full.benefits].
  rewrite pageSkills_set. change pushNew with setAdd.
  set (pageSkills := List.filter nonEmpty (List.map cleanText (DetailPage.skills page))).
  set (mined := extractSkills (cleanText (DetailPage.description page))).
  set (pageBenefits := List.filter nonEmpty (List.map cleanText (DetailPage.benefits page))).
  set (skills := fold_left setAdd mined (fold_left setAdd pageSkills [])).
  assert (Hin : forall s, In s skills <-> In s pageSkills \/ In s mined).
  { intros s. unfold skills. rewrite !setAdd_all_In. cbn [In]. tauto. }
  assert (Hnd : NoDup skills).
  { unfold skills. apply setAdd_all_NoDup, setAdd_all_NoDup. constructor. }
  repeat match goal with |- _ /\ _ => split end;
    try (apply orLit_nonEmpty; discriminate); try reflexivity.
  - intros l Hl. destruct skills as [|s0 rest] eqn:E; [discriminate|].
    injection Hl as <-. split; [discriminate|]. split; [exact Hnd|exact Hin].
  - split.
    + intros Hnone. destruct skills as [|s0 rest] eqn:E; [|discriminate]. split.
      * destruct pageSkills as [|x xs]; [reflexivity|].
        destruct (proj2 (Hin x)). left. now left.
      * destruct mined as [|x xs]; [reflexivity|].
        destruct (proj2 (Hin x)). right. now left.
    + intros [Hp Hm]. destruct skills as [|s0 rest] eqn:E; [reflexivity|].
      destruct (proj1 (Hin s0)) as [H|H]; [now left| |];
        rewrite ?Hp, ?Hm in H; destruct H.
  - intros l Hl. destruct pageBenefits as [|b0 rest]; [discriminate|].
    injection Hl as <-. split; [discriminate|reflexivity].
  - split.
    + now destruct pageBenefits.
    + intros ->. reflexivity.
Qed.

(** ** The start of a run and the requests it creates *)

Section Requests.

Lemma nextPageRequest_ok (sp : SearchParams.t) :
  (1 <= SearchParams.page sp)%Z -> SearchParams.pageSize sp = 100%Z ->
  apiRequestOk (nextPageRequest sp).
Proof.
  intros Hp Hs. unfold apiRequestOk, nextPageRequest. cbv zeta.
  eexists. cbn [Request.userData UserData.searchParams UserData.page Request.url
                Request.uniqueKey SearchParams.page SearchParams.pageSize].
  split; [reflexivity|]. cbn [SearchParams.page SearchParams.pageSize].
  split; [lia|]. repeat split. exact Hs.
Qed.

Lemma emitJobs_queue (urlKey : jsstring -> jsstring)
    (scrapedAt : jsstring) (l : list Basic.t) (w : World) (r : Request.t) :
  In r (queue (emitJobs urlKey scrapedAt l w)) ->
  In r (queue w) \/ Request.label r = JOB_DETAIL.
Proof.
  unfold emitJobs. destruct (scrapeJobDetails (router w) && (0 <? List.length l)).
  - cbn [addRequests queue].
    destruct (fold_addRequest_from urlKey (List.map detailRequest l) (queue w)) as [added [E Hi]].
    rewrite E, in_app_iff. intros [H|H]; [now left|right].
    apply Hi, in_map_iff in H as [job [<- _]]. reflexivity.
  - destruct (pushAll_dataset scrapedAt l w) as [_ [Hq _]]. cbn zeta in Hq.
    rewrite Hq. now left.
Qed.

Lemma addRequests_one (urlKey : jsstring -> jsstring) (r' : Request.t) (w : World) (r : Request.t) :
  In r (queue (addRequests urlKey [r'] w)) -> In r (queue w) \/ r = r'.
Proof.
  cbn [addRequests queue fold_left]. unfold addRequest.
  destruct (known urlKey (queue w) r'); [now left|].
  rewrite in_app_iff. intros [H|[H|[]]]; [now left|now right].
Qed.

End Requests.

(** X20.  With start URLs, the run starts from one request per URL, in the
    order given: a detail request when the URL holds [/job-detail/], an
    HTML search request for page 1 otherwise, never an API request, so that
    the search input is not used.  Without start URLs it starts from two
    requests, both of which an empty queue accepts.  The first is the API
    request for page 1, under the key [search-page-1], whose parameters are
    those of the input (query, location, employment types, workplace types,
    easy-apply flag), with a radius of 30 in place of 0, [ANY] in place of
    an empty posted date, page 1 and a page size of 100.  The second is the
    HTML search request for the URL built from the input for page 1, under
    the key [html-search-page-1]. *)
Theorem startRequests_plan (urlKey : jsstring -> jsstring) (input : Input.t) :
  (Input.startUrls input <> [] ->
   Main.startRequests input
   = List.map (fun url =>
                 if includes (js "/job-detail/") url
                 then Request.mk url JOB_DETAIL
                        (UserData.mk JOB_DETAIL None None None) None
                 else Request.mk url SEARCH
                        (UserData.mk SEARCH (Some 1%Z) None None) None)
              (Input.startUrls input)
   /\ List.map Request.url (Main.startRequests input) = Input.startUrls input
   /\ forall r, In r (Main.startRequests input) ->
        Request.label r <> SEARCH_API
        /\ UserData.searchParams (Request.userData r) = None
        /\ UserData.jobBasic (Request.userData r) = None
        /\ (Request.label r = JOB_DETAIL
            <-> includes (js "/job-detail/") (Request.url r) = true))
  /\ (Input.startUrls input = [] ->
      let sp := SearchParams.mk (Input.searchQuery input) (Input.location input)
                  (if (Input.radius input =? 0)%Z then 30%Z else Input.radius input)
                  (Input.employmentTypes input)
                  (match Input.postedDate input with
                   | [] => js "ANY"
                   | _ :: _ => Input.postedDate input
                   end)
                  (Input.workplaceTypes input) (Input.easyApply input) 1 100 in
      let api := Request.mk (DICE_API_URL ++ js "?page=1") SEARCH_API
                   (UserData.mk SEARCH_API (Some 1%Z) (Some sp) None)
                   (Some (js "search-page-1")) in
      let html := Request.mk (buildSearchUrl input 1) SEARCH
                    (UserData.mk SEARCH (Some 1%Z) None None)
                    (Some (js "html-search-page-1")) in
      Main.startRequests input = [api; html]
      /\ apiRequestOk api
      /\ ((0 <= Input.radius input)%Z -> (0 < SearchParams.radius sp)%Z)
      /\ forall w, queue w = [] -> queue (addRequests urlKey [api; html] w) = [api; html]).
Proof.
  unfold Main.startRequests. split.
  - intros Hne. destruct (Input.startUrls input) as [|u us]; [congruence|].
    generalize (u :: us). clear. intros urls.
    split; [reflexivity|]. split.
    + induction urls as [|u urls IH]; [reflexivity|]. cbn [List.map]. rewrite IH.
      f_equal. unfold Main.startRequest. now destruct (includes (js "/job-detail/") u).
    + intros r Hr. apply in_map_iff in Hr as [u [<- _]]. unfold Main.startRequest.
      destruct (includes (js "/job-detail/") u) eqn:E;
        cbn [Request.label Request.userData UserData.searchParams UserData.jobBasic
             Request.url]; rewrite ?E; repeat split; congruence.
  - intros ->. cbn zeta. split.
    + unfold Main.seedParams, orLit. now destruct (Input.postedDate input).
    + split; [|split].
      * eexists. cbn [Request.userData UserData.searchParams UserData.page Request.url
                      Request.uniqueKey].
        split; [reflexivity|]. cbn [SearchParams.page SearchParams.pageSize].
        repeat split. lia.
      * cbn [SearchParams.radius]. intros Hr.
        destruct (Input.radius input =? 0)%Z eqn:E; [lia|].
        apply Z.eqb_neq in E. lia.
      * intros w Hq. cbn [addRequests queue fold_left]. rewrite Hq. reflexivity.
Qed.

(** X21.  Every API request of the program carries its search parameters,
    with a page of 1 or more that its URL and its unique key name, and a
    page size of 100: this holds of the requests in the queue after any of
    the three handlers has run, when it held before and of the request
    handled. *)
Theorem api_requests_wellformed (urlKey : jsstring -> jsstring)
    (host : Host) (urlWithPage : jsstring -> Z -> jsstring)
    (iso : Z -> jsstring) (now : Z) (request : Request.t) (w : World) :
  (forall r, In r (queue w) -> Request.label r = SEARCH_API -> apiRequestOk r) ->
  (forall response r,
     apiRequestOk request ->
     In r (queue (fst (searchApiHandler urlKey host iso now request response w))) ->
     Request.label r = SEARCH_API -> apiRequestOk r)
  /\ (forall doc r,
        In r (queue (fst (searchHandler urlKey urlWithPage iso now request doc w))) ->
        Request.label r = SEARCH_API -> apiRequestOk r)
  /\ (forall doc r,
        In r (queue (fst (jobDetailHandler iso now request doc w))) ->
        Request.label r = SEARCH_API -> apiRequestOk r).
Proof.
  intros Inv. split; [|split].
  - intros response r [sp [Hsp [Hp [_ [_ [_ Hs]]]]]]. unfold searchApiHandler.
    rewrite Hsp. destruct (negb (shouldContinue (router w))); [apply Inv|].
    destruct response as [[data|]|e]; [|apply Inv|apply Inv].
    destruct (DiceSearchResponse.data data) as [jobs|]; [|apply Inv].
    destruct (processJobs host now jobs (router w) []) as [r1 [l|e]]; [|apply Inv].
    match goal with |- context [if ?c then _ else _] => destruct c end; cbn [fst].
    + intros H Hl. apply addRequests_one in H as [H| ->].
      * apply emitJobs_queue in H as [H|H]; [now apply Inv|congruence].
      * now apply nextPageRequest_ok.
    + intros H Hl. apply emitJobs_queue in H as [H|H]; [now apply Inv|congruence].
  - intros doc r. unfold searchHandler.
    destruct (negb (shouldContinue (router w))); [apply Inv|].
    destruct (SearchPage.jobCards doc) as [|card cards]; [apply Inv|].
    destruct (processCards now 0 (card :: cards) (router w) []) as [r1 l].
    match goal with |- context [if ?c then _ else _] => destruct c end; cbn [fst].
    + intros H Hl. apply addRequests_one in H as [H| ->].
      * apply emitJobs_queue in H as [H|H]; [now apply Inv|congruence].
      * discriminate.
    + intros H Hl. apply emitJobs_queue in H as [H|H]; [now apply Inv|congruence].
  - intros doc r H. apply Inv.
    unfold jobDetailHandler in H.
    destruct (extractJobDetails iso now doc (UserData.jobBasic (Request.userData request))
                (Request.url request)); [exact H|].
    now destruct (UserData.jobBasic (Request.userData request)).
Qed.

Lemma api_requests_wellformed_witness :
  apiRequestOk (nextPageRequest Sample.params).
Proof.
  destruct (api_requests_wellformed Sample.urlKey Sample.host Sample.urlWithPage Sample.iso 0
              Sample.apiRequest (Sample.world 100 false)) as [H _].
  - intros r [].
  - apply (H (Sample.response [Sample.job] 3)).
    + exists Sample.params. repeat split. cbn. lia.
    + vm_compute. now left.
    + reflexivity.
Defined.

(** X22.  Initialising the router never leaves it without a cap: an input
    [maxJobs] of 0 gives a cap of 100, any other gives itself, and for an
    input that is not negative the handlers may go on exactly as long as
    fewer jobs than the cap have been counted.  Detail scraping is on
    unless the input turns it off. *)
Theorem initRouter_cap (inputMaxJobs : Z) (inputScrapeJobDetails : option bool) :
  let r := initRouter inputMaxJobs inputScrapeJobDetails in
  jobsScraped r = 0%Z
  /\ maxJobs r = (if (inputMaxJobs =? 0)%Z then 100%Z else inputMaxJobs)
  /\ (scrapeJobDetails r = false <-> inputScrapeJobDetails = Some false)
  /\ ((0 <= inputMaxJobs)%Z ->
      maxJobs r <> 0%Z
      /\ forall n, shouldContinue (advance r n) = true <-> (Z.of_nat n < maxJobs r)%Z).
Proof.
  cbn zeta. unfold initRouter. cbn [jobsScraped maxJobs scrapeJobDetails].
  split; [reflexivity|]. split; [reflexivity|]. split.
  - destruct inputScrapeJobDetails as [[|]|]; split; congruence.
  - intros Hm. unfold shouldContinue, advance. cbn [jobsScraped maxJobs].
    destruct (inputMaxJobs =? 0)%Z eqn:E.
    + split; [discriminate|]. intros n. cbn [Z.eqb orb]. rewrite Z.ltb_lt. lia.
    + apply Z.eqb_neq in E. split; [exact E|]. intros n.
      apply Z.eqb_neq in E. rewrite E. cbn [orb]. rewrite Z.ltb_lt. lia.
Qed.

(** ** The API handler on a page that maps without error *)




(** ** The definitions at work on sample inputs *)

Lemma extractSkills_distinct_pieces_witness :
  occursIn (js "PYTHON") (js "We use PYTHON and Java").
Proof.
  apply (proj2 (extractSkills_distinct_pieces (js "We use PYTHON and Java"))).
  vm_compute. now left.
Defined.

Lemma buildSearchUrl_shape_witness :
  exists head,
    buildSearchUrl Cases.input 1
    = js "https://www.dice.com/jobs?" ++ head ++ js "page=1&pageSize=100"
    /\ occursIn (js "filters.employmentType=CONTRACT&") head.
Proof.
  destruct (buildSearchUrl_shape Cases.input 1) as [head [E [_ H]]].
  exists head. split; [exact E|].
  apply (H (js "CONTRACT")). cbn. auto.
Defined.

Lemma jobDetailHandler_frame_witness :
  fst (jobDetailHandler Sample.iso 0 (Sample.detailRequestFor None)
         (Throw (js "TypeError")) (Sample.world 1 true))
  = Sample.world 1 true.
Proof.
  destruct (jobDetailHandler_frame Sample.iso 0 (Sample.detailRequestFor None)
              (Throw (js "TypeError")) (Sample.world 1 true)) as [_ [_ [_ [_ H]]]].
  apply (H (js "TypeError")); reflexivity.
Defined.

Lemma buildJobDetail_complete_witness :
  let f := buildJobDetail Sample.iso 0 Cases.detailPage None
             (js "https://www.dice.com/job-detail/ab-1") in
  Full.skills f = Some [js "Rocq"; js "Python"; js "python"]
  /\ NoDup [js "Rocq"; js "Python"; js "python"]
  /\ Full.benefits f = Some [js "Health"].
Proof.
  cbn zeta.
  assert (E : Full.skills (buildJobDetail Sample.iso 0 Cases.detailPage None
                             (js "https://www.dice.com/job-detail/ab-1"))
              = Some [js "Rocq"; js "Python"; js "python"])
    by (vm_compute; reflexivity).
  split; [exact E|]. split; [|vm_compute; reflexivity].
  destruct (buildJobDetail_complete Sample.iso 0 Cases.detailPage None
              (js "https://www.dice.com/job-detail/ab-1"))
    as (_ & _ & _ & _ & _ & _ & _ & Hs & _).
  now destruct (Hs _ E) as [_ [H _]].
Defined.

Lemma startRequests_plan_witness :
  List.map Request.uniqueKey (Main.startRequests Cases.input)
  = [Some (js "search-page-1"); Some (js "html-search-page-1")].
Proof.
  destruct (proj2 (startRequests_plan Sample.urlKey Cases.input) eq_refl) as [E _].
  rewrite E. reflexivity.
Defined.

Lemma initRouter_cap_witness :
  shouldContinue (advance (initRouter 0 None) 99) = true.
Proof.
  destruct (initRouter_cap 0 None) as [_ [_ [_ H]]].
  destruct H as [_ H]; [lia|]. apply H. cbn. lia.
Defined.

Example buildSearchApiUrl_all_filters :
  buildSearchApiUrl Sample.host Cases.searchParams
  = js "q=java+developer&location=New+York%2C+NY&latitude=&longitude=&countryCode2=US"
    ++ js "&radius=30&employmentType=FULLTIME%2CCONTRACT&postedDate=7"
    ++ js "&workplaceTypes=REMOTE&easyApply=true"
    ++ js "&page=2&pageSize=100&filters.isRemote=true&language=en".
Proof. vm_compute. reflexivity. Qed.

Example buildSearchApiUrl_no_filter :
  buildSearchApiUrl Sample.host
    (SearchParams.mk [] [] 0 [] (js "ANY") [ js "Anywhere" ] false 1 100)
  = js "page=1&pageSize=100&filters.isRemote=true&language=en".
Proof. vm_compute. reflexivity. Qed.

(** A workplace type that names an inherited property is sent as the text of
    that property; a posted-date key that does is not sent. *)
Example buildSearchApiUrl_inherited :
  buildSearchApiUrl Sample.host
    (SearchParams.mk [] [] 0 [] (js "toString") [ js "toString"; js "Hybrid" ] false 1 100)
  = js "workplaceTypes=function+toString%28%29+%7B+%5Bnative+code%5D+%7D%2CHYBRID"
    ++ js "&page=1&pageSize=100&filters.isRemote=true&language=en".
Proof. vm_compute. reflexivity. Qed.

Example buildSearchUrl_sample :
  buildSearchUrl Cases.input 3
  = js "https://www.dice.com/jobs?q=rocq&filters.employmentType=FULLTIME"
    ++ js "&filters.employmentType=CONTRACT&page=3&pageSize=100".
Proof. vm_compute. reflexivity. Qed.

(** U+00E9 and the pair U+D83D U+DE00 (one code point outside the basic
    plane) in UTF-8; a lone surrogate is written as U+FFFD. *)
Example encode_utf8 :
  Url.encode [233; 32; 55357; 56832; 126; 55357]%N
  = js "%C3%A9+%F0%9F%98%80%7E%EF%BF%BD".
Proof. vm_compute. reflexivity. Qed.

Example retry_no_attempt :
  Retry.retryWithBackoff (fun _ => Ok 1%Z) 0 1000 = (Retry.Rejected None, []).
Proof. reflexivity. Qed.

Example startRequests_custom :
  List.map Request.label
    (Main.startRequests
       (Input.mk (js "ignored") [] 30 [] (js "ANY") [] false 100 true
          [ js "https://www.dice.com/job-detail/ab-1"; js "https://www.dice.com/jobs?q=x" ]))
  = [JOB_DETAIL; SEARCH].
Proof. vm_compute. reflexivity. Qed.

(** Binary64 at work: 2.01 is not a binary64 number, and neither is its
    product by 1000, which falls just below 2010; 2^53 + 1 is rounded to
    2^53; a number of 310 digits is infinite. *)
Example parseSalary_rounds :
  match parseSalaryFromText (js "$2.01") with
  | Some r => Salary.min r
  | None => NaN
  end = Fin (8840073487319039 # 4398046511104)
  /\ (8840073487319039 # 4398046511104 < 2010)%Q
  /\ (2010 - (1 # 1000000000000) < 8840073487319039 # 4398046511104)%Q.
Proof. split; [vm_compute; reflexivity|]. split; reflexivity. Qed.

Example parseSalary_large :
  match parseSalaryFromText (js "$9007199254740993/year") with
  | Some r => Salary.min r
  | None => NaN
  end = Num.ofZ 9007199254740992.
Proof. vm_compute. reflexivity. Qed.

Example parseFloat_overflow : parseFloat (List.repeat 57%N 310) = Inf false.
Proof. vm_compute. reflexivity. Qed.

Example mul_rounds :
  mul (parseFloat (js "0.1")) (Num.ofZ 3) = Fin (1351079888211149 # 4503599627370496).
Proof. vm_compute. reflexivity. Qed.

(** ** A run of the crawler stays within the cap *)

Section Run.

Import Crawl.

Lemma fold_addRequest_length (urlKey : jsstring -> jsstring) (rs : list Request.t) :
  forall (q : list Request.t),
  exists added, fold_left (addRequest urlKey) rs q = q ++ added
                /\ List.length added <= List.length rs.
Proof.
  induction rs as [|a rs IH]; intros q; cbn [fold_left].
  - exists []. split; [now rewrite app_nil_r|cbn; lia].
  - destruct (IH (addRequest urlKey q a)) as [added [E Hl]]. unfold addRequest in *.
    destruct (known urlKey q a).
    + exists added. split; [exact E|cbn; lia].
    + exists (a :: added). split; [now rewrite E, <- app_assoc|cbn; lia].
Qed.

Lemma grows_same (w : World) : grows 0 w w [].
Proof.
  unfold grows. rewrite app_nil_r. change (detailCount []) with 0.
  repeat split; lia.
Qed.

Lemma emitJobs_grows (urlKey : jsstring -> jsstring)
    (scrapedAt : jsstring) (l : list Basic.t) (w : World) :
  exists added,
    queue (emitJobs urlKey scrapedAt l w) = queue w ++ added
    /\ List.length (dataset (emitJobs urlKey scrapedAt l w)) + detailCount added
       <= List.length (dataset w) + List.length l.
Proof.
  unfold emitJobs. destruct (scrapeJobDetails (router w) && (0 <? List.length l)).
  - cbn [addRequests queue dataset].
    destruct (fold_addRequest_length urlKey (List.map detailRequest l) (queue w))
      as [added [E Hl]].
    exists added. split; [exact E|].
    pose proof (detailCount_le_length added). rewrite length_map in Hl. lia.
  - destruct (pushAll_dataset scrapedAt l w) as [_ [Hq Hd]]. cbn zeta in *.
    exists []. rewrite Hq, Hd, app_nil_r, length_app, length_map.
    change (detailCount []) with 0. split; [reflexivity|lia].
Qed.

(** A page that has been counted and emitted, with or without the request
    for the next page. *)
Lemma page_grows (urlKey : jsstring -> jsstring)
    (scrapedAt : jsstring) (l : list Basic.t) (w : World) (r : Router)
    (next : Request.t) (more : bool) :
  counted (router w) r (List.length l) ->
  isDetail next = false ->
  let w1 := emitJobs urlKey scrapedAt l (setRouter r w) in
  exists added, grows 0 w (if more then addRequests urlKey [next] w1 else w1) added.
Proof.
  intros [H1 [H2 [H3 H4]]] Hn. cbn zeta.
  destruct (emitJobs_grows urlKey scrapedAt l (setRouter r w)) as [added [Eq Hd]].
  pose proof (emitJobs_router urlKey scrapedAt l (setRouter r w)) as Er.
  cbn [setRouter router queue dataset] in *.
  destruct more.
  - unfold addRequests. cbn [fold_left]. unfold addRequest.
    destruct (known urlKey (queue (emitJobs urlKey scrapedAt l (setRouter r w))) next).
    + exists added. unfold grows. cbn [router queue dataset]. rewrite Er, Eq.
      repeat split; try lia; try (intros; now apply H4).
    + exists (added ++ [next]). unfold grows. cbn [router queue dataset].
      rewrite Er, Eq, detailCount_app, <- app_assoc.
      assert (E0 : detailCount [next] = 0) by (unfold detailCount; cbn; now rewrite Hn).
      repeat split; try lia; try (intros; now apply H4).
  - exists added. unfold grows. rewrite Er, Eq.
    repeat split; try lia; try (intros; now apply H4).
Qed.

Lemma searchApiHandler_grows (urlKey : jsstring -> jsstring)
    (host : Host) (iso : Z -> jsstring) (now : Z)
    (request : Request.t) (response : result (option DiceSearchResponse.t))
    (w : World) :
  exists added, grows 0 w (fst (searchApiHandler urlKey host iso now request response w)) added.
Proof.
  unfold searchApiHandler.
  destruct (UserData.searchParams (Request.userData request)) as [sp|];
    [|exists []; apply grows_same].
  destruct (negb (shouldContinue (router w))); [exists []; apply grows_same|].
  destruct response as [[data|]|e]; try (exists []; apply grows_same).
  destruct (DiceSearchResponse.data data) as [jobs|]; [|exists []; apply grows_same].
  destruct (processJobs host now jobs (router w) []) as [r res] eqn:Hp.
  apply processJobs_counted in Hp as [added [Hc [_ Hl]]].
  destruct res as [l|e].
  - rewrite (Hl l eq_refl) in *. cbn [app] in *.
    match goal with |- context [if ?c then _ else _] => set (more := c) end.
    destruct (page_grows urlKey (isoNow iso now) added w r (nextPageRequest sp) more Hc eq_refl)
      as [a Ha].
    exists a. now destruct more.
  - exists []. destruct Hc as [H1 [H2 [H3 H4]]]. unfold grows.
    cbn [fst setRouter router queue dataset]. rewrite app_nil_r.
    change (detailCount []) with 0. repeat split; try lia; try (intros; now apply H4).
Qed.

Lemma searchHandler_grows (urlKey : jsstring -> jsstring) (urlWithPage : jsstring -> Z -> jsstring)
    (iso : Z -> jsstring) (now : Z) (request : Request.t) (doc : SearchPage.t)
    (w : World) :
  exists added, grows 0 w (fst (searchHandler urlKey urlWithPage iso now request doc w)) added
  /\ snd (searchHandler urlKey urlWithPage iso now request doc w) = Ok tt.
Proof.
  unfold searchHandler.
  destruct (negb (shouldContinue (router w)));
    [exists []; split; [apply grows_same|reflexivity]|].
  destruct (SearchPage.jobCards doc) as [|card cards];
    [exists []; split; [apply grows_same|reflexivity]|].
  destruct (processCards now 0 (card :: cards) (router w) []) as [r l] eqn:Hp.
  apply processCards_counted in Hp as [added [Hc [_ Hl]]]. subst l. cbn [app].
  match goal with |- context [if ?c then (addRequests urlKey [?n] _, _) else _] =>
    set (more := c); set (next := n)
  end.
  destruct (page_grows urlKey (isoNow iso now) added w r next more Hc eq_refl) as [a Ha].
  exists a. now destruct more.
Qed.

Lemma jobDetailHandler_grows (iso : Z -> jsstring) (now : Z) (request : Request.t)
    (doc : result DetailPage.t) (w : World) :
  grows 1 w (fst (jobDetailHandler iso now request doc w)) []
  /\ snd (jobDetailHandler iso now request doc w) = Ok tt.
Proof.
  unfold jobDetailHandler, grows.
  destruct (extractJobDetails iso now doc (UserData.jobBasic (Request.userData request))
              (Request.url request)) as [f|e];
    [|destruct (UserData.jobBasic (Request.userData request)) as [b|]];
    cbn [fst snd pushData router queue dataset]; rewrite ?app_nil_r, ?length_app;
    change (detailCount []) with 0; cbn [List.length];
    repeat split; lia.
Qed.

Lemma dispatch_grows (env : Env) (now : Z) (request : Request.t) (page : Page)
    (w w' : World) (outcome : result unit) :
  dispatch env now request page w = Some (w', outcome) ->
  exists added,
    grows (if isDetail request then 1 else 0) w w' added
    /\ (forall e, outcome = Throw e -> isDetail request = false).
Proof.
  unfold dispatch, isDetail. destruct (Request.label request), page; try discriminate;
    intros H; injection H as H.
  - destruct (searchHandler_grows (urlKey env) (urlWithPage env) (iso env) now request doc w)
      as [added [Hg Ho]].
    rewrite H in *. exists added. split; [exact Hg|reflexivity].
  - pose proof (searchApiHandler_grows (urlKey env) (host env) (iso env) now request response w)
      as [added Hg].
    rewrite H in *. exists added. split; [exact Hg|reflexivity].
  - destruct (jobDetailHandler_grows (iso env) now request doc w) as [Hg Ho].
    rewrite H in *. cbn [snd] in Ho. exists []. split; [exact Hg|].
    intros e He. congruence.
Qed.

Lemma newRequests_added (w w' : World) (added : list Request.t) :
  queue w' = queue w ++ added -> newRequests w w' = added.
Proof.
  intros H. unfold newRequests. rewrite H, skipn_app, skipn_all, Nat.sub_diag. reflexivity.
Qed.

Lemma run_kept (env : Env) (s0 s : State) :
  (0 < maxJobs (router (world s0)))%Z ->
  (jobsScraped (router (world s0)) <= maxJobs (router (world s0)))%Z ->
  run env s0 s -> kept s0 s.
Proof.
  intros Hpos Hle Hrun. induction Hrun as [|s' s'' Hrun IH Hstep].
  - unfold kept. lia.
  - destruct IH as [Hm [Hj Hd]]. unfold kept.
    assert (Hone : forall r : Request.t,
              Z.of_nat (detailCount [r]) = if isDetail r then 1%Z else 0%Z).
    { intros r. unfold detailCount. cbn. now destruct (isDetail r). }
    destruct Hstep as [now before after request page w' outcome Hp Hdis
                      |now before after request page w' e Hp Hdis
                      |before after request Hp].
    + apply dispatch_grows in Hdis as [added [[G1 [G2 [G3 [G4 G5]]]] _]].
      cbn [world pending]. rewrite (newRequests_added _ _ _ G4).
      rewrite Hp in Hd. change (request :: after) with ([request] ++ after) in Hd.
      rewrite !detailCount_app, !Nat2Z.inj_add, Hone in *.
      rewrite Hm in *. specialize (G3 Hpos (proj2 Hj)).
      split; [congruence|]. split; [lia|]. destruct (isDetail request); lia.
    + apply dispatch_grows in Hdis as [added [[G1 [G2 [G3 [G4 G5]]]] Ho]].
      cbn [world pending]. rewrite (newRequests_added _ _ _ G4).
      rewrite Hp in Hd. change (request :: after) with ([request] ++ after) in Hd.
      change (request :: after ++ added) with ([request] ++ after ++ added).
      rewrite !detailCount_app, !Nat2Z.inj_add, Hone in *.
      rewrite (Ho e eq_refl) in *.
      rewrite Hm in *. specialize (G3 Hpos (proj2 Hj)).
      split; [congruence|]. split; [lia|]. lia.
    + cbn [world pending]. rewrite Hp in Hd.
      change (request :: after) with ([request] ++ after) in Hd.
      rewrite !detailCount_app, !Nat2Z.inj_add in *.
      split; [exact Hm|]. split; [exact Hj|]. lia.
Qed.

End Run.

(** X24.  In a run of the crawler that starts from the start requests of
    an input, with the handlers running one after the other, whatever the
    pages hold and whatever is retried or given up: the counter never passes
    the cap (the input's [maxJobs], 100 when that is 0); the records stored
    and the detail requests still pending are together no more than the
    jobs counted plus the detail requests among the start requests; so the
    dataset never holds more records than the cap plus the number of start
    URLs that are detail pages, and never more than the cap when the run
    starts from a search. *)
Theorem run_within_cap (env : Crawl.Env) (input : Input.t) (s : Crawl.State) :
  (0 <= Input.maxJobs input)%Z ->
  Crawl.run env (Crawl.start env input) s ->
  let cap := if (Input.maxJobs input =? 0)%Z then 100%Z else Input.maxJobs input in
  let stored := Z.of_nat (List.length (dataset (Crawl.world s))) in
  (jobsScraped (router (Crawl.world s)) <= cap)%Z
  /\ (stored + Z.of_nat (detailCount (Crawl.pending s))
      <= jobsScraped (router (Crawl.world s))
         + Z.of_nat (detailCount (Main.startRequests input)))%Z
  /\ (stored <= cap + Z.of_nat (detailCount (Main.startRequests input)))%Z
  /\ (Input.startUrls input = [] -> (stored <= cap)%Z).
Proof.
  intros Hm Hrun. cbn zeta.
  assert (Hcap : maxJobs (router (Crawl.world (Crawl.start env input)))
                 = if (Input.maxJobs input =? 0)%Z then 100%Z else Input.maxJobs input)
    by reflexivity.
  assert (Hpos : (0 < maxJobs (router (Crawl.world (Crawl.start env input))))%Z).
  { rewrite Hcap. destruct (Input.maxJobs input =? 0)%Z eqn:E; [lia|].
    apply Z.eqb_neq in E. lia. }
  assert (H0 : jobsScraped (router (Crawl.world (Crawl.start env input))) = 0%Z)
    by reflexivity.
  assert (Hd0 : dataset (Crawl.world (Crawl.start env input)) = []) by reflexivity.
  assert (Hp0 : detailCount (Crawl.pending (Crawl.start env input))
                <= detailCount (Main.startRequests input)).
  { unfold Crawl.start. cbn [Crawl.pending addRequests queue].
    pose proof (addRequests_detailCount (Crawl.urlKey env) (Main.startRequests input) []) as H.
    change (detailCount []) with 0 in H. lia. }
  destruct (run_kept env (Crawl.start env input) s Hpos) as [K1 [K2 K3]];
    [lia|exact Hrun|].
  rewrite Hcap, H0 in *. rewrite Hd0 in K3. cbn [List.length Z.of_nat] in K3.
  assert (Hs : Input.startUrls input = [] ->
               detailCount (Main.startRequests input) = 0).
  { intros E. unfold Main.startRequests. rewrite E. reflexivity. }
  repeat split; try lia. intros E. rewrite (Hs E) in *. lia.
Qed.

Lemma run_within_cap_witness :
  let s := Runs.afterFirst Cases.input 0 (Crawl.ApiPage (Sample.response [Sample.job] 1)) in
  List.length (Crawl.pending s) = 2
  /\ (Z.of_nat (List.length (dataset (Crawl.world s))) <= 100)%Z.
Proof.
  cbn zeta. split; [vm_compute; reflexivity|].
  refine (proj2 (proj2 (proj2 (run_within_cap Runs.env Cases.input _ _ _))) eq_refl).
  - cbn. lia.
  - eapply Crawl.run_on; [apply Crawl.run_here|].
    exact (Crawl.Handled Runs.env (Crawl.start Runs.env Cases.input) 0 []
             (tl (Crawl.pending (Crawl.start Runs.env Cases.input)))
             (hd Sample.apiRequest (Crawl.pending (Crawl.start Runs.env Cases.input)))
             (Crawl.ApiPage (Sample.response [Sample.job] 1))
             (fst (searchApiHandler Sample.urlKey Sample.host Sample.iso 0
                     (hd Sample.apiRequest (Crawl.pending (Crawl.start Runs.env Cases.input)))
                     (Sample.response [Sample.job] 1)
                     (Crawl.world (Crawl.start Runs.env Cases.input))))
             (Ok tt) eq_refl eq_refl).
Defined.
